(** * Race forecasting: scoring and ranking engine, entry and history extractors

    A shallow embedding of [calculate_score], [predict], [parse_race_page],
    [parse_horse_history] and [get_base_url] as they are written in [app.py]
    and [scrape_and_predict.py], and of [display_results] of the latter.  The
    two files carry the first five functions; the places where they differ
    (the weight preset of the composite, one extra branch of the gate parser,
    one extra field of the row parser, one loop or two over the course names,
    the length test of get_base_url) are selected by a [source_file]
    argument.

    Conventions of the embedding:
    - a Python [int] is a [Z], a Python [float] is a real number ([R]): float
      arithmetic is read as exact real arithmetic, which leaves rounding,
      infinities, NaN and the OverflowError of an int beyond the float
      range out; where a statement turns on rounding, it is
      settled on [Binary64], the same scoring and ranking on binary64
      floats;
    - a Python [str] is a [string] holding its UTF-8 encoding; what the code
      does by character ([len], indexing, [str.isdigit], [int], [\d]) is
      done on the code points, with the digit tables of Unicode;
    - a Python exception is a [Raise] in the [result] monad; every division,
      [math.log], [min]/[max] of a sequence and [statistics.stdev] is checked
      the way the interpreter checks it. *)

From Stdlib Require Import String Ascii.
From Stdlib Require Import Reals Lra Lia ZArith Bool List.
From Stdlib Require Import Sorted Permutation.
From Stdlib Require PrimFloat Uint63.
Import ListNotations.

Open Scope R_scope.

(** ** Exceptions *)

Inductive exn : Type :=
| ValueError
| ZeroDivisionError
| StatisticsError
| IndexError.

Inductive result (A : Type) : Type :=
| Ok (a : A)
| Raise (e : exn).

Arguments Ok {A} a.
Arguments Raise {A} e.

Definition bind {A B : Type} (m : result A) (k : A -> result B) : result B :=
  match m with
  | Ok a => k a
  | Raise e => Raise e
  end.

Notation "x <- m ;; k" := (bind m (fun x => k))
  (at level 61, m at next level, right associativity).

Fixpoint mapM {A B : Type} (f : A -> result B) (l : list A) : result (list B) :=
  match l with
  | [] => Ok []
  | a :: l' => b <- f a ;; bs <- mapM f l' ;; Ok (b :: bs)
  end.

(** ** Python primitives on numbers and sequences *)

Definition Rgtb (x y : R) : bool := if Rlt_dec y x then true else false.
Definition Reqb (x y : R) : bool := if Req_dec_T x y then true else false.

(** Truth value of a float: everything but zero. *)
Definition truthy (x : R) : bool := negb (Reqb x 0).

Definition len {A : Type} (l : list A) : Z := Z.of_nat (length l).

(** [a / b] on floats. *)
Definition fdiv (a b : R) : result R :=
  if Req_dec_T b 0 then Raise ZeroDivisionError else Ok (a / b).

(** [a / b] on ints (true division). *)
Definition truediv (a b : Z) : result R := fdiv (IZR a) (IZR b).

(** [math.log]. *)
Definition math_log (x : R) : result R :=
  if Rlt_dec 0 x then Ok (ln x) else Raise ValueError.

(** [sum(l)]: starts from 0 and adds from the left. *)
Definition py_sum (l : list R) : R := fold_left Rplus l 0.

(** [sum(1 for x in l if p x)]. *)
Definition count_if {A : Type} (p : A -> bool) (l : list A) : Z :=
  len (filter p l).

(** [min(l)] and [max(l)] of a sequence of floats. *)
Definition py_min (l : list R) : result R :=
  match l with
  | [] => Raise ValueError
  | x :: l' => Ok (fold_left Rmin l' x)
  end.

Definition py_max (l : list R) : result R :=
  match l with
  | [] => Raise ValueError
  | x :: l' => Ok (fold_left Rmax l' x)
  end.

Definition enumerate {A : Type} (l : list A) : list (nat * A) :=
  combine (seq 0 (length l)) l.

(** [statistics.stdev] of a sequence of ints: the square root of the sample
    variance, [StatisticsError] under two data points. *)
Definition stdev (data : list Z) : result R :=
  if (len data <? 2)%Z then Raise StatisticsError
  else
    mean <- fdiv (py_sum (map IZR data)) (IZR (len data)) ;;
    let ss := py_sum (map (fun x => (IZR x - mean) * (IZR x - mean)) data) in
    var <- fdiv ss (IZR (len data - 1)) ;;
    Ok (sqrt var).

(** [needle in hay] on strings. *)
Definition str_in (needle hay : string) : bool :=
  match String.index 0 needle hay with
  | Some _ => true
  | None => false
  end.

Definition nonempty (s : string) : bool :=
  match s with
  | EmptyString => false
  | _ => true
  end.

(** ** Data model *)

Record RaceResult : Type := mkRaceResult {
  r_date : string;
  r_course : string;
  r_race_name : string;
  r_distance : Z;
  r_track_type : string;
  r_finish : Z;
  r_total_horses : Z;
  r_odds : R;
  r_popularity : Z
}.

(** The fields [sex], [age], [horse_weight], [weight_diff] and [horse_id] of
    [Horse], [time] and [weight] of [RaceResult], and [race_number],
    [track_condition], [weather], [date] and [start_time] of [RaceInfo] are
    left out: scoring and ranking never read them and the extractors test
    none of them. *)
Record Horse : Type := mkHorse {
  h_number : Z;
  h_gate : Z;
  h_name : string;
  h_jockey : string;
  h_weight_carry : R;
  h_trainer : string;
  h_odds : R;
  h_popularity : Z;
  h_results : list RaceResult
}.

Record RaceInfo : Type := mkRaceInfo {
  ri_race_id : string;
  ri_race_name : string;
  ri_course : string;
  ri_distance : Z;
  ri_track_type : string
}.

(** The two source files. *)
Inductive source_file : Type :=
| app_py
| scrape_and_predict_py.

(** ** calculate_score *)

Record Details : Type := mkDetails {
  d_recent : R;
  d_basic : R;
  d_distance : R;
  d_course : R;
  d_draw : R;
  d_odds : R;
  d_stability : R;
  d_weight : R
}.

Record Score : Type := mkScore {
  s_total : R;
  s_details : Details
}.

(** The weight each file multiplies a sub-score with. *)
Definition w_recent (f : source_file) : R :=
  match f with app_py => 0.40 | scrape_and_predict_py => 0.35 end.
Definition w_basic (f : source_file) : R := 0.15.
Definition w_distance (f : source_file) : R :=
  match f with app_py => 0.11 | scrape_and_predict_py => 0.12 end.
Definition w_course (f : source_file) : R := 0.08.
Definition w_draw (f : source_file) : R :=
  match f with app_py => 0.05 | scrape_and_predict_py => 0.08 end.
Definition w_odds (f : source_file) : R := 0.10.
Definition w_stability (f : source_file) : R := 0.07.
Definition w_weight (f : source_file) : R :=
  match f with app_py => 0.04 | scrape_and_predict_py => 0.05 end.

Definition recent_weights : list R := [0.35; 0.25; 0.2; 0.12; 0.08].

(** [max(0, 100 - (r.finish - 1) * 12)], on ints. *)
Definition finish_score (r : RaceResult) : Z :=
  Z.max 0 (100 - (r_finish r - 1) * 12).

Definition recent_score (results : list RaceResult) : R :=
  match results with
  | [] => 50
  | _ =>
      fold_left
        (fun weighted_sum (ir : nat * RaceResult) =>
           let (i, r) := ir in
           if (i <? length recent_weights)%nat
           then weighted_sum + IZR (finish_score r) * nth i recent_weights 0
           else weighted_sum)
        (enumerate (firstn 5 results)) 0
  end.

Definition is_place (r : RaceResult) : bool := (r_finish r <=? 3)%Z.

Definition basic_score (results : list RaceResult) : result R :=
  match results with
  | [] => Ok 50
  | _ =>
      let wins := count_if (fun r => (r_finish r =? 1)%Z) results in
      let places := count_if is_place results in
      win_rate <- truediv wins (len results) ;;
      place_rate <- truediv places (len results) ;;
      Ok (win_rate * 50 + place_rate * 50)
  end.

(** Place rate of a selection of runs, times 100; 50 when the selection is
    empty. *)
Definition place_rate_100 (same : list RaceResult) : result R :=
  match same with
  | [] => Ok 50
  | _ =>
      q <- truediv (count_if is_place same) (len same) ;;
      Ok (q * 100)
  end.

Definition distance_score (results : list RaceResult) (race_info : RaceInfo)
  : result R :=
  match results with
  | [] => Ok 50
  | _ =>
      if (ri_distance race_info =? 0)%Z then Ok 50
      else
        place_rate_100
          (filter (fun r =>
                     (Z.abs (r_distance r - ri_distance race_info) <=? 100)%Z)
                  results)
  end.

Definition course_score (results : list RaceResult) (race_info : RaceInfo)
  : result R :=
  match results with
  | [] => Ok 50
  | _ =>
      if nonempty (ri_course race_info)
      then place_rate_100
             (filter (fun r => str_in (ri_course race_info) (r_course r))
                     results)
      else Ok 50
  end.

Definition draw_score (horse : Horse) (race_info : RaceInfo)
  (all_horses : list Horse) : result R :=
  let total := len all_horses in
  if (negb (h_number horse =? 0)%Z && (0 <? total)%Z)%bool
  then
    position <- truediv (h_number horse - 1) (Z.max (total - 1) 1) ;;
    let inner_bias :=
      if (ri_distance race_info <=? 1400)%Z then 0.2 else 0.1 in
    Ok ((1 - position * inner_bias) * 100)
  else Ok 50.

Definition odds_score (horse : Horse) : result R :=
  if (truthy (h_odds horse) && Rgtb (h_odds horse) 0)%bool
  then
    l <- math_log (h_odds horse) ;;
    Ok (Rmax 0 (100 - l * 18))
  else Ok 50.

Definition stability_score (results : list RaceResult) : result R :=
  if (3 <=? len results)%Z
  then
    let finishes := map r_finish (firstn 10 results) in
    std <- (if (1 <? len finishes)%Z then stdev finishes else Ok 0) ;;
    Ok (Rmax 0 (100 - std * 12))
  else Ok 50.

Definition weight_score (horse : Horse) (all_horses : list Horse) : result R :=
  let weights :=
    map h_weight_carry
        (filter (fun h => Rgtb (h_weight_carry h) 0) all_horses) in
  match weights with
  | [] => Ok 50
  | _ =>
      if truthy (h_weight_carry horse)
      then
        avg_weight <- fdiv (py_sum weights) (IZR (len weights)) ;;
        let diff := h_weight_carry horse - avg_weight in
        Ok (Rmax 0 (Rmin 100 (50 - diff * 8)))
      else Ok 50
  end.

Definition calculate_score (f : source_file) (horse : Horse)
  (race_info : RaceInfo) (all_horses : list Horse) : result Score :=
  let results := h_results horse in
  let total_score := 0 in
  let recent := recent_score results in
  let total_score := total_score + recent * w_recent f in
  basic <- basic_score results ;;
  let total_score := total_score + basic * w_basic f in
  distance <- distance_score results race_info ;;
  let total_score := total_score + distance * w_distance f in
  course <- course_score results race_info ;;
  let total_score := total_score + course * w_course f in
  draw <- draw_score horse race_info all_horses ;;
  let total_score := total_score + draw * w_draw f in
  odds <- odds_score horse ;;
  let total_score := total_score + odds * w_odds f in
  stability <- stability_score results ;;
  let total_score := total_score + stability * w_stability f in
  weight <- weight_score horse all_horses ;;
  let total_score := total_score + weight * w_weight f in
  Ok {| s_total := total_score;
        s_details := mkDetails recent basic distance course draw odds
                               stability weight |}.

(** ** predict *)

(** The dict a prediction starts as: horse, score, details. *)
Record Scored : Type := mkScored {
  sc_horse : Horse;
  sc_score : R;
  sc_details : Details
}.

(** The dict [predict] returns, with every key set. *)
Record Prediction : Type := mkPrediction {
  p_horse : Horse;
  p_score : R;
  p_details : Details;
  p_norm_score : R;
  p_win_prob : R;
  p_rank : Z;
  p_expected_value : R
}.

(** [list.sort(key=score, reverse=True)]: a stable sort, entries of equal
    score keep their order.  An entry taken from the front of the list goes
    before the first entry of the sorted rest whose score is not greater. *)
Fixpoint insert_desc (p : Scored) (l : list Scored) : list Scored :=
  match l with
  | [] => [p]
  | q :: l' =>
      if Rlt_dec (sc_score p) (sc_score q)
      then q :: insert_desc p l'
      else p :: q :: l'
  end.

Definition sort_desc (l : list Scored) : list Scored :=
  fold_right insert_desc [] l.

Definition temperature : R := 0.3.

Definition score_horse (f : source_file) (race_info : RaceInfo)
  (horses : list Horse) (horse : Horse) : result Scored :=
  score_data <- calculate_score f horse race_info horses ;;
  Ok (mkScored horse (s_total score_data) (s_details score_data)).

(** Body of the first loop: the normalized score and its exponential. *)
Definition norm_exp (min_s max_s : R) (p : Scored) : result (R * R) :=
  norm <- (if Rgtb max_s min_s
           then fdiv (sc_score p - min_s) (max_s - min_s)
           else Ok 0.5) ;;
  q <- fdiv norm temperature ;;
  Ok (norm, exp q).

Definition list_get {A : Type} (l : list A) (i : nat) : result A :=
  match nth_error l i with
  | Some a => Ok a
  | None => Raise IndexError
  end.

(** Body of the second loop. *)
Definition finish_prediction (exp_scores : list R) (total_exp : R)
  (ipn : nat * (Scored * R)) : result Prediction :=
  let (i, pn) := ipn in
  let (p, norm) := pn in
  e <- list_get exp_scores i ;;
  win_prob <- fdiv e total_exp ;;
  let odds := h_odds (sc_horse p) in
  let expected_value :=
    if (truthy odds && Rgtb odds 0)%bool then win_prob * odds else 0 in
  Ok (mkPrediction (sc_horse p) (sc_score p) (sc_details p) norm win_prob
                   (Z.of_nat i + 1) expected_value).

Definition predict (f : source_file) (horses : list Horse)
  (race_info : RaceInfo) : result (list Prediction) :=
  predictions <- mapM (score_horse f race_info horses) horses ;;
  let predictions := sort_desc predictions in
  let scores := map sc_score predictions in
  min_s <- py_min scores ;;
  max_s <- py_max scores ;;
  norm_exps <- mapM (norm_exp min_s max_s) predictions ;;
  let exp_scores := map snd norm_exps in
  let total_exp := py_sum exp_scores in
  mapM (finish_prediction exp_scores total_exp)
       (enumerate (combine predictions (map fst norm_exps))).

(** ** The scoring and the ranking in binary64 *)

(** The same two functions with a Python [float] read as what it is, an
    IEEE 754 binary64 number ([PrimFloat.float]), every operation rounding
    to nearest: this is the arithmetic the interpreter runs, and it decides
    the statements that turn on exactness or strictness.  [math.exp],
    [math.log] and [statistics.stdev], which the interpreter takes from its
    libraries, are parameters; ints are converted as the interpreter does
    for magnitudes below 2^63. *)
Module Binary64.

Import PrimFloat.

Local Set Warnings "-inexact-float".

Definition float_of_int (z : Z) : float :=
  match z with
  | Z0 => 0%float
  | Zpos _ => PrimFloat.of_uint63 (Uint63.of_Z z)
  | Zneg p => PrimFloat.opp (PrimFloat.of_uint63 (Uint63.of_Z (Zpos p)))
  end.

(** [a / b] on floats and on ints. *)
Definition fdiv (a b : float) : result float :=
  if PrimFloat.eqb b 0 then Raise ZeroDivisionError
  else Ok (PrimFloat.div a b).

Definition truediv (a b : Z) : result float :=
  if (b =? 0)%Z then Raise ZeroDivisionError
  else Ok (PrimFloat.div (float_of_int a) (float_of_int b)).

(** [sum(l)]: starts from 0 and adds from the left. *)
Definition py_sum (l : list float) : float := fold_left PrimFloat.add l 0%float.

(** [max(0, x)] and [min(100, x)]: the first argument unless the second
    is greater, respectively smaller. *)
Definition max_0 (x : float) : float := if PrimFloat.ltb 0 x then x else 0%float.
Definition min_100 (x : float) : float :=
  if PrimFloat.ltb x 100 then x else 100%float.

Definition truthy (x : float) : bool := negb (PrimFloat.eqb x 0).

(** [min(l)] and [max(l)]: the first least, respectively greatest, item. *)
Definition py_min (l : list float) : result float :=
  match l with
  | [] => Raise ValueError
  | x :: l' =>
      Ok (fold_left (fun m y => if PrimFloat.ltb y m then y else m) l' x)
  end.

Definition py_max (l : list float) : result float :=
  match l with
  | [] => Raise ValueError
  | x :: l' =>
      Ok (fold_left (fun m y => if PrimFloat.ltb m y then y else m) l' x)
  end.

(** The fields of [Horse] the scoring and the ranking read. *)
Record Horse : Type := mkHorse {
  h_number : Z;
  h_weight_carry : float;
  h_odds : float;
  h_results : list RaceResult
}.

Record Details : Type := mkDetails {
  d_recent : float;
  d_basic : float;
  d_distance : float;
  d_course : float;
  d_draw : float;
  d_odds : float;
  d_stability : float;
  d_weight : float
}.

Record Score : Type := mkScore {
  s_total : float;
  s_details : Details
}.

Definition w_recent (f : source_file) : float :=
  match f with app_py => 0.40 | scrape_and_predict_py => 0.35 end.
Definition w_basic (f : source_file) : float := 0.15.
Definition w_distance (f : source_file) : float :=
  match f with app_py => 0.11 | scrape_and_predict_py => 0.12 end.
Definition w_course (f : source_file) : float := 0.08.
Definition w_draw (f : source_file) : float :=
  match f with app_py => 0.05 | scrape_and_predict_py => 0.08 end.
Definition w_odds (f : source_file) : float := 0.10.
Definition w_stability (f : source_file) : float := 0.07.
Definition w_weight (f : source_file) : float :=
  match f with app_py => 0.04 | scrape_and_predict_py => 0.05 end.

Definition recent_weights : list float := [0.35; 0.25; 0.2; 0.12; 0.08]%float.

Section Scoring.

(** [math.exp], [math.log] on a positive float, and [statistics.stdev] on
    two ints or more. *)
Variable math_exp : float -> float.
Variable math_log : float -> float.
Variable statistics_stdev : list Z -> float.

Definition recent_score (results : list RaceResult) : float :=
  match results with
  | [] => 50%float
  | _ =>
      fold_left
        (fun weighted_sum (ir : nat * RaceResult) =>
           let (i, r) := ir in
           if (i <? length recent_weights)%nat
           then PrimFloat.add weighted_sum
                  (PrimFloat.mul (float_of_int (finish_score r))
                                 (nth i recent_weights 0%float))
           else weighted_sum)
        (enumerate (firstn 5 results)) 0%float
  end.

Definition basic_score (results : list RaceResult) : result float :=
  match results with
  | [] => Ok 50%float
  | _ =>
      let wins := count_if (fun r => (r_finish r =? 1)%Z) results in
      let places := count_if is_place results in
      win_rate <- truediv wins (len results) ;;
      place_rate <- truediv places (len results) ;;
      Ok (PrimFloat.add (PrimFloat.mul win_rate 50)
                        (PrimFloat.mul place_rate 50))
  end.

Definition place_rate_100 (same : list RaceResult) : result float :=
  match same with
  | [] => Ok 50%float
  | _ =>
      q <- truediv (count_if is_place same) (len same) ;;
      Ok (PrimFloat.mul q 100)
  end.

Definition distance_score (results : list RaceResult) (race_info : RaceInfo)
  : result float :=
  match results with
  | [] => Ok 50%float
  | _ =>
      if (ri_distance race_info =? 0)%Z then Ok 50%float
      else
        place_rate_100
          (filter (fun r =>
                     (Z.abs (r_distance r - ri_distance race_info) <=? 100)%Z)
                  results)
  end.

Definition course_score (results : list RaceResult) (race_info : RaceInfo)
  : result float :=
  match results with
  | [] => Ok 50%float
  | _ =>
      if nonempty (ri_course race_info)
      then place_rate_100
             (filter (fun r => str_in (ri_course race_info) (r_course r))
                     results)
      else Ok 50%float
  end.

Definition draw_score (horse : Horse) (race_info : RaceInfo)
  (all_horses : list Horse) : result float :=
  let total := len all_horses in
  if (negb (h_number horse =? 0)%Z && (0 <? total)%Z)%bool
  then
    position <- truediv (h_number horse - 1) (Z.max (total - 1) 1) ;;
    let inner_bias :=
      if (ri_distance race_info <=? 1400)%Z then 0.2%float else 0.1%float in
    Ok (PrimFloat.mul (PrimFloat.sub 1 (PrimFloat.mul position inner_bias))
                      100)
  else Ok 50%float.

Definition odds_score (horse : Horse) : result float :=
  if (truthy (h_odds horse) && PrimFloat.ltb 0 (h_odds horse))%bool
  then
    Ok (max_0 (PrimFloat.sub 100
                 (PrimFloat.mul (math_log (h_odds horse)) 18)))
  else Ok 50%float.

Definition stability_score (results : list RaceResult) : result float :=
  if (3 <=? len results)%Z
  then
    let finishes := map r_finish (firstn 10 results) in
    let std :=
      if (1 <? len finishes)%Z then statistics_stdev finishes else 0%float in
    Ok (max_0 (PrimFloat.sub 100 (PrimFloat.mul std 12)))
  else Ok 50%float.

Definition weight_score (horse : Horse) (all_horses : list Horse)
  : result float :=
  let weights :=
    map h_weight_carry
        (filter (fun h => PrimFloat.ltb 0 (h_weight_carry h)) all_horses) in
  match weights with
  | [] => Ok 50%float
  | _ =>
      if truthy (h_weight_carry horse)
      then
        avg_weight <- fdiv (py_sum weights) (float_of_int (len weights)) ;;
        let diff := PrimFloat.sub (h_weight_carry horse) avg_weight in
        Ok (max_0 (min_100 (PrimFloat.sub 50 (PrimFloat.mul diff 8))))
      else Ok 50%float
  end.

Definition calculate_score (f : source_file) (horse : Horse)
  (race_info : RaceInfo) (all_horses : list Horse) : result Score :=
  let results := h_results horse in
  let total_score := 0%float in
  let recent := recent_score results in
  let total_score :=
    PrimFloat.add total_score (PrimFloat.mul recent (w_recent f)) in
  basic <- basic_score results ;;
  let total_score :=
    PrimFloat.add total_score (PrimFloat.mul basic (w_basic f)) in
  distance <- distance_score results race_info ;;
  let total_score :=
    PrimFloat.add total_score (PrimFloat.mul distance (w_distance f)) in
  course <- course_score results race_info ;;
  let total_score :=
    PrimFloat.add total_score (PrimFloat.mul course (w_course f)) in
  draw <- draw_score horse race_info all_horses ;;
  let total_score :=
    PrimFloat.add total_score (PrimFloat.mul draw (w_draw f)) in
  odds <- odds_score horse ;;
  let total_score :=
    PrimFloat.add total_score (PrimFloat.mul odds (w_odds f)) in
  stability <- stability_score results ;;
  let total_score :=
    PrimFloat.add total_score (PrimFloat.mul stability (w_stability f)) in
  weight <- weight_score horse all_horses ;;
  let total_score :=
    PrimFloat.add total_score (PrimFloat.mul weight (w_weight f)) in
  Ok {| s_total := total_score;
        s_details := mkDetails recent basic distance course draw odds
                               stability weight |}.

Record Scored : Type := mkScored {
  sc_horse : Horse;
  sc_score : float;
  sc_details : Details
}.

Record Prediction : Type := mkPrediction {
  p_horse : Horse;
  p_score : float;
  p_details : Details;
  p_norm_score : float;
  p_win_prob : float;
  p_rank : Z;
  p_expected_value : float
}.

Fixpoint insert_desc (p : Scored) (l : list Scored) : list Scored :=
  match l with
  | [] => [p]
  | q :: l' =>
      if PrimFloat.ltb (sc_score p) (sc_score q)
      then q :: insert_desc p l'
      else p :: q :: l'
  end.

Definition sort_desc (l : list Scored) : list Scored :=
  fold_right insert_desc [] l.

Definition temperature : float := 0.3.

Definition score_horse (f : source_file) (race_info : RaceInfo)
  (horses : list Horse) (horse : Horse) : result Scored :=
  score_data <- calculate_score f horse race_info horses ;;
  Ok (mkScored horse (s_total score_data) (s_details score_data)).

Definition norm_exp (min_s max_s : float) (p : Scored)
  : result (float * float) :=
  norm <- (if PrimFloat.ltb min_s max_s
           then fdiv (PrimFloat.sub (sc_score p) min_s)
                     (PrimFloat.sub max_s min_s)
           else Ok 0.5%float) ;;
  q <- fdiv norm temperature ;;
  Ok (norm, math_exp q).

Definition finish_prediction (exp_scores : list float) (total_exp : float)
  (ipn : nat * (Scored * float)) : result Prediction :=
  let (i, pn) := ipn in
  let (p, norm) := pn in
  e <- list_get exp_scores i ;;
  win_prob <- fdiv e total_exp ;;
  let odds := h_odds (sc_horse p) in
  let expected_value :=
    if (truthy odds && PrimFloat.ltb 0 odds)%bool
    then PrimFloat.mul win_prob odds else 0%float in
  Ok (mkPrediction (sc_horse p) (sc_score p) (sc_details p) norm win_prob
                   (Z.of_nat i + 1) expected_value).

Definition predict (f : source_file) (horses : list Horse)
  (race_info : RaceInfo) : result (list Prediction) :=
  predictions <- mapM (score_horse f race_info horses) horses ;;
  let predictions := sort_desc predictions in
  let scores := map sc_score predictions in
  min_s <- py_min scores ;;
  max_s <- py_max scores ;;
  norm_exps <- mapM (norm_exp min_s max_s) predictions ;;
  let exp_scores := map snd norm_exps in
  let total_exp := py_sum exp_scores in
  mapM (finish_prediction exp_scores total_exp)
       (enumerate (combine predictions (map fst norm_exps))).

End Scoring.


Definition blank_horse : Horse := mkHorse 0 0 0 [].

Definition mile_race : RaceInfo :=
  mkRaceInfo "-" "-" EmptyString 1600 EmptyString.

End Binary64.

(** ** Text primitives of the extractors *)

(** A Python [str] is a sequence of code points.  A [string] of this file
    stands for the str it is the UTF-8 encoding of, and [chars] gives the
    code points of that str: whatever the code does by character ([len],
    indexing, [str.isdigit], [int], [\d] in a pattern) is done on [chars].
    A byte that cannot start or continue an encoding stands for itself. *)
Fixpoint utf8_decode (pending : nat) (acc : N) (s : string) : list N :=
  match s with
  | EmptyString => []
  | String b s' =>
      let b := N_of_ascii b in
      match pending with
      | O =>
          if (b <? 0x80)%N then b :: utf8_decode 0 0 s'
          else if ((0xC0 <=? b) && (b <? 0xE0))%N
          then utf8_decode 1 (b - 0xC0) s'
          else if ((0xE0 <=? b) && (b <? 0xF0))%N
          then utf8_decode 2 (b - 0xE0) s'
          else if ((0xF0 <=? b) && (b <? 0xF8))%N
          then utf8_decode 3 (b - 0xF0) s'
          else b :: utf8_decode 0 0 s'
      | S O => (acc * 64 + b mod 64)%N :: utf8_decode 0 0 s'
      | S p => utf8_decode p (acc * 64 + b mod 64) s'
      end
  end.

Definition chars (s : string) : list N := utf8_decode 0 0 s.

(** The characters of numeric type Decimal (category Nd) come in runs of
    ten, zero to nine; these are the zeros of the runs, as in the Unicode
    tables of the interpreter (Unicode 14.0). *)
Definition decimal_zeros : list N :=
  [
   0x30; 0x660; 0x6F0; 0x7C0; 0x966; 0x9E6; 0xA66; 0xAE6; 0xB66; 0xBE6;
   0xC66; 0xCE6; 0xD66; 0xDE6; 0xE50; 0xED0; 0xF20; 0x1040; 0x1090; 0x17E0;
   0x1810; 0x1946; 0x19D0; 0x1A80; 0x1A90; 0x1B50; 0x1BB0; 0x1C40; 0x1C50;
   0xA620; 0xA8D0; 0xA900; 0xA9D0; 0xA9F0; 0xAA50; 0xABF0; 0xFF10; 0x104A0;
   0x10D30; 0x11066; 0x110F0; 0x11136; 0x111D0; 0x112F0; 0x11450; 0x114D0;
   0x11650; 0x116C0; 0x11730; 0x118E0; 0x11950; 0x11C50; 0x11D50; 0x11DA0;
   0x16A60; 0x16AC0; 0x16B50; 0x1D7CE; 0x1D7D8; 0x1D7E2; 0x1D7EC; 0x1D7F6;
   0x1E140; 0x1E2F0; 0x1E950; 0x1FBF0
  ]%N.

(** The value of a decimal digit, in any script. *)
Definition decimal_value (c : N) : option Z :=
  match find (fun z => ((z <=? c) && (c <? z + 10))%N) decimal_zeros with
  | Some z => Some (Z.of_N (c - z))
  | None => None
  end.

Definition is_decimal (c : N) : bool :=
  match decimal_value c with
  | Some _ => true
  | None => false
  end.

(** The characters of numeric type Digit that are not decimal: superscript
    and subscript digits, circled and parenthesized digits and the like. *)
Definition digit_ranges : list (N * N) :=
  [
   (0xB2, 0xB3); (0xB9, 0xB9); (0x1369, 0x1371); (0x19DA, 0x19DA);
   (0x2070, 0x2070); (0x2074, 0x2079); (0x2080, 0x2089); (0x2460, 0x2468);
   (0x2474, 0x247C); (0x2488, 0x2490); (0x24EA, 0x24EA); (0x24F5, 0x24FD);
   (0x24FF, 0x24FF); (0x2776, 0x277E); (0x2780, 0x2788); (0x278A, 0x2792);
   (0x10A40, 0x10A43); (0x10E60, 0x10E68); (0x11052, 0x1105A);
   (0x1F100, 0x1F10A)
  ]%N.

Definition is_digit (c : N) : bool :=
  (is_decimal c
   || existsb (fun r => ((fst r <=? c) && (c <=? snd r))%N) digit_ranges)%bool.

(** [str.isdigit]: at least one character, and all of them digits. *)
Definition isdigit (s : string) : bool :=
  match chars s with
  | [] => false
  | cs => forallb is_digit cs
  end.

Definition int_of_decimals (ds : list Z) : Z :=
  fold_left (fun acc d => (acc * 10 + d)%Z) ds 0%Z.

(** The digits of an int literal: decimal digits of any script, with single
    underscores allowed between two digits. *)
Fixpoint int_body (after_digit : bool) (cs : list N) : option (list Z) :=
  match cs with
  | [] => if after_digit then Some [] else None
  | c :: cs' =>
      match decimal_value c with
      | Some d => option_map (cons d) (int_body true cs')
      | None =>
          if ((c =? 0x5F)%N && after_digit)%bool then int_body false cs'
          else None
      end
  end.

(** [sys.get_int_max_str_digits()], at its default. *)
Definition int_max_str_digits : Z := 4300.

Definition int_digits (cs : list N) : option Z :=
  match int_body false cs with
  | Some ds =>
      if (len ds <=? int_max_str_digits)%Z then Some (int_of_decimals ds)
      else None
  | None => None
  end.

(** [int(s)] of a text without surrounding blanks (the texts the extractors
    read are stripped): [None] where Python raises [ValueError]. *)
Definition py_int (s : string) : option Z :=
  match chars s with
  | [] => None
  | c :: cs' =>
      if (c =? 0x2D)%N then option_map Z.opp (int_digits cs')
      else if (c =? 0x2B)%N then int_digits cs'
      else int_digits (c :: cs')
  end.

(** The values of the longest prefix of at most [n] decimal digits. *)
Fixpoint take_decimals (n : nat) (cs : list N) : list Z :=
  match n, cs with
  | S n', c :: cs' =>
      match decimal_value c with
      | Some d => d :: take_decimals n' cs'
      | None => []
      end
  | _, _ => []
  end.

Definition turf_glyph : string := "芝".
Definition dirt_glyph : string := "ダ".
Definition jump_glyph : string := "障".

Definition turf_char : N := 0x829D.
Definition dirt_char : N := 0x30C0.
Definition jump_char : N := 0x969C.

(** [([芝ダ障])(\d{3,4})] matched at the head of [cs]: the glyph and the
    number. *)
Definition match_surface_distance (cs : list N) : option (N * Z) :=
  match cs with
  | g :: cs' =>
      if existsb (N.eqb g) [turf_char; dirt_char; jump_char]
      then
        let ds := take_decimals 4 cs' in
        if (3 <=? length ds)%nat then Some (g, int_of_decimals ds) else None
      else None
  | [] => None
  end.

(** [(\d{3,4})m] matched at the head of [cs]: four digits and an [m], or
    else three digits and an [m]. *)
Definition match_meters (cs : list N) : option Z :=
  let d4 := take_decimals 4 cs in
  let d3 := take_decimals 3 cs in
  let m_at i := match nth_error cs i with
                | Some c => (c =? 0x6D)%N
                | None => false
                end in
  if ((length d4 =? 4)%nat && m_at 4%nat)%bool
  then Some (int_of_decimals d4)
  else if ((length d3 =? 3)%nat && m_at 3%nat)%bool
  then Some (int_of_decimals d3)
  else None.

(** [(\d+)] matched at the head of [cs]: the digits of the longest run. *)
Fixpoint match_decimals (cs : list N) : list Z :=
  match cs with
  | c :: cs' =>
      match decimal_value c with
      | Some d => d :: match_decimals cs'
      | None => []
      end
  | [] => []
  end.

(** [re.search]: the match at the leftmost position that has one. *)
Fixpoint re_search {A : Type} (match_at : list N -> option A) (cs : list N)
  : option A :=
  match match_at cs with
  | Some a => Some a
  | None =>
      match cs with
      | [] => None
      | _ :: cs' => re_search match_at cs'
      end
  end.

(** [^(\d{2}\.\d)$] on a stripped text, and the float of its group. *)
Definition match_weight (s : string) : option R :=
  match chars s with
  | [a; b; dot; c] =>
      match decimal_value a, decimal_value b, decimal_value c with
      | Some a, Some b, Some c =>
          if (dot =? 0x2E)%N
          then Some (IZR (a * 10 + b) + IZR c / 10)
          else None
      | _, _, _ => None
      end
  | _ => None
  end.

Fixpoint find_map {A B : Type} (f : A -> option B) (l : list A) : option B :=
  match l with
  | [] => None
  | a :: l' =>
      match f a with
      | Some b => Some b
      | None => find_map f l'
      end
  end.

Definition obind {A B : Type} (m : option A) (k : A -> option B) : option B :=
  match m with
  | Some a => k a
  | None => None
  end.

Notation "x <-? m ;; k" := (obind m (fun x => k))
  (at level 61, m at next level, right associativity).

(** ** The documents, as the selectors of the extractors see them *)

(** A [td] of the history table: the stripped text of its first link, when
    it has one, and its own stripped text. *)
Record Cell : Type := mkCell {
  c_link : option string;
  c_text : string
}.

(** A results table: the rows of its [tbody], when it has one, and all of
    its rows; a row is the list of its [td] cells. *)
Record Table : Type := mkTable {
  t_tbody : option (list (list Cell));
  t_rows : list (list Cell)
}.

Record HistoryPage : Type := mkHistoryPage {
  hp_db_h_race_results : option Table;
  hp_nk_tb_common : option Table
}.

(** A [td] whose class contains [Waku]: the text of its first [span], when
    it has one, and its own text. *)
Record WakuCell : Type := mkWakuCell {
  wk_span : option string;
  wk_text : string
}.

(** The link [span.HorseName a]: its [title] attribute and its text. *)
Record NameLink : Type := mkNameLink {
  nl_title : option string;
  nl_text : string
}.

(** A [tr.HorseList] row: the cell of the gate, the texts of the program
    number cell, of the [td.Barei] cell and of every [td], the first links
    of the jockey and trainer cells, the texts of the odds span and of the
    popularity cell; a text is the stripped text of its element. *)
Record EntryRow : Type := mkEntryRow {
  er_waku : option WakuCell;
  er_umaban : option string;
  er_name_link : option NameLink;
  er_barei : option string;
  er_cells : list string;
  er_jockey : option (option string);
  er_trainer : option (option string);
  er_odds : option string;
  er_ninki : option string
}.

Record RacePage : Type := mkRacePage {
  pg_race_name : option string;
  pg_race_data01 : option string;
  pg_race_data02 : option string;
  pg_horse_rows : list EntryRow
}.

Definition jra_courses : list string :=
  ["東京"; "中山"; "阪神"; "京都"; "中京"; "新潟"; "福島"; "小倉"; "札幌";
   "函館"]%string.

Definition nar_courses : list string :=
  ["大井"; "船橋"; "川崎"; "浦和"; "門別"; "園田"; "姫路"; "高知"; "佐賀";
   "名古屋"; "笠松"; "金沢"; "盛岡"; "水沢"]%string.

Section Extractors.

(** [float(s)]: the value, or [None] where Python raises. *)
Variable py_float : string -> option R.

(** *** parse_horse_history *)

Definition link_or_text (c : Cell) : string :=
  match c_link c with
  | Some t => t
  | None => c_text c
  end.

(** One iteration of the row loop: [None] is [continue], taken by the
    length test, by the finish test and by the [except] of the body. *)
Definition parse_history_row (cells : list Cell) : option RaceResult :=
  if (len cells <? 15)%Z then None
  else
    c0 <-? nth_error cells 0 ;;
    let date := link_or_text c0 in
    c1 <-? nth_error cells 1 ;;
    let course := link_or_text c1 in
    c4 <-? nth_error cells 4 ;;
    let race_name := link_or_text c4 in
    c6 <-? nth_error cells 6 ;;
    let total_horses :=
      match py_int (c_text c6) with Some n => n | None => 0%Z end in
    c11 <-? nth_error cells 11 ;;
    let finish_text := c_text c11 in
    if isdigit finish_text
    then
      finish <-? py_int finish_text ;;
      c14 <-? nth_error cells 14 ;;
      let (track_type, distance) :=
        match re_search match_surface_distance (chars (c_text c14)) with
        | Some (g, d) =>
            ((if (g =? dirt_char)%N then "ダート" else "芝")%string, d)
        | None => (EmptyString, 0%Z)
        end in
      c9 <-? nth_error cells 9 ;;
      let odds :=
        match py_float (c_text c9) with Some x => x | None => 0 end in
      c10 <-? nth_error cells 10 ;;
      let popularity :=
        match py_int (c_text c10) with Some n => n | None => 0%Z end in
      Some (mkRaceResult date course race_name distance track_type finish
                         total_horses odds popularity)
    else None.

Fixpoint filter_map {A B : Type} (f : A -> option B) (l : list A) : list B :=
  match l with
  | [] => []
  | a :: l' =>
      match f a with
      | Some b => b :: filter_map f l'
      | None => filter_map f l'
      end
  end.

Definition parse_horse_history (page : HistoryPage) : list RaceResult :=
  let table :=
    match hp_db_h_race_results page with
    | Some t => Some t
    | None => hp_nk_tb_common page
    end in
  match table with
  | None => []
  | Some table =>
      let rows :=
        match t_tbody table with
        | Some rows => rows
        | None => t_rows table
        end in
      firstn 20 (filter_map parse_history_row rows)
  end.

(** *** parse_race_page *)

(** [int(text)] behind an [isdigit] test and outside any [try]. *)
Definition int_if_digit (text : option string) : result Z :=
  match text with
  | Some text =>
      if isdigit text
      then match py_int text with
           | Some n => Ok n
           | None => Raise ValueError
           end
      else Ok 0%Z
  | None => Ok 0%Z
  end.

(** The gate: the [int] of the span is under a [try]; the [int] of the
    [elif] of [scrape_and_predict.py] is not. *)
Definition parse_gate (f : source_file) (row : EntryRow) : result Z :=
  match er_waku row with
  | Some waku_cell =>
      match wk_span waku_cell with
      | Some span =>
          Ok (match py_int span with Some n => n | None => 0%Z end)
      | None =>
          match f with
          | app_py => Ok 0%Z
          | scrape_and_predict_py => int_if_digit (Some (wk_text waku_cell))
          end
      end
  | None => Ok 0%Z
  end.

(** The age: the [int] of the first run of digits of the [td.Barei] cell,
    outside any [try]. *)
Definition parse_age (row : EntryRow) : result Z :=
  match er_barei row with
  | Some text =>
      match re_search (fun cs => match match_decimals cs with
                                 | [] => None
                                 | ds => Some ds
                                 end) (chars text) with
      | Some ds =>
          if (len ds <=? int_max_str_digits)%Z then Ok (int_of_decimals ds)
          else Raise ValueError
      | None => Ok 0%Z
      end
  | None => Ok 0%Z
  end.

Definition parse_name (row : EntryRow) : string :=
  match er_name_link row with
  | Some a =>
      match nl_title a with
      | Some t => if nonempty t then t else nl_text a
      | None => nl_text a
      end
  | None => EmptyString
  end.

Definition first_link_text (cell : option (option string)) : string :=
  match cell with
  | Some (Some t) => t
  | _ => EmptyString
  end.

Definition parse_odds (row : EntryRow) : R :=
  match er_odds row with
  | Some odds_text =>
      if (odds_text =? "---.-")%string then 0
      else match py_float odds_text with Some x => x | None => 0 end
  | None => 0
  end.

(** One iteration of the row loop, up to the validity test.  The age is
    read, and its [int] can raise, though [Horse] here leaves the field
    out. *)
Definition parse_entry_row (f : source_file) (row : EntryRow)
  : result Horse :=
  gate <- parse_gate f row ;;
  number <- int_if_digit (er_umaban row) ;;
  let name := parse_name row in
  age <- parse_age row ;;
  let weight_carry :=
    match find_map match_weight (er_cells row) with
    | Some w => w
    | None => 0
    end in
  let jockey := first_link_text (er_jockey row) in
  let trainer := first_link_text (er_trainer row) in
  let odds := parse_odds row in
  popularity <- (match f with
                 | app_py => Ok 0%Z
                 | scrape_and_predict_py => int_if_digit (er_ninki row)
                 end) ;;
  Ok (mkHorse number gate name jockey weight_carry trainer odds popularity
              []).

(** [if horse.name and horse.number > 0]. *)
Definition valid_entry (horse : Horse) : bool :=
  (nonempty (h_name horse) && (0 <? h_number horse)%Z)%bool.

Definition parse_course (f : source_file) (text : string) : string :=
  let first_in names := find (fun name => str_in name text) names in
  match f with
  | app_py =>
      match first_in (jra_courses ++ nar_courses) with
      | Some name => name
      | None => EmptyString
      end
  | scrape_and_predict_py =>
      match first_in jra_courses with
      | Some name => name
      | None =>
          match first_in nar_courses with
          | Some name => name
          | None => EmptyString
          end
      end
  end.

Definition parse_race_info (f : source_file) (page : RacePage)
  (race_id : string) : RaceInfo :=
  let race_name :=
    match pg_race_name page with Some t => t | None => EmptyString end in
  let (distance, track_type) :=
    match pg_race_data01 page with
    | Some text =>
        (match re_search match_meters (chars text) with
         | Some d => d
         | None => 0%Z
         end,
         if str_in dirt_glyph text then "ダート"%string
         else if str_in turf_glyph text then "芝"%string
         else EmptyString)
    | None => (0%Z, EmptyString)
    end in
  let course :=
    match pg_race_data02 page with
    | Some text => parse_course f text
    | None => EmptyString
    end in
  mkRaceInfo race_id race_name course distance track_type.

Definition parse_race_page (f : source_file) (page : RacePage)
  (race_id : string) : result (RaceInfo * list Horse) :=
  let race_info := parse_race_info f page race_id in
  parsed <- mapM (parse_entry_row f) (pg_horse_rows page) ;;
  Ok (race_info, filter valid_entry parsed).

End Extractors.

(** ** get_base_url *)

Definition jra_url : string := "https://race.netkeiba.com".
Definition nar_url : string := "https://nar.netkeiba.com".

(** [s[i]] on a str, for a non-negative index: the character at [i]. *)
Definition str_get (s : string) (i : nat) : result N :=
  match nth_error (chars s) i with
  | Some c => Ok c
  | None => Raise IndexError
  end.

(** [app.py] tests the length before it reads the fifth character,
    [scrape_and_predict.py] reads it at once. *)
Definition get_base_url (f : source_file) (race_id : string) : result string :=
  match f with
  | app_py =>
      if (4 <? len (chars race_id))%Z
      then
        c <- str_get race_id 4 ;;
        Ok (if (c =? 0x34)%N then nar_url else jra_url)
      else Ok jra_url
  | scrape_and_predict_py =>
      c <- str_get race_id 4 ;;
      Ok (if (c =? 0x34)%N then nar_url else jra_url)
  end.

(** ** display_results (scrape_and_predict.py) *)

(** One [print] of display_results: which line it is and the values it
    interpolates.  The text of the line, the padding and the rounding of the
    floats are left to the format strings of the source. *)
Inductive line : Type :=
| Separator
| Rule
| Title (race_name : string)
| Venue (course : string) (distance : Z) (track_type : string)
| Going (track_condition : string) (entrants : Z)
| RankingHeader
| ColumnHeader
| Row (mark : string) (rank number : Z) (name : string)
      (norm_score win_percent : R) (odds expected_value : option R)
      (analysis : string)
| TipsHeader
| Honmei (number : Z) (name : string) (win_percent : R)
| Taikou (number : Z) (name : string) (win_percent : R)
| Tanana (number : Z) (name : string) (win_percent : R)
| Renka (number4 number5 : Z)
| BetsHeader
| Tansho (number : Z)
| Umaren (number1 number2 : Z)
| Sanrenpuku (number1 number2 number3 : Z)
| Sanrentan (number1 number2 number3 : Z)
| ValueHeader
| ValueRow (number : Z) (name : string) (expected_value odds : R)
| Disclaimer.

(** What a run has printed, and the exception that ended it, if one did. *)
Definition output : Type := (list line * option exn)%type.

Definition finished : output := ([], None).

Definition say (l : line) (rest : output) : output := (l :: fst rest, snd rest).

Definition need {A : Type} (r : result A) (k : A -> output) : output :=
  match r with
  | Ok a => k a
  | Raise e => ([], Some e)
  end.

(** [l[i]] on a list: a negative index counts from the end. *)
Definition py_index {A : Type} (l : list A) (i : Z) : result A :=
  if (0 <=? i)%Z then list_get l (Z.to_nat i)
  else if (- len l <=? i)%Z then list_get l (Z.to_nat (len l + i))
  else Raise IndexError.

Definition Rgeb (x y : R) : bool := if Rle_dec y x then true else false.

Definition marks : list string :=
  ["◎"; "○"; "▲"; "△"; "△"; " "; " "; " "; " "; " "; " "; " "; " "; " ";
   " "]%string.

Definition mark_of (rank : Z) : result string :=
  if (rank <=? len marks)%Z then py_index marks (rank - 1) else Ok " "%string.

Definition analysis_of (d : Details) : string :=
  let analysis :=
    (if Rgeb (d_recent d) 70 then ["近走◎"%string]
     else if Rgtb 40 (d_recent d) then ["近走△"%string]
     else [])
    ++ (if Rgeb (d_distance d) 70 then ["距離◎"%string] else [])
    ++ (if Rgeb (d_draw d) 60 then ["枠○"%string] else []) in
  match analysis with
  | [] => "-"%string
  | _ => String.concat "/" (firstn 3 analysis)
  end.

Definition ranking_row (p : Prediction) : result line :=
  let h := p_horse p in
  let rank := p_rank p in
  mark <- mark_of rank ;;
  let odds_str := if truthy (h_odds h) then Some (h_odds h) else None in
  let ev_str :=
    if Rgtb (p_expected_value p) 0 then Some (p_expected_value p) else None in
  Ok (Row mark rank (h_number h) (h_name h) (p_norm_score p)
          (p_win_prob p * 100) odds_str ev_str (analysis_of (p_details p))).

Fixpoint ranking_rows (predictions : list Prediction) (rest : output)
  : output :=
  match predictions with
  | [] => rest
  | p :: predictions' =>
      need (ranking_row p) (fun l => say l (ranking_rows predictions' rest))
  end.

(** [sorted(l, key=key, reverse=True)]: stable, as [insert_desc] is. *)
Fixpoint insert_by_desc {A : Type} (key : A -> R) (a : A) (l : list A)
  : list A :=
  match l with
  | [] => [a]
  | b :: l' =>
      if Rlt_dec (key a) (key b)
      then b :: insert_by_desc key a l'
      else a :: b :: l'
  end.

Definition sorted_desc {A : Type} (key : A -> R) (l : list A) : list A :=
  fold_right (insert_by_desc key) [] l.

Definition value_row (p : Prediction) : line :=
  ValueRow (h_number (p_horse p)) (h_name (p_horse p)) (p_expected_value p)
           (h_odds (p_horse p)).

Notation "l >>> rest" := (say l rest) (at level 61, right associativity).

Notation "x <~ r ;;; k" := (need r (fun x => k))
  (at level 61, r at next level, right associativity).

(** The block of the entries with a positive expected value, and the closing
    lines. *)
Definition value_block (predictions : list Prediction) : output :=
  let ev_sorted :=
    sorted_desc p_expected_value
      (filter (fun p => Rgtb (p_expected_value p) 0) predictions) in
  let closing := Separator >>> Disclaimer >>> Separator >>> finished in
  match ev_sorted with
  | [] => closing
  | _ =>
      ValueHeader >>>
      fold_right (fun p rest => value_row p >>> rest) closing
                 (firstn 3 ev_sorted)
  end.

(** The block of the recommended bets: it reads the first five entries. *)
Definition tips_block (predictions : list Prediction) (rest : output)
  : output :=
  let top := firstn 5 predictions in
  t0 <~ list_get top 0 ;;;
  Honmei (h_number (p_horse t0)) (h_name (p_horse t0)) (p_win_prob t0 * 100)
  >>>
  t1 <~ list_get top 1 ;;;
  Taikou (h_number (p_horse t1)) (h_name (p_horse t1)) (p_win_prob t1 * 100)
  >>>
  t2 <~ list_get top 2 ;;;
  Tanana (h_number (p_horse t2)) (h_name (p_horse t2)) (p_win_prob t2 * 100)
  >>>
  t3 <~ list_get top 3 ;;;
  t4 <~ list_get top 4 ;;;
  Renka (h_number (p_horse t3)) (h_number (p_horse t4)) >>>
  BetsHeader >>>
  Tansho (h_number (p_horse t0)) >>>
  Umaren (h_number (p_horse t0)) (h_number (p_horse t1)) >>>
  Sanrenpuku (h_number (p_horse t0)) (h_number (p_horse t1))
             (h_number (p_horse t2)) >>>
  Sanrentan (h_number (p_horse t0)) (h_number (p_horse t1))
            (h_number (p_horse t2)) >>>
  rest.

(** The [track_condition] of the race, a field [RaceInfo] leaves out here,
    is passed beside it. *)
Definition display_results (predictions : list Prediction)
  (race_info : RaceInfo) (track_condition : string) : output :=
  Separator >>>
  Title (ri_race_name race_info) >>>
  Separator >>>
  Venue (ri_course race_info) (ri_distance race_info)
        (ri_track_type race_info) >>>
  Going (if nonempty track_condition then track_condition else "不明"%string)
        (len predictions) >>>
  Rule >>>
  RankingHeader >>>
  ColumnHeader >>>
  Rule >>>
  ranking_rows predictions (
    Rule >>>
    Separator >>>
    TipsHeader >>>
    Separator >>>
    tips_block predictions (value_block predictions)).

(** * Vocabulary of the properties, and sample inputs *)

Definition in_0_100 (x : R) : Prop := 0 <= x <= 100.

Definition composite (f : source_file) (d : Details) : R :=
  0 + d_recent d * w_recent f + d_basic d * w_basic f
  + d_distance d * w_distance f + d_course d * w_course f
  + d_draw d * w_draw f + d_odds d * w_odds f
  + d_stability d * w_stability f + d_weight d * w_weight f.

Definition details_bounded (d : Details) : Prop :=
  in_0_100 (d_recent d) /\ in_0_100 (d_basic d) /\ in_0_100 (d_distance d)
  /\ in_0_100 (d_course d) /\ in_0_100 (d_draw d) /\ in_0_100 (d_odds d)
  /\ in_0_100 (d_stability d) /\ in_0_100 (d_weight d).

Definition blank_race : RaceInfo :=
  mkRaceInfo EmptyString EmptyString EmptyString 0 EmptyString.

(** A valid entrant with program number 7, no history, no odds, no weight. *)
Definition lone_seven : Horse :=
  mkHorse 7 0 "A" EmptyString 0 EmptyString 0 0 [].

Definition run_with_finish (n : Z) : RaceResult :=
  mkRaceResult EmptyString EmptyString EmptyString 0 EmptyString n 0 0 0.

(** An entrant with program number 1 and the five finishes 1, 2, 1, 3, 2. *)
Definition five_runs : Horse :=
  mkHorse 1 1 "B" EmptyString 0 EmptyString 0 0
          (map run_with_finish [1; 2; 1; 3; 2]%Z).

(** An entrant with program number 1 and odds 1.0. *)
Definition odds_on : Horse :=
  mkHorse 1 1 "C" EmptyString 0 EmptyString 1 0 [].

(** [p] may stand before [q] in a list sorted by score, highest first. *)
Definition desc (p q : Scored) : Prop := sc_score q <= sc_score p.

Definition has_score (x : R) (p : Scored) : bool := Reqb (sc_score p) x.

(** The normalized score of a composite score, given the field's extremes. *)
Definition norm_of (min_s max_s s : R) : R :=
  if Rgtb max_s min_s then (s - min_s) / (max_s - min_s) else 0.5.

(** The softmax weight of an entry. *)
Definition exp_of (min_s max_s : R) (p : Scored) : R :=
  exp (norm_of min_s max_s (sc_score p) / temperature).

Definition expected_value_of (odds win_prob : R) : R :=
  if (truthy odds && Rgtb odds 0)%bool then win_prob * odds else 0.

(** The prediction at position [i] of the sorted list. *)
Definition ranked_entry (min_s max_s total_exp : R) (ip : nat * Scored)
  : Prediction :=
  let (i, p) := ip in
  let win_prob := exp_of min_s max_s p / total_exp in
  mkPrediction (sc_horse p) (sc_score p) (sc_details p)
               (norm_of min_s max_s (sc_score p)) win_prob (Z.of_nat i + 1)
               (expected_value_of (h_odds (sc_horse p)) win_prob).

(** The composite score calculate_score gives a horse in a field (it always
    gives one, see [calculate_score_ok]). *)
Definition score_of (f : source_file) (race_info : RaceInfo)
  (horses : list Horse) (horse : Horse) : R :=
  match calculate_score f horse race_info horses with
  | Ok s => s_total s
  | Raise _ => 0
  end.

(** The list of scored entries, in input order. *)
Definition scored_field (f : source_file) (race_info : RaceInfo)
  (horses : list Horse) (scored : list Scored) : Prop :=
  Forall2 (fun h sc => sc_horse sc = h
                       /\ sc_score sc = score_of f race_info horses h)
          horses scored.

(** What predict returns on a non-empty field: the scored entries sorted,
    each completed by [ranked_entry] with the extremes of the field and the
    sum of the softmax weights. *)
Inductive predict_result (f : source_file) (race_info : RaceInfo)
  (horses : list Horse) : list Prediction -> Prop :=
| PredictResult (scored : list Scored) (min_s max_s : R) :
    scored_field f race_info horses scored ->
    In min_s (map sc_score scored) ->
    In max_s (map sc_score scored) ->
    Forall (fun p => min_s <= sc_score p <= max_s) scored ->
    predict_result f race_info horses
      (map (ranked_entry min_s max_s
              (py_sum (map (exp_of min_s max_s) (sort_desc scored))))
           (enumerate (sort_desc scored))).

(** [p] may stand before [q] in the forecast. *)
Definition forecast_desc (p q : Prediction) : Prop := p_score q <= p_score p.

(** The rows parse_horse_history iterates over. *)
Definition history_rows (page : HistoryPage) : list (list Cell) :=
  match hp_db_h_race_results page with
  | Some t => match t_tbody t with Some rows => rows | None => t_rows t end
  | None =>
      match hp_nk_tb_common page with
      | Some t => match t_tbody t with Some rows => rows | None => t_rows t end
      | None => []
      end
  end.

(** A float parser that accepts nothing: every odds cell keeps its default. *)
Definition no_float (s : string) : option R := None.

Definition text_cell (t : string) : Cell := mkCell None t.

(** A history row of fifteen cells with the given finish cell. *)
Definition history_row (finish_text : string) : list Cell :=
  map text_cell
      ["2024/01/06"; "1中山1"; "晴"; "11"; "初富士S"; "-"; "16"; "3"; "5";
       "4.5"; "2"; finish_text; "J"; "57"; "芝2000"]%string.

Definition history_page (finish_texts : list string) : HistoryPage :=
  mkHistoryPage
    (Some (mkTable (Some (map history_row finish_texts)) [])) None.

(** The run the row with finish cell "1" yields under [no_float]. *)
Definition first_place_run : RaceResult :=
  mkRaceResult "2024/01/06"%string "1中山1"%string "初富士S"%string 2000
               "芝"%string 1 16 0 2.

(** A valid row: program number 3, a named horse. *)
Definition valid_row : EntryRow :=
  mkEntryRow (Some (mkWakuCell (Some "2"%string) "2")) (Some "3"%string)
             (Some (mkNameLink (Some "Deep"%string) "Deep"))
             (Some "牡4"%string) ["2"; "3"; "57.0"]%string
             (Some (Some "J"%string)) None (Some "4.5"%string)
             (Some "2"%string).

(** A decorative row: program number 0. *)
Definition zero_row : EntryRow :=
  mkEntryRow None (Some "0"%string) (Some (mkNameLink None "Ghost"%string))
             None [] None None None None.

(** A decorative row: no name. *)
Definition nameless_row : EntryRow :=
  mkEntryRow None (Some "5"%string) None None [] None None None None.

Definition entry_page : RacePage :=
  mkRacePage (Some "R"%string) (Some "芝1600m"%string) (Some "東京"%string)
             [zero_row; valid_row; nameless_row].

(** An ASCII digit, the texts made of ASCII digits and the number such a
    text spells. *)
Definition is_ascii_digit (c : ascii) : bool :=
  ((48 <=? nat_of_ascii c)%nat && (nat_of_ascii c <=? 57)%nat)%bool.

Fixpoint all_digits (s : string) : bool :=
  match s with
  | EmptyString => true
  | String c s' => (is_ascii_digit c && all_digits s')%bool
  end.

Definition digit_value (c : ascii) : Z := (Z.of_nat (nat_of_ascii c) - 48)%Z.

Fixpoint int_of_digits_from (acc : Z) (s : string) : Z :=
  match s with
  | EmptyString => acc
  | String c s' => int_of_digits_from (acc * 10 + digit_value c)%Z s'
  end.

Definition int_of_digits (s : string) : Z := int_of_digits_from 0 s.

(** A named horse whose program number cell reads a superscript two. *)
Definition superscript_row : EntryRow :=
  mkEntryRow None (Some "²"%string) (Some (mkNameLink None "Deep"%string))
             None [] None None None None.

Definition superscript_page : RacePage :=
  mkRacePage None None None [superscript_row].

(** An entrant with nothing known about it. *)
Definition blank_horse : Horse :=
  mkHorse 0 0 EmptyString EmptyString 0 EmptyString 0 0 [].

(** The recent-form sub-score as a function of the finishes of the runs
    the loop visits. *)
Definition recent_of_finishes (finishes : list Z) : R :=
  match finishes with
  | [] => 50
  | _ =>
      fold_left
        (fun weighted_sum (ix : nat * Z) =>
           let (i, x) := ix in
           if (i <? length recent_weights)%nat
           then weighted_sum
                + IZR (Z.max 0 (100 - (x - 1) * 12)) * nth i recent_weights 0
           else weighted_sum)
        (enumerate finishes) 0
  end.

(** An entrant known only by its program number. *)
Definition numbered (n : Z) : Horse :=
  mkHorse n 0 "N" EmptyString 0 EmptyString 0 0 [].

(** An entrant known only by its odds. *)
Definition priced (odds : R) : Horse :=
  mkHorse 1 0 "P" EmptyString 0 EmptyString odds 0 [].

(** An entrant known only by the weight it carries. *)
Definition loaded (weight_carry : R) : Horse :=
  mkHorse 1 0 "L" EmptyString weight_carry EmptyString 0 0 [].

(** An entrant known only by the finishes of its runs. *)
Definition with_finishes (finishes : list Z) : Horse :=
  mkHorse 1 0 "F" EmptyString 0 EmptyString 0 0 (map run_with_finish finishes).

(** [p] may stand before [q] in a list sorted by win probability, highest
    first. *)
Definition prob_desc (p q : Prediction) : Prop := p_win_prob q <= p_win_prob p.

(** A history row of fifteen cells: a third place over 3000 m of jumps. *)
Definition jump_row : list Cell :=
  map text_cell
      ["2023/12/23"; "5中山7"; "曇"; "10"; "中山大障害"; "-"; "12"; "4"; "6";
       "8.9"; "4"; "3"; "J"; "63"; "障3000"]%string.

Definition is_row (l : line) : bool :=
  match l with
  | Row _ _ _ _ _ _ _ _ _ => true
  | _ => false
  end.

(** Five entrants known only by their program numbers. *)
Definition field_of_five : list Horse :=
  [numbered 1; numbered 2; numbered 3; numbered 4; numbered 5].

(** A prediction known only by its rank. *)
Definition ranked_only (rank : Z) : Prediction :=
  mkPrediction blank_horse 50 (mkDetails 50 50 50 50 50 50 50 50) 0.5 0.5
               rank 0.

Definition is_value_row (l : line) : bool :=
  match l with
  | ValueRow _ _ _ _ => true
  | _ => false
  end.

(** [p] may stand before [q] in a list sorted by expected value, highest
    first. *)
Definition value_desc (p q : Prediction) : Prop :=
  p_expected_value q <= p_expected_value p.

(** The entries display_results lists for their expected value. *)
Definition value_picks (predictions : list Prediction) : list Prediction :=
  firstn 3
    (sorted_desc p_expected_value
       (filter (fun p => Rgtb (p_expected_value p) 0) predictions)).

(** A prediction known only by its rank and its expected value. *)
Definition valued (rank : Z) (expected_value : R) : Prediction :=
  mkPrediction blank_horse 50 (mkDetails 50 50 50 50 50 50 50 50) 0.5 0.5
               rank expected_value.

(** Six predictions, two of them without a positive expected value. *)
Definition six_valued : list Prediction :=
  [valued 1 2; valued 2 0; valued 3 3; valued 4 1; valued 5 5; valued 6 0].

(** * Properties *)

(** ** Numbers and sequences *)

Lemma fdiv_ok (a b : R) : b <> 0 -> fdiv a b = Ok (a / b).
Proof.
  intros Hb. unfold fdiv. destruct (Req_dec_T b 0); [contradiction | reflexivity].
Qed.

Lemma truediv_ok (a b : Z) : b <> 0%Z -> truediv a b = Ok (IZR a / IZR b).
Proof.
  intros Hb. unfold truediv. apply fdiv_ok.
  intros H. apply Hb. now apply eq_IZR.
Qed.

Lemma fold_left_Rplus (l : list R) (a : R) :
  fold_left Rplus l a = a + fold_right Rplus 0 l.
Proof.
  revert a. induction l as [| x l IH]; intros a; simpl.
  - lra.
  - rewrite IH. lra.
Qed.

Lemma py_sum_cons (x : R) (l : list R) : py_sum (x :: l) = x + py_sum l.
Proof.
  unfold py_sum. simpl. rewrite (fold_left_Rplus l (0 + x)), (fold_left_Rplus l 0).
  lra.
Qed.

Lemma py_sum_nil : py_sum [] = 0.
Proof. reflexivity. Qed.

Lemma py_sum_nonneg (l : list R) : Forall (fun x => 0 <= x) l -> 0 <= py_sum l.
Proof.
  induction 1 as [| x l Hx _ IH].
  - rewrite py_sum_nil. lra.
  - rewrite py_sum_cons. lra.
Qed.

Lemma py_sum_pos (l : list R) :
  l <> [] -> Forall (fun x => 0 < x) l -> 0 < py_sum l.
Proof.
  intros Hne Hall. destruct Hall as [| x l Hx Hl]; [now elim Hne |].
  rewrite py_sum_cons.
  assert (0 <= py_sum l).
  { apply py_sum_nonneg. eapply Forall_impl; [| exact Hl]. simpl. intros; lra. }
  lra.
Qed.

Lemma len_cons_pos {A : Type} (a : A) (l : list A) : (0 < len (a :: l))%Z.
Proof. unfold len. simpl. lia. Qed.

Lemma count_if_bounds {A : Type} (p : A -> bool) (l : list A) :
  (0 <= count_if p l <= len l)%Z.
Proof.
  unfold count_if, len. pose proof (filter_length_le p l). lia.
Qed.

Lemma ratio_bounds (a b : Z) :
  (0 <= a <= b)%Z -> (0 < b)%Z -> 0 <= IZR a / IZR b <= 1.
Proof.
  intros [Ha Hab] Hb.
  assert (0 < IZR b) by (apply IZR_lt; exact Hb).
  assert (0 <= IZR a) by (apply IZR_le; exact Ha).
  assert (IZR a <= IZR b) by (apply IZR_le; exact Hab).
  split.
  - apply Rmult_le_pos; [assumption |]. left. now apply Rinv_0_lt_compat.
  - apply Rmult_le_reg_r with (IZR b); [assumption |].
    unfold Rdiv. rewrite Rmult_assoc, Rinv_l by lra. lra.
Qed.

(** ** The sub-scores of calculate_score *)

(** A sub-score left at its default is 50. *)
Ltac neutral_default :=
  exists 50; split; [reflexivity | unfold in_0_100; lra].

Lemma place_rate_100_bounds (same : list RaceResult) :
  exists x, place_rate_100 same = Ok x /\ in_0_100 x.
Proof.
  destruct same as [| r same].
  - neutral_default.
  - unfold place_rate_100.
    pose proof (len_cons_pos r same) as Hlen.
    rewrite truediv_ok by lia. simpl.
    eexists. split; [reflexivity |].
    pose proof (ratio_bounds _ _ (count_if_bounds is_place (r :: same)) Hlen).
    unfold in_0_100. lra.
Qed.

Lemma basic_score_bounds (results : list RaceResult) :
  exists x, basic_score results = Ok x /\ in_0_100 x.
Proof.
  destruct results as [| r results].
  - neutral_default.
  - unfold basic_score.
    pose proof (len_cons_pos r results) as Hlen.
    rewrite !truediv_ok by lia. simpl.
    eexists. split; [reflexivity |].
    pose proof (ratio_bounds _ _ (count_if_bounds is_place (r :: results)) Hlen).
    pose proof (ratio_bounds _ _
      (count_if_bounds (fun r => (r_finish r =? 1)%Z) (r :: results)) Hlen).
    unfold in_0_100. lra.
Qed.

Lemma distance_score_bounds (results : list RaceResult) (race_info : RaceInfo) :
  exists x, distance_score results race_info = Ok x /\ in_0_100 x.
Proof.
  unfold distance_score. destruct results as [| r results].
  - neutral_default.
  - destruct (ri_distance race_info =? 0)%Z.
    + neutral_default.
    + apply place_rate_100_bounds.
Qed.

Lemma course_score_bounds (results : list RaceResult) (race_info : RaceInfo) :
  exists x, course_score results race_info = Ok x /\ in_0_100 x.
Proof.
  unfold course_score. destruct results as [| r results].
  - neutral_default.
  - destruct (nonempty (ri_course race_info)).
    + apply place_rate_100_bounds.
    + neutral_default.
Qed.

Lemma Rgtb_true (x y : R) : Rgtb x y = true <-> y < x.
Proof.
  unfold Rgtb. destruct (Rlt_dec y x); split; intros; try easy.
Qed.

Lemma Rgtb_false (x y : R) : Rgtb x y = false <-> x <= y.
Proof.
  unfold Rgtb. destruct (Rlt_dec y x); split; intros; try easy; lra.
Qed.

Lemma truthy_true (x : R) : truthy x = true <-> x <> 0.
Proof.
  unfold truthy, Reqb. destruct (Req_dec_T x 0); simpl; split; intros; easy.
Qed.

Lemma draw_score_total (horse : Horse) (race_info : RaceInfo)
  (all_horses : list Horse) :
  exists x, draw_score horse race_info all_horses = Ok x.
Proof.
  unfold draw_score.
  destruct (negb (h_number horse =? 0)%Z && (0 <? len all_horses)%Z)%bool.
  - rewrite truediv_ok by lia. simpl. eexists. reflexivity.
  - eexists. reflexivity.
Qed.

(** Where it is computed, the draw sub-score is this expression. *)
Lemma draw_score_value (horse : Horse) (race_info : RaceInfo)
  (all_horses : list Horse) :
  h_number horse <> 0%Z -> (0 < len all_horses)%Z ->
  draw_score horse race_info all_horses =
  Ok ((1 - IZR (h_number horse - 1) / IZR (Z.max (len all_horses - 1) 1)
           * (if (ri_distance race_info <=? 1400)%Z then 0.2 else 0.1)) * 100).
Proof.
  intros Hn Hl. unfold draw_score.
  apply Z.eqb_neq in Hn. apply Z.ltb_lt in Hl. rewrite Hn, Hl. simpl.
  rewrite truediv_ok by lia. reflexivity.
Qed.

Lemma draw_score_bounds (horse : Horse) (race_info : RaceInfo)
  (all_horses : list Horse) :
  (0 <= h_number horse <= len all_horses)%Z ->
  exists x, draw_score horse race_info all_horses = Ok x /\ in_0_100 x.
Proof.
  intros Hnum.
  destruct (Z.eq_dec (h_number horse) 0) as [H0 | H0].
  - unfold draw_score. rewrite H0. simpl.
    neutral_default.
  - assert (Hl : (0 < len all_horses)%Z) by lia.
    rewrite draw_score_value by assumption.
    eexists. split; [reflexivity |].
    assert (Hpos : 0 <= IZR (h_number horse - 1)
                        / IZR (Z.max (len all_horses - 1) 1) <= 1).
    { apply ratio_bounds; lia. }
    unfold in_0_100.
    destruct (ri_distance race_info <=? 1400)%Z; nra.
Qed.

Lemma odds_score_total (horse : Horse) : exists x, odds_score horse = Ok x.
Proof.
  unfold odds_score.
  destruct (truthy (h_odds horse) && Rgtb (h_odds horse) 0)%bool eqn:E.
  - apply andb_true_iff in E. destruct E as [_ E]. apply Rgtb_true in E.
    unfold math_log. destruct (Rlt_dec 0 (h_odds horse)); [| contradiction].
    simpl. eexists. reflexivity.
  - eexists. reflexivity.
Qed.

Lemma odds_score_posted (horse : Horse) :
  0 < h_odds horse ->
  odds_score horse = Ok (Rmax 0 (100 - ln (h_odds horse) * 18)).
Proof.
  intros Hpos. unfold odds_score.
  assert (Ht : truthy (h_odds horse) = true) by (apply truthy_true; lra).
  assert (Hg : Rgtb (h_odds horse) 0 = true) by (now apply Rgtb_true).
  rewrite Ht, Hg. simpl. unfold math_log.
  destruct (Rlt_dec 0 (h_odds horse)); [reflexivity | contradiction].
Qed.

Lemma odds_score_not_posted (horse : Horse) :
  h_odds horse <= 0 -> odds_score horse = Ok 50.
Proof.
  intros Hle. unfold odds_score.
  assert (Hg : Rgtb (h_odds horse) 0 = false) by (now apply Rgtb_false).
  rewrite Hg, andb_false_r. reflexivity.
Qed.

Lemma ln_nonneg (x : R) : 1 <= x -> 0 <= ln x.
Proof.
  intros [Hlt | Heq].
  - left. rewrite <- ln_1. apply ln_increasing; lra.
  - subst x. rewrite ln_1. lra.
Qed.

Lemma odds_score_bounds (horse : Horse) :
  h_odds horse <= 0 \/ 1 <= h_odds horse ->
  exists x, odds_score horse = Ok x /\ in_0_100 x.
Proof.
  intros [Hle | Hge].
  - rewrite odds_score_not_posted by assumption.
    neutral_default.
  - rewrite odds_score_posted by lra.
    eexists. split; [reflexivity |].
    pose proof (ln_nonneg _ Hge). unfold in_0_100.
    split; [apply Rmax_l |]. apply Rmax_lub; lra.
Qed.

Lemma stdev_total (data : list Z) :
  (2 <= len data)%Z -> exists x, stdev data = Ok x /\ 0 <= x.
Proof.
  intros Hlen. unfold stdev.
  destruct (len data <? 2)%Z eqn:E; [apply Z.ltb_lt in E; lia |].
  rewrite fdiv_ok by (apply not_0_IZR; lia). simpl.
  rewrite fdiv_ok by (apply not_0_IZR; lia). simpl.
  eexists. split; [reflexivity | apply sqrt_pos].
Qed.

Lemma stability_score_bounds (results : list RaceResult) :
  exists x, stability_score results = Ok x /\ in_0_100 x.
Proof.
  unfold stability_score.
  destruct (3 <=? len results)%Z eqn:E3.
  - assert (Hstd : exists std,
      (if (1 <? len (map r_finish (firstn 10 results)))%Z
       then stdev (map r_finish (firstn 10 results)) else Ok 0) = Ok std
      /\ 0 <= std).
    { destruct (1 <? len (map r_finish (firstn 10 results)))%Z eqn:E1.
      - apply stdev_total. apply Z.ltb_lt in E1. lia.
      - exists 0. split; [reflexivity | lra]. }
    destruct Hstd as [std [Hstd Hpos]]. rewrite Hstd. simpl.
    eexists. split; [reflexivity |]. unfold in_0_100.
    split; [apply Rmax_l |]. apply Rmax_lub; lra.
  - neutral_default.
Qed.

Lemma weight_score_bounds (horse : Horse) (all_horses : list Horse) :
  exists x, weight_score horse all_horses = Ok x /\ in_0_100 x.
Proof.
  unfold weight_score.
  destruct (map h_weight_carry
              (filter (fun h => Rgtb (h_weight_carry h) 0) all_horses))
    as [| w weights] eqn:Ew.
  - neutral_default.
  - destruct (truthy (h_weight_carry horse)).
    + rewrite fdiv_ok
        by (apply not_0_IZR; pose proof (len_cons_pos w weights); lia).
      simpl. eexists. split; [reflexivity |]. unfold in_0_100.
      split; [apply Rmax_l |]. apply Rmax_lub; [lra | apply Rmin_l].
    + neutral_default.
Qed.

Lemma finish_score_bounds (r : RaceResult) :
  (1 <= r_finish r)%Z -> 0 <= IZR (finish_score r) <= 100.
Proof.
  intros H. unfold finish_score. split.
  - apply IZR_le. lia.
  - apply IZR_le. lia.
Qed.

Lemma recent_score_bounds (results : list RaceResult) :
  Forall (fun r => (1 <= r_finish r)%Z) results ->
  in_0_100 (recent_score results).
Proof.
  intros Hall. unfold in_0_100.
  destruct results as [| a [| b [| c [| d [| e rest]]]]];
    unfold recent_score, enumerate, recent_weights; simpl;
    repeat match goal with
           | H : Forall _ (_ :: _) |- _ =>
               let Hx := fresh "Hx" in
               let Hr := fresh "Hr" in
               inversion H as [| ? ? Hx Hr]; subst; clear H;
               apply finish_score_bounds in Hx
           end;
    lra.
Qed.

(** ** calculate_score *)

(** In the embedding calculate_score always returns: no division is by
    zero, [math.log] is taken of a positive number and [statistics.stdev] of
    two points or more (the OverflowError of an int beyond the float range
    is outside the embedding).  Its details are the eight sub-scores and
    its total is their weighted sum; five of the sub-scores are in [0,100]
    on every input. *)
Lemma calculate_score_ok (f : source_file) (horse : Horse)
  (race_info : RaceInfo) (all_horses : list Horse) :
  exists s,
    calculate_score f horse race_info all_horses = Ok s
    /\ s_total s = composite f (s_details s)
    /\ d_recent (s_details s) = recent_score (h_results horse)
    /\ draw_score horse race_info all_horses = Ok (d_draw (s_details s))
    /\ odds_score horse = Ok (d_odds (s_details s))
    /\ in_0_100 (d_basic (s_details s))
    /\ in_0_100 (d_distance (s_details s))
    /\ in_0_100 (d_course (s_details s))
    /\ in_0_100 (d_stability (s_details s))
    /\ in_0_100 (d_weight (s_details s)).
Proof.
  destruct (basic_score_bounds (h_results horse)) as [basic [Eb Hb]].
  destruct (distance_score_bounds (h_results horse) race_info) as [dist [Ed Hd]].
  destruct (course_score_bounds (h_results horse) race_info) as [course [Ec Hc]].
  destruct (draw_score_total horse race_info all_horses) as [draw Edr].
  destruct (odds_score_total horse) as [odds Eo].
  destruct (stability_score_bounds (h_results horse)) as [stab [Es Hs]].
  destruct (weight_score_bounds horse all_horses) as [weight [Ew Hw]].
  eexists. split.
  - unfold calculate_score. rewrite Eb, Ed, Ec, Edr, Eo, Es, Ew. simpl.
    reflexivity.
  - simpl. unfold composite. simpl.
    repeat split; try reflexivity; try assumption;
      first [apply Hb | apply Hd | apply Hc | apply Hs | apply Hw].
Qed.

Lemma weighted_bounds (f : source_file) (d : Details) :
  details_bounded d -> in_0_100 (composite f d).
Proof.
  unfold details_bounded, in_0_100, composite.
  intros (H1 & H2 & H3 & H4 & H5 & H6 & H7 & H8).
  destruct f;
    unfold w_recent, w_basic, w_distance, w_course, w_draw, w_odds, w_stability,
      w_weight; lra.
Qed.

(** C3 (as amended).  For an entrant whose recorded finishes are all at least
    1, whose odds are not strictly between 0 and 1, and whose program number
    lies between 0 and the size of the field, calculate_score returns, each
    of the eight sub-scores lies in [0,100] and so does the composite. *)
Theorem calculate_score_bounded (f : source_file) (horse : Horse)
  (race_info : RaceInfo) (all_horses : list Horse) :
  Forall (fun r => (1 <= r_finish r)%Z) (h_results horse) ->
  h_odds horse <= 0 \/ 1 <= h_odds horse ->
  (0 <= h_number horse <= len all_horses)%Z ->
  exists s,
    calculate_score f horse race_info all_horses = Ok s
    /\ details_bounded (s_details s)
    /\ in_0_100 (s_total s).
Proof.
  intros Hfin Hodds Hnum.
  destruct (calculate_score_ok f horse race_info all_horses)
    as (s & Hs & Htot & Hrec & Hdraw & Ho & Hb & Hd & Hc & Hst & Hw).
  destruct (draw_score_bounds horse race_info all_horses Hnum)
    as (x & Ex & Hx).
  destruct (odds_score_bounds horse Hodds) as (y & Ey & Hy).
  assert (Hall : details_bounded (s_details s)).
  { unfold details_bounded. rewrite Hrec.
    rewrite Ex in Hdraw. injection Hdraw as <-.
    rewrite Ey in Ho. injection Ho as <-.
    repeat split; try assumption;
      first [apply recent_score_bounds; assumption
            | apply Hb | apply Hd | apply Hc | apply Hx | apply Hy
            | apply Hst | apply Hw]. }
  exists s. split; [exact Hs |]. split; [exact Hall |].
  rewrite Htot. now apply weighted_bounds.
Qed.

(** The bounds at work on [five_runs], alone in its field. *)
Lemma calculate_score_bounded_witness :
  exists s,
    calculate_score app_py five_runs blank_race [five_runs] = Ok s
    /\ details_bounded (s_details s)
    /\ in_0_100 (s_total s).
Proof.
  apply (calculate_score_bounded app_py five_runs blank_race [five_runs]).
  - simpl. repeat constructor; simpl; lia.
  - left. simpl. lra.
  - unfold len. simpl. lia.
Defined.

(** C3 (as stated) fails: a field of one valid entrant with program number 7
    gets the draw sub-score -20. *)
Lemma calculate_score_draw_out_of_range :
  exists s,
    calculate_score app_py lone_seven blank_race [lone_seven] = Ok s
    /\ d_draw (s_details s) = -20
    /\ ~ details_bounded (s_details s).
Proof.
  destruct (calculate_score_ok app_py lone_seven blank_race [lone_seven])
    as (s & Hs & _ & _ & Hdraw & _).
  rewrite draw_score_value in Hdraw
    by (unfold len; simpl; lia).
  injection Hdraw as Hdraw.
  assert (Hv : d_draw (s_details s) = -20).
  { rewrite <- Hdraw. unfold len. simpl. rewrite Z.max_r by lia. lra. }
  exists s. split; [exact Hs |]. split; [exact Hv |].
  unfold details_bounded, in_0_100. rewrite Hv. lra.
Qed.

(** C4 (as amended).  calculate_score returns, and its odds sub-score is
    max(0, 100 - ln(odds) * 18) when the odds are positive, hence 100 at
    odds 1 and 82 at odds e; it is the neutral 50 when the odds are unknown
    (0, or any non-positive value). *)
Theorem odds_subscore_spec (f : source_file) (horse : Horse)
  (race_info : RaceInfo) (all_horses : list Horse) :
  exists s,
    calculate_score f horse race_info all_horses = Ok s
    /\ (0 < h_odds horse ->
        d_odds (s_details s) = Rmax 0 (100 - ln (h_odds horse) * 18))
    /\ (h_odds horse = 1 -> d_odds (s_details s) = 100)
    /\ (h_odds horse = exp 1 -> d_odds (s_details s) = 82)
    /\ (h_odds horse <= 0 -> d_odds (s_details s) = 50).
Proof.
  destruct (calculate_score_ok f horse race_info all_horses)
    as (s & Hs & _ & _ & _ & Ho & _).
  assert (Hpos : 0 < h_odds horse ->
                 d_odds (s_details s) = Rmax 0 (100 - ln (h_odds horse) * 18)).
  { intros H. rewrite odds_score_posted in Ho by assumption.
    now injection Ho as <-. }
  exists s. split; [exact Hs |]. split; [exact Hpos |]. repeat split.
  - intros H1. rewrite Hpos by lra. rewrite H1, ln_1.
    rewrite Rmax_right by lra. lra.
  - intros He. rewrite Hpos by (rewrite He; apply exp_pos).
    rewrite He, ln_exp. rewrite Rmax_right by lra. lra.
  - intros H0. rewrite odds_score_not_posted in Ho by assumption.
    now injection Ho as <-.
Qed.

(** At odds 1.0 the odds sub-score is 100. *)
Lemma odds_subscore_spec_witness :
  exists s,
    calculate_score app_py odds_on blank_race [odds_on] = Ok s
    /\ d_odds (s_details s) = 100.
Proof.
  destruct (odds_subscore_spec app_py odds_on blank_race [odds_on])
    as (s & Hs & _ & H1 & _).
  exists s. split; [exact Hs | apply H1; reflexivity].
Defined.

(** C4 (as stated) fails on its last part: with odds 0 the odds sub-score is
    50, not 0. *)
Lemma odds_subscore_unknown_is_50 :
  h_odds lone_seven = 0
  /\ exists s,
       calculate_score app_py lone_seven blank_race [lone_seven] = Ok s
       /\ d_odds (s_details s) = 50
       /\ d_odds (s_details s) <> 0.
Proof.
  split; [reflexivity |].
  destruct (calculate_score_ok app_py lone_seven blank_race [lone_seven])
    as (s & Hs & _ & _ & _ & Ho & _).
  rewrite odds_score_not_posted in Ho by (simpl; lra).
  injection Ho as Ho.
  exists s. split; [exact Hs |]. rewrite <- Ho. split; [reflexivity | lra].
Qed.

(** C10 (as amended).  For an entrant whose history is the five finishes
    1, 2, 1, 3, 2 (most recent first), whatever the race and the field, the
    recent-form sub-score is the sum of 100, 88, 100, 76, 88 weighted by
    0.35, 0.25, 0.2, 0.12, 0.08, which is 93.16. *)
Theorem recent_form_example (f : source_file) (horse : Horse)
  (race_info : RaceInfo) (all_horses : list Horse) :
  map r_finish (h_results horse) = [1; 2; 1; 3; 2]%Z ->
  exists s,
    calculate_score f horse race_info all_horses = Ok s
    /\ d_recent (s_details s)
       = 100 * 0.35 + 88 * 0.25 + 100 * 0.2 + 76 * 0.12 + 88 * 0.08
    /\ d_recent (s_details s) = 93.16.
Proof.
  intros Hfin.
  destruct (calculate_score_ok f horse race_info all_horses)
    as (s & Hs & _ & Hrec & _).
  assert (Hv : recent_score (h_results horse)
               = 100 * 0.35 + 88 * 0.25 + 100 * 0.2 + 76 * 0.12 + 88 * 0.08).
  { destruct (h_results horse) as [| a [| b [| c [| d [| e [| x rest]]]]]];
      try discriminate.
    injection Hfin as Ha Hb Hc Hd He.
    unfold recent_score, enumerate, recent_weights, finish_score. simpl.
    rewrite Ha, Hb, Hc, Hd, He. simpl. rewrite !Z.max_r by lia. lra. }
  exists s. split; [exact Hs |]. rewrite Hrec, Hv. split; [reflexivity | lra].
Qed.

(** The example at work on [five_runs], in a field of two. *)
Lemma recent_form_example_witness :
  exists s,
    calculate_score app_py five_runs blank_race [five_runs; lone_seven] = Ok s
    /\ d_recent (s_details s)
       = 100 * 0.35 + 88 * 0.25 + 100 * 0.2 + 76 * 0.12 + 88 * 0.08
    /\ d_recent (s_details s) = 93.16.
Proof.
  apply (recent_form_example app_py five_runs blank_race [five_runs; lone_seven]).
  reflexivity.
Defined.

(** C10 (as stated) fails on its figure: the weighted sum is 93.16, which is
    0.8 short of the stated 93.96. *)
Lemma recent_form_is_not_93_96 :
  map r_finish (h_results five_runs) = [1; 2; 1; 3; 2]%Z
  /\ exists s,
       calculate_score app_py five_runs blank_race [five_runs] = Ok s
       /\ 93.96 - d_recent (s_details s) = 0.8
       /\ d_recent (s_details s) <> 93.96.
Proof.
  split; [reflexivity |].
  destruct (calculate_score_ok app_py five_runs blank_race [five_runs])
    as (s & Hs & _ & Hrec & _).
  exists s. split; [exact Hs |]. rewrite Hrec.
  unfold recent_score, enumerate, recent_weights, finish_score. simpl.
  rewrite !Z.max_r by lia. split; lra.
Qed.

(** ** Sequences in the result monad *)

Lemma mapM_ok {A B : Type} (f : A -> result B) (g : A -> B) (l : list A) :
  (forall a, In a l -> f a = Ok (g a)) -> mapM f l = Ok (map g l).
Proof.
  induction l as [| a l IH]; intros H; simpl.
  - reflexivity.
  - rewrite (H a) by (now left). simpl.
    rewrite IH by (intros; apply H; now right). reflexivity.
Qed.

Lemma mapM_total {A B : Type} (f : A -> result B) (l : list A) :
  (forall a, In a l -> exists b, f a = Ok b) ->
  exists bs, mapM f l = Ok bs /\ Forall2 (fun a b => f a = Ok b) l bs.
Proof.
  induction l as [| a l IH]; intros H; simpl.
  - exists []. split; [reflexivity | constructor].
  - destruct (H a) as [b Hb]; [now left |].
    destruct IH as [bs [Hbs Hall]]; [intros; apply H; now right |].
    rewrite Hb, Hbs. simpl.
    exists (b :: bs). split; [reflexivity | now constructor].
Qed.

(** ** min and max of a sequence *)

Lemma fold_left_Rmin_le (l : list R) (x : R) :
  fold_left Rmin l x <= x /\ Forall (fun y => fold_left Rmin l x <= y) l.
Proof.
  revert x. induction l as [| y l IH]; intros x; simpl.
  - split; [lra | constructor].
  - destruct (IH (Rmin x y)) as [H1 H2]. split.
    + pose proof (Rmin_l x y). lra.
    + constructor; [| exact H2]. pose proof (Rmin_r x y). lra.
Qed.

Lemma fold_left_Rmin_in (l : list R) (x : R) : In (fold_left Rmin l x) (x :: l).
Proof.
  revert x. induction l as [| y l IH]; intros x; simpl.
  - now left.
  - destruct (IH (Rmin x y)) as [H | H].
    + assert (Hc : Rmin x y = x \/ Rmin x y = y)
        by (unfold Rmin; destruct (Rle_dec x y); auto).
      destruct Hc as [Hc | Hc]; [left | right; left]; congruence.
    + right. now right.
Qed.

Lemma fold_left_Rmax_ge (l : list R) (x : R) :
  x <= fold_left Rmax l x /\ Forall (fun y => y <= fold_left Rmax l x) l.
Proof.
  revert x. induction l as [| y l IH]; intros x; simpl.
  - split; [lra | constructor].
  - destruct (IH (Rmax x y)) as [H1 H2]. split.
    + pose proof (Rmax_l x y). lra.
    + constructor; [| exact H2]. pose proof (Rmax_r x y). lra.
Qed.

Lemma fold_left_Rmax_in (l : list R) (x : R) : In (fold_left Rmax l x) (x :: l).
Proof.
  revert x. induction l as [| y l IH]; intros x; simpl.
  - now left.
  - destruct (IH (Rmax x y)) as [H | H].
    + assert (Hc : Rmax x y = x \/ Rmax x y = y)
        by (unfold Rmax; destruct (Rle_dec x y); auto).
      destruct Hc as [Hc | Hc]; [left | right; left]; congruence.
    + right. now right.
Qed.

Lemma py_min_spec (l : list R) :
  l <> [] ->
  exists m, py_min l = Ok m /\ In m l /\ Forall (fun y => m <= y) l.
Proof.
  destruct l as [| x l]; [intros H; now elim H | intros _].
  exists (fold_left Rmin l x). split; [reflexivity |].
  split; [apply fold_left_Rmin_in |].
  destruct (fold_left_Rmin_le l x). now constructor.
Qed.

Lemma py_max_spec (l : list R) :
  l <> [] ->
  exists m, py_max l = Ok m /\ In m l /\ Forall (fun y => y <= m) l.
Proof.
  destruct l as [| x l]; [intros H; now elim H | intros _].
  exists (fold_left Rmax l x). split; [reflexivity |].
  split; [apply fold_left_Rmax_in |].
  destruct (fold_left_Rmax_ge l x). now constructor.
Qed.

(** ** The sort *)

Lemma insert_desc_perm (p : Scored) (l : list Scored) :
  Permutation (insert_desc p l) (p :: l).
Proof.
  induction l as [| q l IH]; simpl.
  - apply Permutation_refl.
  - destruct (Rlt_dec (sc_score p) (sc_score q)).
    + eapply perm_trans; [apply perm_skip, IH | apply perm_swap].
    + apply Permutation_refl.
Qed.

Lemma sort_desc_perm (l : list Scored) : Permutation (sort_desc l) l.
Proof.
  induction l as [| p l IH]; simpl.
  - constructor.
  - eapply perm_trans; [apply insert_desc_perm | now apply perm_skip].
Qed.

Lemma insert_desc_sorted (p : Scored) (l : list Scored) :
  StronglySorted desc l -> StronglySorted desc (insert_desc p l).
Proof.
  induction l as [| q l IH]; intros Hs; simpl.
  - repeat constructor.
  - inversion Hs as [| ? ? Hl Hq]; subst.
    destruct (Rlt_dec (sc_score p) (sc_score q)) as [Hlt | Hge].
    + constructor; [now apply IH |].
      apply (Permutation_Forall (Permutation_sym (insert_desc_perm p l))).
      constructor; [unfold desc; lra | exact Hq].
    + constructor; [exact Hs |].
      constructor; [unfold desc; lra |].
      eapply Forall_impl; [| exact Hq]. unfold desc. intros; lra.
Qed.

Lemma sort_desc_sorted (l : list Scored) : StronglySorted desc (sort_desc l).
Proof.
  induction l as [| p l IH]; simpl.
  - constructor.
  - now apply insert_desc_sorted.
Qed.

Lemma insert_desc_stable (x : R) (p : Scored) (l : list Scored) :
  filter (has_score x) (insert_desc p l) = filter (has_score x) (p :: l).
Proof.
  induction l as [| q l IH]; simpl.
  - reflexivity.
  - destruct (Rlt_dec (sc_score p) (sc_score q)) as [Hlt | Hge].
    + simpl. rewrite IH. simpl. unfold has_score, Reqb.
      destruct (Req_dec_T (sc_score q) x), (Req_dec_T (sc_score p) x);
        try reflexivity. lra.
    + reflexivity.
Qed.

Lemma sort_desc_stable (x : R) (l : list Scored) :
  filter (has_score x) (sort_desc l) = filter (has_score x) l.
Proof.
  induction l as [| p l IH]; simpl.
  - reflexivity.
  - rewrite insert_desc_stable. simpl. now rewrite IH.
Qed.

Lemma sort_desc_nonempty (l : list Scored) : l <> [] -> sort_desc l <> [].
Proof.
  intros Hne Hs. apply Hne.
  apply Permutation_nil. rewrite <- Hs at 1. apply sort_desc_perm.
Qed.

(** ** predict, in closed form *)

Lemma temperature_pos : 0 < temperature.
Proof. unfold temperature. lra. Qed.

Lemma norm_exp_ok (min_s max_s : R) (p : Scored) :
  norm_exp min_s max_s p
  = Ok (norm_of min_s max_s (sc_score p), exp_of min_s max_s p).
Proof.
  unfold norm_exp, exp_of, norm_of.
  pose proof temperature_pos as Ht.
  destruct (Rgtb max_s min_s) eqn:E.
  - apply Rgtb_true in E. rewrite fdiv_ok by lra. simpl.
    rewrite fdiv_ok by lra. reflexivity.
  - simpl. rewrite fdiv_ok by lra. reflexivity.
Qed.

Lemma mapM_cons {A B : Type} (f : A -> result B) (a : A) (l : list A) :
  mapM f (a :: l) = (b <- f a ;; bs <- mapM f l ;; Ok (b :: bs)).
Proof. reflexivity. Qed.

Lemma finish_prediction_ok (min_s max_s total_exp : R) (exp_scores : list R)
  (i : nat) (p : Scored) :
  nth_error exp_scores i = Some (exp_of min_s max_s p) ->
  total_exp <> 0 ->
  finish_prediction exp_scores total_exp
    (i, (p, norm_of min_s max_s (sc_score p)))
  = Ok (ranked_entry min_s max_s total_exp (i, p)).
Proof.
  intros Hnth Htot. unfold finish_prediction, list_get.
  rewrite Hnth. simpl. rewrite fdiv_ok by assumption. reflexivity.
Qed.

Lemma finish_loop (min_s max_s total_exp : R) (l : list Scored) :
  total_exp <> 0 ->
  forall pre : list R,
    mapM (finish_prediction (pre ++ map (exp_of min_s max_s) l) total_exp)
         (combine
            (seq (length pre)
                 (length (combine l
                            (map (fun p => norm_of min_s max_s (sc_score p))
                                 l))))
            (combine l (map (fun p => norm_of min_s max_s (sc_score p)) l)))
    = Ok (map (ranked_entry min_s max_s total_exp)
              (combine (seq (length pre) (length l)) l)).
Proof.
  intros Htot. induction l as [| a l IH]; intros pre.
  - reflexivity.
  - simpl map. simpl combine. simpl length. simpl seq. simpl combine.
    rewrite mapM_cons.
    rewrite (finish_prediction_ok min_s max_s) by
      (try assumption; rewrite nth_error_app2 by lia;
       rewrite Nat.sub_diag; reflexivity).
    specialize (IH (pre ++ [exp_of min_s max_s a])).
    rewrite <- app_assoc in IH. simpl List.app in IH.
    rewrite length_app in IH. simpl length in IH.
    rewrite Nat.add_1_r in IH. rewrite IH. reflexivity.
Qed.

Lemma score_horse_ok (f : source_file) (race_info : RaceInfo)
  (horses : list Horse) (horse : Horse) :
  exists sc,
    score_horse f race_info horses horse = Ok sc
    /\ sc_horse sc = horse
    /\ sc_score sc = score_of f race_info horses horse.
Proof.
  destruct (calculate_score_ok f horse race_info horses) as (s & Hs & _).
  unfold score_horse, score_of. rewrite Hs. simpl.
  eexists. split; [reflexivity |]. split; reflexivity.
Qed.

Lemma score_each_ok (f : source_file) (race_info : RaceInfo)
  (all hs : list Horse) :
  exists scored,
    mapM (score_horse f race_info all) hs = Ok scored
    /\ Forall2 (fun h sc => sc_horse sc = h
                            /\ sc_score sc = score_of f race_info all h)
               hs scored.
Proof.
  induction hs as [| h hs IH]; simpl.
  - exists []. split; [reflexivity | constructor].
  - destruct (score_horse_ok f race_info all h) as (sc & Hsc & Hh & Hs).
    destruct IH as (scs & Hscs & Hall).
    rewrite Hsc, Hscs. simpl.
    exists (sc :: scs). split; [reflexivity |]. constructor; [| exact Hall].
    split; assumption.
Qed.

Lemma score_all_ok (f : source_file) (race_info : RaceInfo)
  (horses : list Horse) :
  exists scored,
    mapM (score_horse f race_info horses) horses = Ok scored
    /\ scored_field f race_info horses scored.
Proof. apply score_each_ok. Qed.

Lemma exp_sum_pos (min_s max_s : R) (l : list Scored) :
  l <> [] -> 0 < py_sum (map (exp_of min_s max_s) l).
Proof.
  intros Hne. apply py_sum_pos.
  - destruct l; [now elim Hne | discriminate].
  - apply Forall_map, Forall_forall. intros p _. apply exp_pos.
Qed.

Lemma predict_ok (f : source_file) (horses : list Horse)
  (race_info : RaceInfo) :
  horses <> [] ->
  exists ps,
    predict f horses race_info = Ok ps
    /\ predict_result f race_info horses ps.
Proof.
  intros Hne.
  destruct (score_all_ok f race_info horses) as (scored & Hscored & Hfield).
  assert (Hsne : scored <> []).
  { intros ->. inversion Hfield; subst. now apply Hne. }
  pose proof (sort_desc_nonempty scored Hsne) as Hsorted_ne.
  pose proof (sort_desc_perm scored) as Hperm.
  set (sorted := sort_desc scored) in *.
  assert (Hscores_ne : map sc_score sorted <> []).
  { destruct sorted; [now elim Hsorted_ne | discriminate]. }
  destruct (py_min_spec _ Hscores_ne) as (min_s & Hmin & Hmin_in & Hmin_le).
  destruct (py_max_spec _ Hscores_ne) as (max_s & Hmax & Hmax_in & Hmax_ge).
  pose proof (exp_sum_pos min_s max_s sorted Hsorted_ne) as Htot.
  eexists. split.
  - unfold predict. rewrite Hscored. simpl bind. fold sorted.
    rewrite Hmin. simpl bind. rewrite Hmax. simpl bind.
    rewrite (mapM_ok (norm_exp min_s max_s)
               (fun p => (norm_of min_s max_s (sc_score p),
                          exp_of min_s max_s p)))
      by (intros; apply norm_exp_ok).
    simpl bind. rewrite !map_map. simpl.
    unfold enumerate.
    pose proof (finish_loop min_s max_s
                  (py_sum (map (exp_of min_s max_s) sorted)) sorted) as HL.
    specialize (HL ltac:(lra) []). simpl in HL.
    exact HL.
  - apply (PredictResult f race_info horses scored min_s max_s Hfield).
    + apply (Permutation_in min_s (Permutation_map sc_score Hperm) Hmin_in).
    + apply (Permutation_in max_s (Permutation_map sc_score Hperm) Hmax_in).
    + apply (Permutation_Forall Hperm).
      rewrite Forall_map in Hmin_le, Hmax_ge.
      rewrite Forall_forall in *. intros p Hp. split; auto.
Qed.

(** ** The list predict returns *)

Lemma ranked_in (min_s max_s total_exp : R) (p : Prediction)
  (l : list Scored) (k : nat) :
  In p (map (ranked_entry min_s max_s total_exp)
            (combine (seq k (length l)) l)) ->
  exists i sc, In sc l /\ p = ranked_entry min_s max_s total_exp (i, sc).
Proof.
  intros Hin. apply in_map_iff in Hin. destruct Hin as ([i sc] & Hp & Hin).
  exists i, sc. split; [eapply in_combine_r; exact Hin | now symmetry].
Qed.

Lemma ranked_map {X : Type} (min_s max_s total_exp : R)
  (g : Prediction -> X) (h : Scored -> X) (l : list Scored) :
  (forall i sc, g (ranked_entry min_s max_s total_exp (i, sc)) = h sc) ->
  forall k,
    map g (map (ranked_entry min_s max_s total_exp)
               (combine (seq k (length l)) l))
    = map h l.
Proof.
  intros Hgh. induction l as [| a l IH]; intros k.
  - reflexivity.
  - cbn [length seq combine map]. rewrite Hgh. f_equal. apply IH.
Qed.

Lemma ranked_filter {X : Type} (min_s max_s total_exp : R)
  (g : Prediction -> X) (h : Scored -> X)
  (pg : Prediction -> bool) (ph : Scored -> bool) (l : list Scored) :
  (forall i sc, g (ranked_entry min_s max_s total_exp (i, sc)) = h sc) ->
  (forall i sc, pg (ranked_entry min_s max_s total_exp (i, sc)) = ph sc) ->
  forall k,
    map g (filter pg (map (ranked_entry min_s max_s total_exp)
                          (combine (seq k (length l)) l)))
    = map h (filter ph l).
Proof.
  intros Hgh Hp. induction l as [| a l IH]; intros k.
  - reflexivity.
  - cbn [length seq combine map filter]. rewrite Hp.
    destruct (ph a); cbn [map].
    + rewrite Hgh. f_equal. apply IH.
    + apply IH.
Qed.

Lemma ranked_sorted (min_s max_s total_exp : R) (l : list Scored) :
  StronglySorted desc l ->
  forall k,
    StronglySorted forecast_desc
      (map (ranked_entry min_s max_s total_exp) (combine (seq k (length l)) l)).
Proof.
  induction 1 as [| a l Hl IH Ha]; intros k.
  - constructor.
  - cbn [length seq combine map]. constructor; [apply IH |].
    apply Forall_forall. intros q Hq.
    apply ranked_in in Hq. destruct Hq as (i & sc & Hsc & ->).
    rewrite Forall_forall in Ha. apply (Ha sc Hsc).
Qed.

Lemma ranked_rank (min_s max_s total_exp : R) (l : list Scored) (k i : nat)
  (p : Prediction) :
  nth_error (map (ranked_entry min_s max_s total_exp)
                 (combine (seq k (length l)) l)) i = Some p ->
  p_rank p = (Z.of_nat (k + i) + 1)%Z.
Proof.
  revert k i. induction l as [| a l IH]; intros k i H.
  - destruct i; discriminate.
  - destruct i as [| i]; cbn [length seq combine map nth_error] in H.
    + injection H as <-. simpl. rewrite Nat.add_0_r. reflexivity.
    + apply IH in H. rewrite H. f_equal. lia.
Qed.

Lemma ranked_length (min_s max_s total_exp : R) (l : list Scored) :
  length (map (ranked_entry min_s max_s total_exp) (enumerate l)) = length l.
Proof.
  unfold enumerate. rewrite length_map, length_combine, length_seq.
  apply Nat.min_id.
Qed.

Lemma scored_field_length (f : source_file) (race_info : RaceInfo)
  (horses : list Horse) (scored : list Scored) :
  scored_field f race_info horses scored -> length scored = length horses.
Proof. intros H. symmetry. eapply Forall2_length. exact H. Qed.

Lemma scored_each_in (f : source_file) (race_info : RaceInfo)
  (all hs : list Horse) (scored : list Scored) (sc : Scored) :
  Forall2 (fun h sc => sc_horse sc = h
                       /\ sc_score sc = score_of f race_info all h)
          hs scored ->
  In sc scored ->
  In (sc_horse sc) hs
  /\ sc_score sc = score_of f race_info all (sc_horse sc).
Proof.
  induction 1 as [| h s hs scs [Hh Hs] _ IH]; intros Hin.
  - destruct Hin.
  - destruct Hin as [<- | Hin].
    + rewrite Hh. split; [now left | exact Hs].
    + destruct (IH Hin). split; [now right | assumption].
Qed.

Lemma scored_each_filter (f : source_file) (race_info : RaceInfo)
  (all hs : list Horse) (scored : list Scored) (x : R) :
  Forall2 (fun h sc => sc_horse sc = h
                       /\ sc_score sc = score_of f race_info all h)
          hs scored ->
  map sc_horse (filter (has_score x) scored)
  = filter (fun h => Reqb (score_of f race_info all h) x) hs.
Proof.
  induction 1 as [| h s hs scs [Hh Hs] _ IH]; simpl.
  - reflexivity.
  - unfold has_score at 1. rewrite Hs.
    destruct (Reqb (score_of f race_info all h) x); simpl.
    + now rewrite Hh, IH.
    + exact IH.
Qed.

Lemma scored_each_horses (f : source_file) (race_info : RaceInfo)
  (all hs : list Horse) (scored : list Scored) :
  Forall2 (fun h sc => sc_horse sc = h
                       /\ sc_score sc = score_of f race_info all h)
          hs scored ->
  map sc_horse scored = hs.
Proof.
  induction 1 as [| h s hs scs [Hh Hs] _ IH]; simpl.
  - reflexivity.
  - now rewrite Hh, IH.
Qed.

Lemma py_sum_div (total : R) (l : list R) :
  py_sum (map (fun x => x / total) l) = py_sum l / total.
Proof.
  induction l as [| x l IH]; simpl map.
  - rewrite py_sum_nil. unfold Rdiv. lra.
  - rewrite !py_sum_cons, IH. unfold Rdiv. lra.
Qed.

Lemma py_sum_const (c : R) {A : Type} (l : list A) :
  py_sum (map (fun _ => c) l) = INR (length l) * c.
Proof.
  induction l as [| x l IH].
  - simpl. rewrite py_sum_nil. lra.
  - simpl map. rewrite py_sum_cons, IH.
    change (length (x :: l)) with (S (length l)). rewrite S_INR. lra.
Qed.


Lemma norm_of_flat (min_s : R) (s : R) : norm_of min_s min_s s = 0.5.
Proof.
  unfold norm_of.
  assert (Hgt : Rgtb min_s min_s = false) by (apply Rgtb_false; lra).
  now rewrite Hgt.
Qed.

Lemma predict_result_length (f : source_file) (race_info : RaceInfo)
  (horses : list Horse) (ps : list Prediction) :
  predict_result f race_info horses ps -> length ps = length horses.
Proof.
  intros [scored min_s max_s Hfield _ _ _].
  rewrite ranked_length.
  rewrite (Permutation_length (sort_desc_perm scored)).
  eapply scored_field_length. exact Hfield.
Qed.

Lemma predict_result_nonempty (f : source_file) (race_info : RaceInfo)
  (horses : list Horse) (scored : list Scored) :
  horses <> [] -> scored_field f race_info horses scored ->
  sort_desc scored <> [].
Proof.
  intros Hne Hfield. apply sort_desc_nonempty.
  intros ->. inversion Hfield; subst. now apply Hne.
Qed.

(** ** Claims on predict *)

(** C1.  For every non-empty list of entrants predict returns a forecast in
    which every win probability is strictly positive and the win
    probabilities sum to 1, whatever the composite scores are. *)
Theorem predict_probabilities (f : source_file) (horses : list Horse)
  (race_info : RaceInfo) :
  horses <> [] ->
  exists ps,
    predict f horses race_info = Ok ps
    /\ length ps = length horses
    /\ Forall (fun p => 0 < p_win_prob p) ps
    /\ py_sum (map p_win_prob ps) = 1.
Proof.
  intros Hne.
  destruct (predict_ok f horses race_info Hne) as (ps & Hps & Hres).
  exists ps. split; [exact Hps |].
  split; [eapply predict_result_length; exact Hres |].
  destruct Hres as [scored min_s max_s Hfield _ _ _].
  pose proof (predict_result_nonempty f race_info horses scored Hne Hfield)
    as Hsne.
  pose proof (exp_sum_pos min_s max_s _ Hsne) as Htot.
  split.
  - apply Forall_forall. intros p Hp.
    apply ranked_in in Hp. destruct Hp as (i & sc & _ & ->). simpl.
    apply Rdiv_lt_0_compat; [apply exp_pos | exact Htot].
  - unfold enumerate.
    rewrite (ranked_map min_s max_s _ p_win_prob
               (fun sc => exp_of min_s max_s sc
                          / py_sum (map (exp_of min_s max_s)
                                        (sort_desc scored))))
      by reflexivity.
    rewrite <- (map_map (exp_of min_s max_s) (fun x => x / _)).
    rewrite py_sum_div. unfold Rdiv. apply Rinv_r. lra.
Qed.

(** The distribution of a field of two. *)
Lemma predict_probabilities_witness :
  exists ps,
    predict app_py [five_runs; lone_seven] blank_race = Ok ps
    /\ length ps = 2%nat
    /\ Forall (fun p => 0 < p_win_prob p) ps
    /\ py_sum (map p_win_prob ps) = 1.
Proof.
  apply (predict_probabilities app_py [five_runs; lone_seven] blank_race).
  discriminate.
Defined.

(** C2 (as amended).  Given zero entrants predict returns nothing: [min] of
    the empty score list raises ValueError (both callers return before
    calling predict on an empty field).  Given at least one entrant it
    returns a forecast of the same length, also when all composite scores
    are equal.  In no case does it raise ZeroDivisionError. *)
Theorem predict_degenerate (f : source_file) (horses : list Horse)
  (race_info : RaceInfo) :
  (horses = [] -> predict f horses race_info = Raise ValueError)
  /\ (horses <> [] ->
      exists ps, predict f horses race_info = Ok ps
                 /\ length ps = length horses)
  /\ predict f horses race_info <> Raise ZeroDivisionError.
Proof.
  assert (Hfull : horses <> [] ->
          exists ps, predict f horses race_info = Ok ps
                     /\ length ps = length horses).
  { intros Hne.
    destruct (predict_ok f horses race_info Hne) as (ps & Hps & Hres).
    exists ps. split; [exact Hps |]. eapply predict_result_length; exact Hres. }
  split; [intros ->; reflexivity |]. split; [exact Hfull |].
  destruct horses as [| h hs].
  - discriminate.
  - destruct Hfull as (ps & Hps & _); [discriminate |].
    rewrite Hps. discriminate.
Qed.

(** C2 (as stated) fails on its first part: on zero entrants predict raises
    ValueError, it does not return the empty forecast. *)
Lemma predict_empty_raises :
  predict app_py [] blank_race = Raise ValueError
  /\ predict scrape_and_predict_py [] blank_race = Raise ValueError
  /\ predict app_py [] blank_race <> Ok [].
Proof.
  split; [reflexivity |]. split; [reflexivity | discriminate].
Qed.



Section NearTie.

Import PrimFloat.


End NearTie.

Lemma map_const_repeat {A B : Type} (c : B) (l : list A) :
  map (fun _ => c) l = repeat c (length l).
Proof. induction l as [| a l IH]; simpl; congruence. Qed.

(** C8 (as amended).  If all N entrants of a non-empty field have the same
    composite score, the forecast has N entries, every one with normalized
    score 0.5 and with the same win probability: the quotient of
    exp(0.5/0.3) by the sum of N copies of it, which is 1/N in exact
    arithmetic and 1/N up to rounding in the floats of the code. *)
Theorem predict_uniform (f : source_file) (horses : list Horse)
  (race_info : RaceInfo) :
  horses <> [] ->
  (forall h h', In h horses -> In h' horses ->
                score_of f race_info horses h
                = score_of f race_info horses h') ->
  exists ps,
    predict f horses race_info = Ok ps
    /\ length ps = length horses
    /\ Forall (fun p =>
                 p_norm_score p = 0.5
                 /\ p_win_prob p
                    = exp (0.5 / temperature)
                      / py_sum (repeat (exp (0.5 / temperature))
                                       (length horses))
                 /\ p_win_prob p = 1 / INR (length horses)) ps.
Proof.
  intros Hne Hsame.
  destruct (predict_ok f horses race_info Hne) as (ps & Hps & Hres).
  exists ps. split; [exact Hps |].
  split; [eapply predict_result_length; exact Hres |].
  destruct Hres as [scored min_s max_s Hfield Hmin Hmax _].
  assert (Heq : max_s = min_s).
  { apply in_map_iff in Hmin. destruct Hmin as (a & <- & Ha).
    apply in_map_iff in Hmax. destruct Hmax as (b & <- & Hb).
    destruct (scored_each_in _ _ _ _ _ _ Hfield Ha) as [Hah ->].
    destruct (scored_each_in _ _ _ _ _ _ Hfield Hb) as [Hbh ->].
    now apply Hsame. }
  subst max_s.
  assert (Hexp : forall sc, exp_of min_s min_s sc = exp (0.5 / temperature)).
  { intros sc. unfold exp_of. now rewrite norm_of_flat. }
  assert (Hlen : length (sort_desc scored) = length horses).
  { rewrite (Permutation_length (sort_desc_perm scored)).
    eapply scored_field_length. exact Hfield. }
  assert (Hrep : map (exp_of min_s min_s) (sort_desc scored)
                 = repeat (exp (0.5 / temperature)) (length horses)).
  { rewrite (map_ext _ (fun _ => exp (0.5 / temperature)) Hexp).
    now rewrite map_const_repeat, Hlen. }
  assert (Htot : py_sum (map (exp_of min_s min_s) (sort_desc scored))
                 = INR (length horses) * exp (0.5 / temperature)).
  { rewrite (map_ext _ (fun _ => exp (0.5 / temperature)) Hexp).
    now rewrite py_sum_const, Hlen. }
  rewrite <- Hrep, Htot.
  apply Forall_forall. intros p Hp.
  apply ranked_in in Hp. destruct Hp as (i & sc & _ & ->). simpl.
  split; [apply norm_of_flat |].
  rewrite Hexp. split; [reflexivity |].
  assert (Hn : 0 < INR (length horses)).
  { apply lt_0_INR. destruct horses; [now elim Hne | simpl; lia]. }
  pose proof (exp_pos (0.5 / temperature)).
  field. split; lra.
Qed.

(** Two entrants with the same record: each gets one half. *)
Lemma predict_uniform_witness :
  exists ps,
    predict app_py [lone_seven; lone_seven] blank_race = Ok ps
    /\ length ps = 2%nat
    /\ Forall (fun p =>
                 p_norm_score p = 0.5
                 /\ p_win_prob p
                    = exp (0.5 / temperature)
                      / py_sum (repeat (exp (0.5 / temperature)) 2)
                 /\ p_win_prob p = 1 / INR 2) ps.
Proof.
  apply (predict_uniform app_py [lone_seven; lone_seven] blank_race).
  - discriminate.
  - intros h h' [<- | [<- | []]] [<- | [<- | []]]; reflexivity.
Defined.

Section FiveAlike.

Import PrimFloat.

(** C8 (as stated) fails in the floats of the code: five entrants with
    nothing known about them all score 50 and all normalize to 0.5, and
    each gets the win probability 0.19999999999999998, one unit in the
    last place below the float 1/5.  [math.exp] enters only through its
    value at 0.5 over the temperature. *)
Lemma predict_uniform_binary64 :
  exists horses race_info,
    forall math_exp math_log statistics_stdev,
      math_exp 0x1.aaaaaaaaaaaabp+0%float = 0x1.52d8eccbf108ep+2%float ->
      exists ps,
        Binary64.predict math_exp math_log statistics_stdev app_py horses
          race_info = Ok ps
        /\ length horses = 5%nat
        /\ length ps = 5%nat
        /\ Forall (fun p =>
                     Binary64.p_score p = 50%float
                     /\ Binary64.p_norm_score p = 0.5%float
                     /\ Binary64.p_win_prob p = 0x1.9999999999999p-3%float)
                  ps
        /\ PrimFloat.div 1 5 = 0x1.999999999999ap-3%float
        /\ PrimFloat.ltb 0x1.9999999999999p-3 (PrimFloat.div 1 5) = true.
Proof.
  exists (repeat Binary64.blank_horse 5), Binary64.mile_race.
  intros math_exp math_log statistics_stdev Hexp.
  assert (E : Binary64.predict math_exp math_log statistics_stdev
                app_py (repeat Binary64.blank_horse 5) Binary64.mile_race
              = Binary64.predict math_exp math_log statistics_stdev
                  app_py (repeat Binary64.blank_horse 5) Binary64.mile_race)
    by reflexivity.
  revert E. generalize (Binary64.predict math_exp math_log statistics_stdev
                  app_py (repeat Binary64.blank_horse 5) Binary64.mile_race)
    at 1 3.
  intros r E. vm_compute in E. rewrite Hexp in E. vm_compute in E.
  subst r. eexists. split; [reflexivity |].
  repeat split; repeat constructor.
Qed.

End FiveAlike.

(** C9.  The forecast predict returns is sorted by composite score, highest
    first; it holds the entrants of the input, each with the composite score
    calculate_score gives it, and its ranks count from 1; and among entrants
    of one and the same composite score the forecast keeps the input order. *)
Theorem predict_sorted_stable (f : source_file) (horses : list Horse)
  (race_info : RaceInfo) :
  horses <> [] ->
  exists ps,
    predict f horses race_info = Ok ps
    /\ StronglySorted forecast_desc ps
    /\ Permutation (map p_horse ps) horses
    /\ Forall (fun p => p_score p
                        = score_of f race_info horses (p_horse p)) ps
    /\ (forall i p, nth_error ps i = Some p -> p_rank p = (Z.of_nat i + 1)%Z)
    /\ forall x,
         map p_horse (filter (fun p => Reqb (p_score p) x) ps)
         = filter (fun h => Reqb (score_of f race_info horses h) x) horses.
Proof.
  intros Hne.
  destruct (predict_ok f horses race_info Hne) as (ps & Hps & Hres).
  exists ps. split; [exact Hps |].
  destruct Hres as [scored min_s max_s Hfield _ _ _].
  pose proof (sort_desc_perm scored) as Hperm.
  unfold enumerate. repeat split.
  - apply ranked_sorted, sort_desc_sorted.
  - rewrite (ranked_map _ _ _ p_horse sc_horse) by reflexivity.
    rewrite <- (scored_each_horses _ _ _ _ _ Hfield).
    now apply Permutation_map.
  - apply Forall_forall. intros p Hp.
    apply ranked_in in Hp. destruct Hp as (i & sc & Hsc & ->). simpl.
    apply (Permutation_in _ Hperm) in Hsc.
    now destruct (scored_each_in _ _ _ _ _ _ Hfield Hsc).
  - intros i p Hnth. now apply ranked_rank in Hnth.
  - intros x.
    rewrite (ranked_filter _ _ _ p_horse sc_horse
               (fun p => Reqb (p_score p) x) (has_score x))
      by reflexivity.
    rewrite sort_desc_stable.
    now apply scored_each_filter.
Qed.

(** A field of three with a tie between the first and the third entrant. *)
Lemma predict_sorted_stable_witness :
  exists ps,
    predict app_py [lone_seven; five_runs; lone_seven] blank_race = Ok ps
    /\ StronglySorted forecast_desc ps
    /\ Permutation (map p_horse ps) [lone_seven; five_runs; lone_seven]
    /\ Forall (fun p => p_score p
                        = score_of app_py blank_race
                            [lone_seven; five_runs; lone_seven] (p_horse p))
              ps
    /\ (forall i p, nth_error ps i = Some p -> p_rank p = (Z.of_nat i + 1)%Z)
    /\ forall x,
         map p_horse (filter (fun p => Reqb (p_score p) x) ps)
         = filter (fun h => Reqb (score_of app_py blank_race
                                    [lone_seven; five_runs; lone_seven] h) x)
                  [lone_seven; five_runs; lone_seven].
Proof.
  apply (predict_sorted_stable app_py [lone_seven; five_runs; lone_seven]
           blank_race).
  discriminate.
Defined.

(** ** Texts *)

Lemma decimal_value_range (c : N) (d : Z) :
  decimal_value c = Some d -> (0 <= d <= 9)%Z.
Proof.
  unfold decimal_value.
  destruct (find _ decimal_zeros) as [z |] eqn:E; [| discriminate].
  apply find_some in E. destruct E as [_ E].
  apply andb_true_iff in E. destruct E as [E1 E2].
  apply N.leb_le in E1. apply N.ltb_lt in E2.
  intros H. injection H as <-. lia.
Qed.

Lemma int_of_decimals_from_nonneg (ds : list Z) (acc : Z) :
  Forall (fun d => 0 <= d <= 9)%Z ds -> (0 <= acc)%Z ->
  (0 <= fold_left (fun acc d => acc * 10 + d) ds acc)%Z.
Proof.
  intros H. revert acc. induction H as [| d ds Hd _ IH]; intros acc Hacc.
  - exact Hacc.
  - simpl. apply IH. lia.
Qed.

Lemma int_body_decimals (cs : list N) (after_digit : bool) (ds : list Z) :
  int_body after_digit cs = Some ds -> Forall (fun d => 0 <= d <= 9)%Z ds.
Proof.
  revert after_digit ds. induction cs as [| c cs IH]; intros b ds; simpl.
  - destruct b; [| discriminate]. intros H. injection H as <-. constructor.
  - destruct (decimal_value c) as [d |] eqn:Ed.
    + destruct (int_body true cs) as [ds' |] eqn:E; [| discriminate].
      simpl. intros H. injection H as <-.
      constructor; [now apply (decimal_value_range c) | now apply (IH true)].
    + destruct ((c =? 0x5F)%N && b)%bool; [| discriminate]. apply IH.
Qed.

Lemma int_digits_nonneg (cs : list N) (n : Z) :
  int_digits cs = Some n -> (0 <= n)%Z.
Proof.
  unfold int_digits.
  destruct (int_body false cs) as [ds |] eqn:E; [| discriminate].
  destruct (len ds <=? int_max_str_digits)%Z; [| discriminate].
  intros H. injection H as <-.
  apply int_of_decimals_from_nonneg; [| lia].
  now apply int_body_decimals in E.
Qed.

(** A text that passes [str.isdigit] carries no sign, so its [int], when
    it has one, is not negative. *)
Lemma py_int_isdigit_nonneg (s : string) (n : Z) :
  isdigit s = true -> py_int s = Some n -> (0 <= n)%Z.
Proof.
  unfold isdigit, py_int.
  destruct (chars s) as [| c cs]; [discriminate |].
  intros Hdig. cbn [forallb] in Hdig.
  apply andb_true_iff in Hdig. destruct Hdig as [Hc _].
  destruct (c =? 0x2D)%N eqn:Em.
  { apply N.eqb_eq in Em. subst c. discriminate. }
  destruct (c =? 0x2B)%N eqn:Ep.
  { apply N.eqb_eq in Ep. subst c. discriminate. }
  apply int_digits_nonneg.
Qed.

Lemma nonempty_true (s : string) : nonempty s = true <-> s <> EmptyString.
Proof. destruct s; simpl; split; intros; congruence. Qed.

Lemma filter_map_in {A B : Type} (g : A -> option B) (l : list A) (b : B) :
  In b (filter_map g l) <-> exists a, In a l /\ g a = Some b.
Proof.
  induction l as [| a l IH]; simpl.
  - split; [intros [] | intros (a & [] & _)].
  - destruct (g a) as [b' |] eqn:E; simpl; rewrite ?IH; split.
    + intros [<- | (a' & Ha' & Hg)]; [exists a; auto | exists a'; auto].
    + intros (a' & [<- | Ha'] & Hg); [left; congruence | right; eauto].
    + intros (a' & Ha' & Hg). exists a'; auto.
    + intros (a' & [<- | Ha'] & Hg); [congruence | eauto].
Qed.

(** ** parse_horse_history *)

Section ExtractorProperties.

Variable py_float : string -> option R.

Lemma parse_horse_history_rows (page : HistoryPage) :
  parse_horse_history py_float page
  = firstn 20 (filter_map (parse_history_row py_float) (history_rows page)).
Proof.
  unfold parse_horse_history, history_rows.
  destruct (hp_db_h_race_results page) as [t |];
    [reflexivity |].
  destruct (hp_nk_tb_common page) as [t |]; reflexivity.
Qed.

(** A row is kept only through the digit test of its twelfth cell and the
    [int] of that cell, and the finish it is kept with is that [int]. *)
Lemma parse_history_row_some (cells : list Cell) (r : RaceResult) :
  parse_history_row py_float cells = Some r ->
  (15 <= len cells)%Z
  /\ exists c11,
       nth_error cells 11 = Some c11
       /\ isdigit (c_text c11) = true
       /\ py_int (c_text c11) = Some (r_finish r).
Proof.
  unfold parse_history_row.
  destruct (len cells <? 15)%Z eqn:Elen; [discriminate |].
  apply Z.ltb_ge in Elen.
  destruct (nth_error cells 0) as [c0 |]; [| discriminate].
  destruct (nth_error cells 1) as [c1 |]; [| discriminate].
  destruct (nth_error cells 4) as [c4 |]; [| discriminate].
  destruct (nth_error cells 6) as [c6 |]; [| discriminate].
  destruct (nth_error cells 11) as [c11 |]; [| discriminate].
  cbn [obind].
  destruct (isdigit (c_text c11)) eqn:Edig; [| discriminate].
  destruct (py_int (c_text c11)) as [finish |] eqn:Eint; [| discriminate].
  cbn [obind].
  destruct (nth_error cells 14) as [c14 |]; [| discriminate].
  cbn [obind].
  destruct (match re_search match_surface_distance (chars (c_text c14)) with
            | Some (g, d) => _
            | None => _
            end) as [track_type distance].
  destruct (nth_error cells 9) as [c9 |]; [| discriminate].
  destruct (nth_error cells 10) as [c10 |]; [| discriminate].
  cbn [obind]. intros H. injection H as <-.
  split; [exact Elen |]. exists c11.
  split; [reflexivity |]. split; [exact Edig | exact Eint].
Qed.

(** A row whose finish cell fails the digit test, or whose [int] raises, is
    left out. *)
Lemma parse_history_row_none (cells : list Cell) (c11 : Cell) :
  nth_error cells 11 = Some c11 ->
  isdigit (c_text c11) = false \/ py_int (c_text c11) = None ->
  parse_history_row py_float cells = None.
Proof.
  intros Hnth Hdig. unfold parse_history_row.
  destruct (len cells <? 15)%Z; [reflexivity |].
  destruct (nth_error cells 0) as [c0 |]; [| reflexivity].
  destruct (nth_error cells 1) as [c1 |]; [| reflexivity].
  destruct (nth_error cells 4) as [c4 |]; [| reflexivity].
  destruct (nth_error cells 6) as [c6 |]; [| reflexivity].
  rewrite Hnth. cbn [obind].
  destruct Hdig as [-> | Hint]; [reflexivity |].
  rewrite Hint. destruct (isdigit (c_text c11)); reflexivity.
Qed.

End ExtractorProperties.

Lemma firstn_in {A : Type} (n : nat) (l : list A) (a : A) :
  In a (firstn n l) -> In a l.
Proof.
  intros H. rewrite <- (firstn_skipn n l). apply in_or_app. now left.
Qed.

(** C5 (as amended).  Every run parse_horse_history returns comes from a row
    of the table whose finish cell passes [str.isdigit] and converts with
    [int], and its finish is that [int], hence at least 0; a row whose
    finish cell fails [str.isdigit], or on which [int] raises, yields no
    run at all. *)
Theorem parse_horse_history_finish (py_float : string -> option R)
  (page : HistoryPage) :
  (forall r, In r (parse_horse_history py_float page) ->
     (0 <= r_finish r)%Z
     /\ exists cells c11,
          In cells (history_rows page)
          /\ parse_history_row py_float cells = Some r
          /\ nth_error cells 11 = Some c11
          /\ isdigit (c_text c11) = true
          /\ py_int (c_text c11) = Some (r_finish r))
  /\ (forall cells c11,
        nth_error cells 11 = Some c11 ->
        isdigit (c_text c11) = false \/ py_int (c_text c11) = None ->
        parse_history_row py_float cells = None).
Proof.
  split.
  - intros r Hin. rewrite parse_horse_history_rows in Hin.
    apply firstn_in in Hin. apply filter_map_in in Hin.
    destruct Hin as (cells & Hcells & Hrow).
    destruct (parse_history_row_some py_float cells r Hrow)
      as (_ & c11 & Hnth & Hdig & Hfin).
    split.
    + now apply (py_int_isdigit_nonneg (c_text c11)).
    + exists cells, c11. repeat split; assumption.
  - apply parse_history_row_none.
Qed.

(** A table with one abandoned run and one win: the win is returned. *)
Lemma parse_horse_history_finish_witness :
  (0 <= r_finish first_place_run)%Z
  /\ exists cells c11,
       In cells (history_rows (history_page ["中止"; "1"]%string))
       /\ parse_history_row no_float cells = Some first_place_run
       /\ nth_error cells 11 = Some c11
       /\ isdigit (c_text c11) = true
       /\ py_int (c_text c11) = Some (r_finish first_place_run).
Proof.
  apply (proj1 (parse_horse_history_finish no_float
                  (history_page ["中止"; "1"]%string))).
  left. reflexivity.
Defined.

(** C5 (as stated) fails on its bound: a row whose finish cell is "0" passes
    the digit test and is returned with finish 0. *)
Lemma parse_horse_history_finish_zero :
  isdigit "0"%string = true
  /\ map r_finish (parse_horse_history no_float (history_page ["0"]%string))
     = [0%Z].
Proof. split; reflexivity. Qed.

(** A finish cell in fullwidth digits is kept with the number it spells; a
    superscript two passes [str.isdigit], [int] raises on it under the
    [try], and the row is left out. *)
Lemma parse_horse_history_other_scripts :
  map r_finish
      (parse_horse_history no_float (history_page ["１"; "²"; "１２"]%string))
  = [1%Z; 12%Z]
  /\ isdigit "²"%string = true
  /\ py_int "²"%string = None.
Proof. repeat split; reflexivity. Qed.

(** ** parse_race_page *)

Lemma int_if_digit_cases (text : option string) :
  (exists n, int_if_digit text = Ok n /\ (0 <= n)%Z)
  \/ int_if_digit text = Raise ValueError.
Proof.
  unfold int_if_digit.
  destruct text as [text |]; [| left; exists 0%Z; split; [reflexivity | lia]].
  destruct (isdigit text) eqn:E;
    [| left; exists 0%Z; split; [reflexivity | lia]].
  destruct (py_int text) as [n |] eqn:En; [| now right].
  left. exists n. split; [reflexivity |].
  now apply (py_int_isdigit_nonneg text).
Qed.

Lemma int_if_digit_nonneg (text : option string) (n : Z) :
  int_if_digit text = Ok n -> (0 <= n)%Z.
Proof.
  destruct (int_if_digit_cases text) as [(m & -> & Hm) | ->];
    [| discriminate].
  intros H. injection H as <-. exact Hm.
Qed.

Lemma parse_gate_cases (f : source_file) (row : EntryRow) :
  (exists n, parse_gate f row = Ok n) \/ parse_gate f row = Raise ValueError.
Proof.
  unfold parse_gate.
  destruct (er_waku row) as [waku_cell |]; [| left; eauto].
  destruct (wk_span waku_cell) as [span |]; [left; eauto |].
  destruct f; [left; eauto |].
  destruct (int_if_digit_cases (Some (wk_text waku_cell)))
    as [(n & -> & _) | ->]; [left; eauto | now right].
Qed.

Lemma parse_age_cases (row : EntryRow) :
  (exists n, parse_age row = Ok n) \/ parse_age row = Raise ValueError.
Proof.
  unfold parse_age.
  destruct (er_barei row) as [text |]; [| left; eauto].
  destruct (re_search _ (chars text)) as [ds |]; [| left; eauto].
  destruct (len ds <=? int_max_str_digits)%Z; [left; eauto | now right].
Qed.

(** The only exception a row can raise is the [ValueError] of an [int]. *)
Lemma parse_entry_row_cases (py_float : string -> option R) (f : source_file)
  (row : EntryRow) :
  (exists h, parse_entry_row py_float f row = Ok h)
  \/ parse_entry_row py_float f row = Raise ValueError.
Proof.
  unfold parse_entry_row.
  destruct (parse_gate_cases f row) as [[gate ->] | ->]; [| now right].
  cbn [bind].
  destruct (int_if_digit_cases (er_umaban row)) as [(n & -> & _) | ->];
    [| now right].
  cbn [bind].
  destruct (parse_age_cases row) as [[age ->] | ->]; [| now right].
  cbn [bind].
  destruct f; [left; eexists; reflexivity |].
  destruct (int_if_digit_cases (er_ninki row)) as [(m & -> & _) | ->];
    [| now right].
  left. eexists. reflexivity.
Qed.

Lemma valid_entry_true (h : Horse) :
  valid_entry h = true <-> h_name h <> EmptyString /\ (1 <= h_number h)%Z.
Proof.
  unfold valid_entry. rewrite andb_true_iff, nonempty_true, Z.ltb_lt.
  split; intros [Hname Hnum]; split; try assumption; lia.
Qed.

Lemma Forall2_in_r {A B : Type} (P : A -> B -> Prop) (l : list A)
  (l' : list B) (b : B) :
  Forall2 P l l' -> In b l' -> exists a, In a l /\ P a b.
Proof.
  induction 1 as [| a b' l l' Hab _ IH]; intros Hin.
  - destruct Hin.
  - destruct Hin as [<- | Hin].
    + exists a. split; [now left | assumption].
    + destruct (IH Hin) as (a' & Ha' & HP). exists a'. split; [now right | assumption].
Qed.

Lemma Forall2_in_l {A B : Type} (P : A -> B -> Prop) (l : list A)
  (l' : list B) (a : A) :
  Forall2 P l l' -> In a l -> exists b, In b l' /\ P a b.
Proof.
  induction 1 as [| a' b l l' Hab _ IH]; intros Hin.
  - destruct Hin.
  - destruct Hin as [<- | Hin].
    + exists b. split; [now left | assumption].
    + destruct (IH Hin) as (b' & Hb' & HP). exists b'. split; [now right | assumption].
Qed.

Lemma mapM_cases {A B : Type} (g : A -> result B) (l : list A) (e : exn) :
  (forall a, In a l -> (exists b, g a = Ok b) \/ g a = Raise e) ->
  (exists bs, mapM g l = Ok bs /\ Forall2 (fun a b => g a = Ok b) l bs)
  \/ (mapM g l = Raise e /\ exists a, In a l /\ g a = Raise e).
Proof.
  induction l as [| a l IH]; intros H.
  - left. exists []. split; [reflexivity | constructor].
  - cbn [mapM].
    destruct (H a (or_introl eq_refl)) as [[b Hb] | Hr].
    + rewrite Hb. cbn [bind].
      destruct IH as [(bs & Hbs & Hall) | (Hraise & a' & Ha' & Hg)].
      * intros a' Ha'. apply H. now right.
      * left. exists (b :: bs). rewrite Hbs. split; [reflexivity |].
        now constructor.
      * right. rewrite Hraise. split; [reflexivity |].
        exists a'. split; [now right | exact Hg].
    + right. rewrite Hr. split; [reflexivity |].
      exists a. split; [now left | exact Hr].
Qed.

(** parse_race_page returns when every row parses, and its list of horses
    is then the list of the parsed rows, in page order, with the invalid
    ones filtered out; when the [int] of some row raises, so does it. *)
Lemma parse_race_page_cases (py_float : string -> option R) (f : source_file)
  (page : RacePage) (race_id : string) :
  (exists parsed,
     Forall2 (fun row h => parse_entry_row py_float f row = Ok h)
             (pg_horse_rows page) parsed
     /\ parse_race_page py_float f page race_id
        = Ok (parse_race_info f page race_id, filter valid_entry parsed))
  \/ (parse_race_page py_float f page race_id = Raise ValueError
      /\ exists row,
           In row (pg_horse_rows page)
           /\ parse_entry_row py_float f row = Raise ValueError).
Proof.
  unfold parse_race_page.
  destruct (mapM_cases (parse_entry_row py_float f) (pg_horse_rows page)
              ValueError) as [(parsed & Hp & Hall) | (Hr & row & Hrow)].
  - intros row _. apply parse_entry_row_cases.
  - left. exists parsed. rewrite Hp. split; [exact Hall | reflexivity].
  - right. rewrite Hr. split; [reflexivity |]. exists row. exact Hrow.
Qed.

(** C6.  Whenever parse_race_page returns, a horse is in its output list if
    and only if it is what some row of the page parses to and it has a
    non-empty name and a program number of at least 1; and it returns
    whenever every row parses.  It does not drop every other row in
    silence: on a row whose program number cell reads "²" the digit test
    passes, [int] raises outside any [try], and the whole call raises
    ValueError in both files. *)
Theorem parse_race_page_entries (py_float : string -> option R)
  (f : source_file) (race_id : string) :
  (forall page race_info horses,
     parse_race_page py_float f page race_id = Ok (race_info, horses) ->
     forall h,
       In h horses <->
       exists row,
         In row (pg_horse_rows page)
         /\ parse_entry_row py_float f row = Ok h
         /\ h_name h <> EmptyString
         /\ (1 <= h_number h)%Z)
  /\ (forall page,
        (forall row, In row (pg_horse_rows page) ->
           exists h, parse_entry_row py_float f row = Ok h) ->
        exists race_info horses,
          parse_race_page py_float f page race_id = Ok (race_info, horses))
  /\ isdigit "²"%string = true
  /\ py_int "²"%string = None
  /\ parse_race_page py_float f superscript_page race_id = Raise ValueError.
Proof.
  split; [| split; [| split; [| split]]].
  - intros page race_info horses Hpage h.
    destruct (parse_race_page_cases py_float f page race_id)
      as [(parsed & Hall & Hok) | (Hr & _)]; [| congruence].
    rewrite Hok in Hpage. injection Hpage as _ <-.
    rewrite filter_In, valid_entry_true. split.
    + intros (Hin & Hname & Hnum).
      destruct (Forall2_in_r _ _ _ _ Hall Hin) as (row & Hrow & Hparse).
      exists row. repeat split; assumption.
    + intros (row & Hrow & Hparse & Hname & Hnum).
      destruct (Forall2_in_l _ _ _ _ Hall Hrow) as (h' & Hh' & Hparse').
      rewrite Hparse in Hparse'. injection Hparse' as <-.
      repeat split; assumption.
  - intros page Hrows.
    destruct (parse_race_page_cases py_float f page race_id)
      as [(parsed & _ & Hok) | (_ & row & Hrow & Hr)].
    + eauto.
    + destruct (Hrows row Hrow) as [h Hh]. congruence.
  - reflexivity.
  - reflexivity.
  - destruct f; reflexivity.
Qed.

(** On a page with one valid row between two decorative ones, only the valid
    row's horse comes out. *)
Lemma parse_race_page_entries_example :
  exists race_info horses,
    parse_race_page no_float app_py entry_page "202405010811"%string
    = Ok (race_info, horses)
    /\ map h_number horses = [3%Z]
    /\ map h_name horses = ["Deep"%string]
    /\ ri_distance race_info = 1600%Z
    /\ ri_course race_info = "東京"%string.
Proof.
  eexists. eexists. split; [reflexivity |]. repeat split.
Qed.

(** ** A worked field *)

Lemma calculate_score_inv (f : source_file) (horse : Horse)
  (race_info : RaceInfo) (all_horses : list Horse) (s : Score) :
  calculate_score f horse race_info all_horses = Ok s ->
  basic_score (h_results horse) = Ok (d_basic (s_details s))
  /\ distance_score (h_results horse) race_info = Ok (d_distance (s_details s))
  /\ course_score (h_results horse) race_info = Ok (d_course (s_details s))
  /\ stability_score (h_results horse) = Ok (d_stability (s_details s))
  /\ weight_score horse all_horses = Ok (d_weight (s_details s)).
Proof.
  unfold calculate_score.
  destruct (basic_score (h_results horse)); [| discriminate].
  destruct (distance_score (h_results horse) race_info); [| discriminate].
  destruct (course_score (h_results horse) race_info); [| discriminate].
  destruct (draw_score horse race_info all_horses); [| discriminate].
  destruct (odds_score horse); [| discriminate].
  destruct (stability_score (h_results horse)); [| discriminate].
  destruct (weight_score horse all_horses); [| discriminate].
  cbn [bind]. intros H. injection H as <-. cbn. repeat split.
Qed.

Lemma Rgtb_refl (x : R) : Rgtb x x = false.
Proof. apply Rgtb_false. lra. Qed.

(** In the field of [lone_seven] and [five_runs] the entrant without history
    scores 46.5: seven neutral sub-scores and a draw of -20. *)
Lemma lone_seven_score :
  score_of app_py blank_race [lone_seven; five_runs] lone_seven = 46.5.
Proof.
  unfold score_of.
  destruct (calculate_score_ok app_py lone_seven blank_race
              [lone_seven; five_runs])
    as (s & Hs & Htot & Hrec & Hdraw & Ho & _).
  rewrite Hs, Htot.
  destruct (calculate_score_inv _ _ _ _ _ Hs) as (Hb & Hd & Hc & Hst & Hw).
  rewrite draw_score_value in Hdraw by (unfold len; simpl; lia).
  rewrite odds_score_not_posted in Ho by (simpl; lra).
  unfold weight_score in Hw. simpl in Hw. rewrite Rgtb_refl in Hw.
  simpl in Hb, Hd, Hc, Hst, Hw, Hrec.
  injection Hb as Hb. injection Hd as Hd. injection Hc as Hc.
  injection Hst as Hst. injection Hw as Hw. injection Ho as Ho.
  injection Hdraw as Hdraw.
  unfold len in Hdraw. simpl in Hdraw. rewrite Z.max_r in Hdraw by lia.
  unfold composite, w_recent, w_basic, w_distance, w_course, w_draw, w_odds,
    w_stability, w_weight.
  rewrite Hrec, <- Hb, <- Hd, <- Hc, <- Hst, <- Hw, <- Ho, <- Hdraw.
  lra.
Qed.

(** In the same field the entrant with five good runs scores more. *)
Lemma five_runs_score :
  46.5 < score_of app_py blank_race [lone_seven; five_runs] five_runs.
Proof.
  unfold score_of.
  destruct (calculate_score_ok app_py five_runs blank_race
              [lone_seven; five_runs])
    as (s & Hs & Htot & Hrec & Hdraw & Ho & Hb & Hd & Hc & Hst & Hw).
  rewrite Hs, Htot.
  rewrite draw_score_value in Hdraw by (unfold len; simpl; lia).
  rewrite odds_score_not_posted in Ho by (simpl; lra).
  injection Ho as Ho. injection Hdraw as Hdraw.
  unfold len in Hdraw. simpl in Hdraw.
  unfold recent_score, enumerate, recent_weights, finish_score in Hrec.
  simpl in Hrec. rewrite !Z.max_r in Hrec by lia.
  unfold in_0_100 in *.
  unfold composite, w_recent, w_basic, w_distance, w_course, w_draw, w_odds,
    w_stability, w_weight.
  rewrite Hrec, <- Ho, <- Hdraw. lra.
Qed.

(** predict puts the higher-scored entrant first although it came second in
    the input, and ranks the two 1 and 2. *)
Lemma predict_reorders :
  exists ps,
    predict app_py [lone_seven; five_runs] blank_race = Ok ps
    /\ map p_horse ps = [five_runs; lone_seven]
    /\ map p_rank ps = [1; 2]%Z.
Proof.
  destruct (predict_ok app_py [lone_seven; five_runs] blank_race)
    as (ps & Hps & Hres); [discriminate |].
  exists ps. split; [exact Hps |].
  destruct Hres as [scored min_s max_s Hfield _ _ _].
  inversion Hfield as [| h1 a hs1 scs1 [Ha1 Ha2] Hrest]; subst.
  inversion Hrest as [| h2 b hs2 scs2 [Hb1 Hb2] Hnil]; subst.
  inversion Hnil; subst.
  rewrite lone_seven_score in Ha2. pose proof five_runs_score as Hfive.
  rewrite <- Hb2 in Hfive.
  unfold enumerate, sort_desc. cbn [fold_right insert_desc].
  destruct (Rlt_dec (sc_score a) (sc_score b)) as [_ | Hn]; [| lra].
  cbn [insert_desc length seq combine map ranked_entry p_horse p_rank].
  rewrite Ha1, Hb1. split; reflexivity.
Qed.

(** * Further properties of calculate_score *)

(** The result of calculate_score, with each detail tied to the block that
    computes it. *)
Lemma calculate_score_parts (f : source_file) (horse : Horse)
  (race_info : RaceInfo) (all_horses : list Horse) :
  exists s,
    calculate_score f horse race_info all_horses = Ok s
    /\ s_total s = composite f (s_details s)
    /\ d_recent (s_details s) = recent_score (h_results horse)
    /\ basic_score (h_results horse) = Ok (d_basic (s_details s))
    /\ distance_score (h_results horse) race_info
       = Ok (d_distance (s_details s))
    /\ course_score (h_results horse) race_info = Ok (d_course (s_details s))
    /\ draw_score horse race_info all_horses = Ok (d_draw (s_details s))
    /\ odds_score horse = Ok (d_odds (s_details s))
    /\ stability_score (h_results horse) = Ok (d_stability (s_details s))
    /\ weight_score horse all_horses = Ok (d_weight (s_details s)).
Proof.
  destruct (calculate_score_ok f horse race_info all_horses)
    as (s & Hs & Htot & Hrec & Hdraw & Ho & _).
  destruct (calculate_score_inv _ _ _ _ _ Hs) as (Hb & Hd & Hc & Hst & Hw).
  exists s. repeat split; assumption.
Qed.

Ltac score_parts f horse race_info all_horses s :=
  let Hs := fresh "Hs" in
  let Htot := fresh "Htot" in
  let Hrec := fresh "Hrec" in
  let Hb := fresh "Hbasic" in
  let Hd := fresh "Hdist" in
  let Hc := fresh "Hcourse" in
  let Hdr := fresh "Hdraw" in
  let Ho := fresh "Hodds" in
  let Hst := fresh "Hstab" in
  let Hw := fresh "Hweight" in
  destruct (calculate_score_parts f horse race_info all_horses)
    as (s & Hs & Htot & Hrec & Hb & Hd & Hc & Hdr & Ho & Hst & Hw).

Lemma Ok_inj {A : Type} (a b : A) : Ok a = Ok b -> a = b.
Proof. intros H. now injection H. Qed.

(** X2.  An entrant with no history, no posted odds, no program number and
    no carried weight gets 50 in each of the eight details, and a total of
    50 in either file: both weight presets sum to 1. *)
Theorem calculate_score_neutral (f : source_file) (horse : Horse)
  (race_info : RaceInfo) (all_horses : list Horse) :
  h_results horse = [] ->
  h_odds horse <= 0 ->
  h_number horse = 0%Z ->
  h_weight_carry horse = 0 ->
  exists s,
    calculate_score f horse race_info all_horses = Ok s
    /\ s_details s = mkDetails 50 50 50 50 50 50 50 50
    /\ s_total s = 50.
Proof.
  intros Hres Hodds0 Hnum Hwc.
  score_parts f horse race_info all_horses s.
  rewrite Hres in *.
  rewrite odds_score_not_posted in Hodds by assumption.
  unfold draw_score in Hdraw. rewrite Hnum in Hdraw.
  unfold weight_score in Hweight.
  assert (Ht : truthy (h_weight_carry horse) = false).
  { rewrite Hwc. unfold truthy, Reqb.
    destruct (Req_dec_T 0 0) as [_ | H]; [reflexivity | now elim H]. }
  rewrite Ht in Hweight.
  assert (Hw50 : d_weight (s_details s) = 50).
  { destruct (map h_weight_carry _) in Hweight;
      apply Ok_inj in Hweight; now symmetry. }
  cbn in Hrec, Hbasic, Hdist, Hcourse, Hdraw, Hstab.
  apply Ok_inj in Hbasic, Hdist, Hcourse, Hdraw, Hodds, Hstab.
  assert (Hd : s_details s = mkDetails 50 50 50 50 50 50 50 50).
  { destruct (s_details s); cbn in *. congruence. }
  exists s. split; [exact Hs |]. split; [exact Hd |].
  rewrite Htot, Hd. unfold composite. cbn.
  destruct f; unfold w_recent, w_basic, w_distance, w_course, w_draw, w_odds,
    w_stability, w_weight; lra.
Qed.

(** The neutral score of [blank_horse] in a field of two. *)
Lemma calculate_score_neutral_witness :
  exists s,
    calculate_score scrape_and_predict_py blank_horse blank_race
      [five_runs; blank_horse] = Ok s
    /\ s_details s = mkDetails 50 50 50 50 50 50 50 50
    /\ s_total s = 50.
Proof.
  apply (calculate_score_neutral scrape_and_predict_py blank_horse blank_race
           [five_runs; blank_horse]); reflexivity.
Defined.

Lemma recent_score_finishes (results : list RaceResult) :
  recent_score results
  = recent_of_finishes (map r_finish (firstn 5 results)).
Proof.
  destruct results as [| a [| b [| c [| d [| e rest]]]]]; reflexivity.
Qed.

(** X3.  The recent-form detail is a function of the finishing positions of
    the five most recent runs alone: two entrants that agree on them get the
    same recent-form detail, whatever their older runs, the other fields of
    their runs, the race, the field and the file. *)
Theorem recent_form_first_five (f1 f2 : source_file) (h1 h2 : Horse)
  (race1 race2 : RaceInfo) (field1 field2 : list Horse) :
  map r_finish (firstn 5 (h_results h1))
  = map r_finish (firstn 5 (h_results h2)) ->
  exists s1 s2,
    calculate_score f1 h1 race1 field1 = Ok s1
    /\ calculate_score f2 h2 race2 field2 = Ok s2
    /\ d_recent (s_details s1) = d_recent (s_details s2).
Proof.
  intros Hsame.
  score_parts f1 h1 race1 field1 s1. score_parts f2 h2 race2 field2 s2.
  exists s1, s2. split; [assumption |]. split; [assumption |].
  rewrite Hrec, Hrec0, !recent_score_finishes. now rewrite Hsame.
Qed.

(** Older runs, beyond the fifth, change nothing. *)
Lemma recent_form_first_five_witness :
  exists s1 s2,
    calculate_score app_py (with_finishes [1; 2; 1; 3; 2; 9; 18]%Z)
      blank_race [] = Ok s1
    /\ calculate_score scrape_and_predict_py five_runs blank_race [five_runs]
       = Ok s2
    /\ d_recent (s_details s1) = d_recent (s_details s2).
Proof.
  apply (recent_form_first_five app_py scrape_and_predict_py
           (with_finishes [1; 2; 1; 3; 2; 9; 18]%Z) five_runs
           blank_race blank_race [] [five_runs]).
  reflexivity.
Defined.

(** X4.  The five weights are not rescaled for a history shorter than five
    runs: with finishes of at least 1, one run gives a recent-form detail of
    at most 35, two runs at most 60, three at most 80 and four at most 92.
    An entrant with a single run, even a win, is below the 50 of an entrant
    with no run at all. *)
Theorem recent_form_short_history (f : source_file) (horse : Horse)
  (race_info : RaceInfo) (all_horses : list Horse) :
  Forall (fun r => (1 <= r_finish r)%Z) (h_results horse) ->
  exists s,
    calculate_score f horse race_info all_horses = Ok s
    /\ (length (h_results horse) = 1%nat -> d_recent (s_details s) <= 35)
    /\ (length (h_results horse) = 2%nat -> d_recent (s_details s) <= 60)
    /\ (length (h_results horse) = 3%nat -> d_recent (s_details s) <= 80)
    /\ (length (h_results horse) = 4%nat -> d_recent (s_details s) <= 92).
Proof.
  intros Hall.
  score_parts f horse race_info all_horses s.
  exists s. split; [assumption |]. rewrite Hrec.
  destruct (h_results horse) as [| a [| b [| c [| d [| e rest]]]]];
    repeat split; intros Hlen; try discriminate Hlen;
    unfold recent_score, enumerate, recent_weights; simpl;
    repeat match goal with
           | H : Forall _ (_ :: _) |- _ =>
               let Hx := fresh "Hx" in
               let Hr := fresh "Hr" in
               inversion H as [| ? ? Hx Hr]; subst; clear H;
               apply finish_score_bounds in Hx
           end;
    lra.
Qed.

(** A single win gives exactly the first weight's share, 35. *)
Lemma recent_form_short_history_witness :
  exists s,
    calculate_score app_py (with_finishes [1%Z]) blank_race [] = Ok s
    /\ d_recent (s_details s) <= 35.
Proof.
  destruct (recent_form_short_history app_py (with_finishes [1%Z]) blank_race
              [])
    as (s & Hs & H1 & _).
  - simpl. repeat constructor. simpl. lia.
  - exists s. split; [exact Hs | apply H1; reflexivity].
Defined.

(** X5.  In one race and one non-empty field the draw detail falls strictly
    as the program number rises from 1 upwards, and it is 100 for program
    number 1. *)
Theorem draw_falls_with_number (f : source_file) (h1 h2 : Horse)
  (race_info : RaceInfo) (all_horses : list Horse) :
  all_horses <> [] ->
  (1 <= h_number h1 < h_number h2)%Z ->
  exists s1 s2,
    calculate_score f h1 race_info all_horses = Ok s1
    /\ calculate_score f h2 race_info all_horses = Ok s2
    /\ d_draw (s_details s2) < d_draw (s_details s1)
    /\ (h_number h1 = 1%Z -> d_draw (s_details s1) = 100).
Proof.
  intros Hne [H1 H12].
  assert (Hlen : (0 < len all_horses)%Z).
  { destruct all_horses; [now elim Hne | apply len_cons_pos]. }
  score_parts f h1 race_info all_horses s1.
  score_parts f h2 race_info all_horses s2.
  rewrite draw_score_value in Hdraw, Hdraw0 by (try assumption; lia).
  apply Ok_inj in Hdraw, Hdraw0.
  exists s1, s2. split; [assumption |]. split; [assumption |].
  rewrite <- Hdraw, <- Hdraw0.
  set (m := Z.max (len all_horses - 1) 1).
  assert (Hm : 0 < IZR m) by (apply IZR_lt; unfold m; lia).
  assert (Hn : IZR (h_number h1 - 1) < IZR (h_number h2 - 1))
    by (apply IZR_lt; lia).
  assert (Hq : IZR (h_number h1 - 1) / IZR m < IZR (h_number h2 - 1) / IZR m).
  { unfold Rdiv. apply Rmult_lt_compat_r; [now apply Rinv_0_lt_compat | exact Hn]. }
  split.
  - destruct (ri_distance race_info <=? 1400)%Z; lra.
  - intros ->. change (1 - 1)%Z with 0%Z. unfold Rdiv. rewrite Rmult_0_l. lra.
Qed.

Lemma draw_falls_with_number_witness :
  exists s1 s2,
    calculate_score app_py (numbered 1) blank_race [numbered 1; numbered 2]
    = Ok s1
    /\ calculate_score app_py (numbered 2) blank_race
         [numbered 1; numbered 2] = Ok s2
    /\ d_draw (s_details s2) < d_draw (s_details s1)
    /\ (h_number (numbered 1) = 1%Z -> d_draw (s_details s1) = 100).
Proof.
  apply (draw_falls_with_number app_py (numbered 1) (numbered 2) blank_race
           [numbered 1; numbered 2]).
  - discriminate.
  - simpl. lia.
Defined.

Lemma ln_le (x y : R) : 0 < x -> x <= y -> ln x <= ln y.
Proof.
  intros Hx [Hlt | ->]; [left; now apply ln_increasing | right; reflexivity].
Qed.

(** X6.  Among posted odds the odds detail never rises with the odds: the
    longer the price, the lower the detail, down to 0 from odds of
    e^(100/18) (about 258) on. *)
Theorem odds_detail_antitone (f : source_file) (h1 h2 : Horse)
  (race_info : RaceInfo) (all_horses : list Horse) :
  0 < h_odds h1 <= h_odds h2 ->
  exists s1 s2,
    calculate_score f h1 race_info all_horses = Ok s1
    /\ calculate_score f h2 race_info all_horses = Ok s2
    /\ d_odds (s_details s2) <= d_odds (s_details s1)
    /\ (exp (100 / 18) <= h_odds h2 -> d_odds (s_details s2) = 0).
Proof.
  intros [H1 H12].
  score_parts f h1 race_info all_horses s1.
  score_parts f h2 race_info all_horses s2.
  rewrite odds_score_posted in Hodds, Hodds0 by lra.
  apply Ok_inj in Hodds, Hodds0.
  exists s1, s2. split; [assumption |]. split; [assumption |].
  rewrite <- Hodds, <- Hodds0.
  pose proof (ln_le _ _ H1 H12) as Hln.
  split.
  - apply Rmax_lub; [apply Rmax_l |].
    eapply Rle_trans; [| apply Rmax_r]. lra.
  - intros Hbig.
    assert (Hl : 100 / 18 <= ln (h_odds h2)).
    { rewrite <- (ln_exp (100 / 18)). apply ln_le; [apply exp_pos | exact Hbig]. }
    apply Rmax_left. lra.
Qed.

Lemma odds_detail_antitone_witness :
  exists s1 s2,
    calculate_score app_py (priced 2) blank_race [] = Ok s1
    /\ calculate_score app_py (priced 3) blank_race [] = Ok s2
    /\ d_odds (s_details s2) <= d_odds (s_details s1)
    /\ (exp (100 / 18) <= h_odds (priced 3) -> d_odds (s_details s2) = 0).
Proof.
  apply (odds_detail_antitone app_py (priced 2) (priced 3) blank_race []).
  simpl. lra.
Defined.

Lemma py_sum_map_const {A : Type} (g : A -> R) (c : R) (l : list A) :
  (forall a, In a l -> g a = c) ->
  py_sum (map g l) = INR (length l) * c.
Proof.
  intros H. rewrite (map_ext_in g (fun _ => c) l H). apply py_sum_const.
Qed.

Lemma IZR_len {A : Type} (l : list A) : IZR (len l) = INR (length l).
Proof. unfold len. symmetry. apply INR_IZR_INZ. Qed.

(** The standard deviation of two or more equal numbers is 0. *)
Lemma stdev_constant (data : list Z) (c : Z) :
  (2 <= len data)%Z -> Forall (fun x => x = c) data -> stdev data = Ok 0.
Proof.
  intros Hlen Hall. rewrite Forall_forall in Hall.
  unfold stdev.
  destruct (len data <? 2)%Z eqn:E; [apply Z.ltb_lt in E; lia |].
  assert (Hn : 0 < INR (length data)).
  { apply lt_0_INR. unfold len in Hlen. lia. }
  rewrite fdiv_ok by (rewrite IZR_len; lra). cbn [bind].
  rewrite fdiv_ok by (apply not_0_IZR; lia). cbn [bind].
  rewrite (py_sum_map_const IZR (IZR c))
    by (intros x Hx; now rewrite (Hall x Hx)).
  rewrite IZR_len.
  replace (INR (length data) * IZR c / INR (length data)) with (IZR c)
    by (field; lra).
  rewrite (py_sum_map_const _ 0)
    by (intros x Hx; rewrite (Hall x Hx); lra).
  rewrite Rmult_0_r. unfold Rdiv. rewrite Rmult_0_l. now rewrite sqrt_0.
Qed.

(** X7.  An entrant with at least three runs whose ten most recent finishes
    are all the same position has a consistency detail of exactly 100. *)
Theorem stability_of_constant_finishes (f : source_file) (horse : Horse)
  (race_info : RaceInfo) (all_horses : list Horse) (c : Z) :
  (3 <= len (h_results horse))%Z ->
  Forall (fun r => r_finish r = c) (firstn 10 (h_results horse)) ->
  exists s,
    calculate_score f horse race_info all_horses = Ok s
    /\ d_stability (s_details s) = 100.
Proof.
  intros Hlen Hall.
  score_parts f horse race_info all_horses s.
  exists s. split; [assumption |].
  unfold stability_score in Hstab.
  apply Z.leb_le in Hlen. rewrite Hlen in Hstab. apply Z.leb_le in Hlen.
  set (finishes := map r_finish (firstn 10 (h_results horse))) in *.
  assert (Hlen' : (3 <= len finishes)%Z).
  { unfold finishes, len in *. rewrite length_map, length_firstn. lia. }
  assert (H1 : (1 <? len finishes)%Z = true) by (apply Z.ltb_lt; lia).
  rewrite H1 in Hstab.
  rewrite (stdev_constant finishes c) in Hstab.
  - cbn [bind] in Hstab. apply Ok_inj in Hstab. rewrite <- Hstab.
    rewrite Rmax_right; lra.
  - lia.
  - unfold finishes. apply Forall_map. exact Hall.
Qed.

Lemma stability_of_constant_finishes_witness :
  exists s,
    calculate_score app_py (with_finishes [4; 4; 4]%Z) blank_race [] = Ok s
    /\ d_stability (s_details s) = 100.
Proof.
  apply (stability_of_constant_finishes app_py (with_finishes [4; 4; 4]%Z)
           blank_race [] 4%Z).
  - unfold len. simpl. lia.
  - simpl. repeat constructor.
Defined.

(** X9.  In one field, of two entrants with a recorded weight the one that
    carries more never gets the higher weight detail. *)
Theorem weight_detail_antitone (f : source_file) (h1 h2 : Horse)
  (race_info : RaceInfo) (all_horses : list Horse) :
  h_weight_carry h1 <> 0 ->
  h_weight_carry h2 <> 0 ->
  h_weight_carry h1 <= h_weight_carry h2 ->
  exists s1 s2,
    calculate_score f h1 race_info all_horses = Ok s1
    /\ calculate_score f h2 race_info all_horses = Ok s2
    /\ d_weight (s_details s2) <= d_weight (s_details s1).
Proof.
  intros Hw1 Hw2 Hle.
  score_parts f h1 race_info all_horses s1.
  score_parts f h2 race_info all_horses s2.
  exists s1, s2. split; [assumption |]. split; [assumption |].
  unfold weight_score in Hweight, Hweight0.
  apply truthy_true in Hw1, Hw2. rewrite Hw1 in Hweight. rewrite Hw2 in Hweight0.
  destruct (map h_weight_carry
              (filter (fun h => Rgtb (h_weight_carry h) 0) all_horses))
    as [| w ws].
  - apply Ok_inj in Hweight, Hweight0. lra.
  - destruct (fdiv (py_sum (w :: ws)) (IZR (len (w :: ws)))) as [avg | e];
      [| discriminate].
    cbn [bind] in Hweight, Hweight0.
    apply Ok_inj in Hweight, Hweight0. rewrite <- Hweight, <- Hweight0.
    apply Rmax_lub; [apply Rmax_l |].
    eapply Rle_trans; [| apply Rmax_r].
    apply Rmin_glb; [apply Rmin_l |].
    eapply Rle_trans; [apply Rmin_r |]. lra.
Qed.

Lemma weight_detail_antitone_witness :
  exists s1 s2,
    calculate_score app_py (loaded 54) blank_race [loaded 54; loaded 58]
    = Ok s1
    /\ calculate_score app_py (loaded 58) blank_race [loaded 54; loaded 58]
       = Ok s2
    /\ d_weight (s_details s2) <= d_weight (s_details s1).
Proof.
  apply (weight_detail_antitone app_py (loaded 54) (loaded 58) blank_race
           [loaded 54; loaded 58]); simpl; lra.
Defined.

Lemma count_if_all {A : Type} (p : A -> bool) (l : list A) :
  count_if p l = len l <-> Forall (fun a => p a = true) l.
Proof.
  unfold count_if, len. induction l as [| a l IH]; simpl.
  - split; [constructor | reflexivity].
  - pose proof (filter_length_le p l) as Hle.
    destruct (p a) eqn:E; simpl; split; intros H.
    + constructor; [exact E | apply IH; lia].
    + inversion H; subst. apply IH in H3. lia.
    + lia.
    + inversion H; subst. congruence.
Qed.

Lemma count_if_none {A : Type} (p : A -> bool) (l : list A) :
  count_if p l = 0%Z <-> Forall (fun a => p a = false) l.
Proof.
  unfold count_if, len. induction l as [| a l IH]; simpl.
  - split; [constructor | reflexivity].
  - destruct (p a) eqn:E; simpl; split; intros H.
    + lia.
    + inversion H; subst. congruence.
    + constructor; [exact E | now apply IH].
    + inversion H; subst. now apply IH.
Qed.

Lemma win_is_place (results : list RaceResult) :
  (count_if (fun r => (r_finish r =? 1)%Z) results
   <= count_if is_place results)%Z.
Proof.
  unfold count_if, len. induction results as [| r l IH]; simpl; [lia |].
  unfold is_place at 1.
  destruct (r_finish r =? 1)%Z eqn:E1.
  - apply Z.eqb_eq in E1. rewrite E1. simpl. lia.
  - destruct (r_finish r <=? 3)%Z; simpl; lia.
Qed.

(** X10.  For an entrant with at least one run, the win/place detail is 100
    exactly when every run is a win, and 0 exactly when no run finished in
    the first three. *)
Theorem basic_detail_extremes (f : source_file) (horse : Horse)
  (race_info : RaceInfo) (all_horses : list Horse) :
  h_results horse <> [] ->
  exists s,
    calculate_score f horse race_info all_horses = Ok s
    /\ (d_basic (s_details s) = 100
        <-> Forall (fun r => r_finish r = 1%Z) (h_results horse))
    /\ (d_basic (s_details s) = 0
        <-> Forall (fun r => (3 < r_finish r)%Z) (h_results horse)).
Proof.
  intros Hne.
  score_parts f horse race_info all_horses s.
  exists s. split; [assumption |].
  destruct (h_results horse) as [| r0 rs] eqn:Eres; [now elim Hne |].
  set (results := r0 :: rs) in *.
  unfold basic_score in Hbasic. fold results in Hbasic.
  pose proof (len_cons_pos r0 rs) as Hlen. fold results in Hlen.
  rewrite !truediv_ok in Hbasic by lia. cbn [bind] in Hbasic.
  apply Ok_inj in Hbasic. rewrite <- Hbasic.
  set (wins := count_if (fun r => (r_finish r =? 1)%Z) results).
  set (places := count_if is_place results).
  pose proof (win_is_place results) as Hwp. fold wins places in Hwp.
  pose proof (count_if_bounds is_place results) as [Hp0 Hpn].
  pose proof (count_if_bounds (fun r => (r_finish r =? 1)%Z) results)
    as [Hw0 Hwn].
  fold wins in Hw0, Hwn. fold places in Hp0, Hpn.
  assert (Hn : 0 < IZR (len results)) by (apply IZR_lt; lia).
  assert (Hval : IZR wins / IZR (len results) * 50
                 + IZR places / IZR (len results) * 50
                 = (IZR wins + IZR places) * 50 / IZR (len results))
    by (field; lra).
  rewrite Hval.
  assert (HW : IZR wins <= IZR places) by (apply IZR_le; lia).
  assert (HP : IZR places <= IZR (len results)) by (apply IZR_le; lia).
  assert (HW0 : 0 <= IZR wins) by (apply IZR_le; lia).
  split; split; intros H.
  - assert (Hw : IZR wins = IZR (len results)).
    { apply (Rmult_eq_compat_r (IZR (len results))) in H.
      unfold Rdiv in H. rewrite Rmult_assoc, Rinv_l in H by lra. nra. }
    apply eq_IZR in Hw. apply count_if_all in Hw.
    eapply Forall_impl; [| exact Hw]. intros r. apply Z.eqb_eq.
  - assert (Hw : wins = len results).
    { apply count_if_all. eapply Forall_impl; [| exact H].
      intros r. apply Z.eqb_eq. }
    assert (Hp : places = len results) by lia.
    rewrite Hw, Hp. field. lra.
  - assert (Hp : IZR places = 0).
    { apply (Rmult_eq_compat_r (IZR (len results))) in H.
      unfold Rdiv in H. rewrite Rmult_assoc, Rinv_l in H by lra. nra. }
    apply eq_IZR in Hp. apply count_if_none in Hp.
    eapply Forall_impl; [| exact Hp]. intros r. unfold is_place.
    apply Z.leb_gt.
  - assert (Hp : places = 0%Z).
    { apply count_if_none. eapply Forall_impl; [| exact H].
      intros r. unfold is_place. apply Z.leb_gt. }
    assert (Hw : wins = 0%Z) by lia.
    rewrite Hw, Hp. field. lra.
Qed.

Lemma basic_detail_extremes_witness :
  exists s,
    calculate_score app_py (with_finishes [1; 1]%Z) blank_race [] = Ok s
    /\ (d_basic (s_details s) = 100
        <-> Forall (fun r => r_finish r = 1%Z)
                   (h_results (with_finishes [1; 1]%Z)))
    /\ (d_basic (s_details s) = 0
        <-> Forall (fun r => (3 < r_finish r)%Z)
                   (h_results (with_finishes [1; 1]%Z))).
Proof.
  apply (basic_detail_extremes app_py (with_finishes [1; 1]%Z) blank_race []).
  discriminate.
Defined.

(** * Further properties of predict *)

Lemma norm_of_range (min_s max_s s : R) :
  min_s <= s <= max_s -> 0 <= norm_of min_s max_s s <= 1.
Proof.
  intros [Hlo Hhi]. unfold norm_of.
  destruct (Rgtb max_s min_s) eqn:E; [| lra].
  apply Rgtb_true in E.
  assert (Hd : 0 < / (max_s - min_s)) by (apply Rinv_0_lt_compat; lra).
  unfold Rdiv. split.
  - apply Rmult_le_pos; lra.
  - apply Rmult_le_reg_r with (max_s - min_s); [lra |].
    rewrite Rmult_assoc, Rinv_l by lra. lra.
Qed.

Lemma norm_of_monotone (min_s max_s a b : R) :
  b <= a -> norm_of min_s max_s b <= norm_of min_s max_s a.
Proof.
  intros Hba. unfold norm_of.
  destruct (Rgtb max_s min_s) eqn:E; [| lra].
  apply Rgtb_true in E. unfold Rdiv.
  apply Rmult_le_compat_r; [left; apply Rinv_0_lt_compat; lra | lra].
Qed.

Lemma norm_of_top (min_s max_s s : R) :
  min_s < max_s -> (norm_of min_s max_s s = 1 <-> s = max_s).
Proof.
  intros Hlt. unfold norm_of.
  assert (E : Rgtb max_s min_s = true) by (now apply Rgtb_true).
  rewrite E. split; intros H.
  - apply (Rmult_eq_compat_r (max_s - min_s)) in H.
    unfold Rdiv in H. rewrite Rmult_assoc, Rinv_l in H by lra. lra.
  - subst s. field. lra.
Qed.

Lemma norm_of_bottom (min_s max_s s : R) :
  min_s < max_s -> (norm_of min_s max_s s = 0 <-> s = min_s).
Proof.
  intros Hlt. unfold norm_of.
  assert (E : Rgtb max_s min_s = true) by (now apply Rgtb_true).
  rewrite E. split; intros H.
  - apply (Rmult_eq_compat_r (max_s - min_s)) in H.
    unfold Rdiv in H. rewrite Rmult_assoc, Rinv_l in H by lra. lra.
  - subst s. unfold Rdiv. lra.
Qed.

Lemma ranked_of (min_s max_s total_exp : R) (l : list Scored) (sc : Scored) :
  In sc l ->
  forall k,
    exists i,
      In (ranked_entry min_s max_s total_exp (i, sc))
         (map (ranked_entry min_s max_s total_exp)
              (combine (seq k (length l)) l)).
Proof.
  induction l as [| a l IH]; intros Hin k; [destruct Hin |].
  cbn [length seq combine map].
  destruct Hin as [-> | Hin].
  - exists k. now left.
  - destruct (IH Hin (S k)) as [i Hi]. exists i. now right.
Qed.

(** The facts about a forecast the properties below start from. *)
Lemma predict_facts (f : source_file) (horses : list Horse)
  (race_info : RaceInfo) :
  horses <> [] ->
  exists ps sorted min_s max_s total_exp,
    predict f horses race_info = Ok ps
    /\ ps = map (ranked_entry min_s max_s total_exp) (enumerate sorted)
    /\ total_exp = py_sum (map (exp_of min_s max_s) sorted)
    /\ 0 < total_exp
    /\ length sorted = length horses
    /\ StronglySorted desc sorted
    /\ In min_s (map sc_score sorted)
    /\ In max_s (map sc_score sorted)
    /\ Forall (fun p => min_s <= sc_score p <= max_s) sorted.
Proof.
  intros Hne.
  destruct (predict_ok f horses race_info Hne) as (ps & Hps & Hres).
  destruct Hres as [scored min_s max_s Hfield Hmin Hmax Hbounds].
  pose proof (sort_desc_perm scored) as Hperm.
  eexists. exists (sort_desc scored), min_s, max_s. eexists.
  split; [exact Hps |]. split; [reflexivity |]. split; [reflexivity |].
  split.
  { apply exp_sum_pos. eapply predict_result_nonempty; eassumption. }
  split.
  { rewrite (Permutation_length Hperm).
    eapply scored_field_length; exact Hfield. }
  split; [apply sort_desc_sorted |].
  split.
  { eapply Permutation_in; [| exact Hmin].
    apply Permutation_map, Permutation_sym, Hperm. }
  split.
  { eapply Permutation_in; [| exact Hmax].
    apply Permutation_map, Permutation_sym, Hperm. }
  eapply Permutation_Forall; [apply Permutation_sym, Hperm | exact Hbounds].
Qed.

(** X11.  Every normalized score of a forecast lies in [0,1].  When the
    entrants do not all score the same, an entry that no entry outscores
    has normalized score 1, and an entry that outscores none has
    normalized score 0. *)
Theorem predict_norm_range (f : source_file) (horses : list Horse)
  (race_info : RaceInfo) :
  horses <> [] ->
  exists ps,
    predict f horses race_info = Ok ps
    /\ length ps = length horses
    /\ Forall (fun p => 0 <= p_norm_score p <= 1) ps
    /\ ((exists a b, In a ps /\ In b ps /\ p_score a < p_score b) ->
        forall p, In p ps ->
          ((forall q, In q ps -> p_score q <= p_score p) ->
           p_norm_score p = 1)
          /\ ((forall q, In q ps -> p_score p <= p_score q) ->
              p_norm_score p = 0)).
Proof.
  intros Hne.
  destruct (predict_facts f horses race_info Hne)
    as (ps & sorted & min_s & max_s & total & Hps & -> & _ & _ & Hlen & _
        & Hmin & Hmax & Hb).
  rewrite Forall_forall in Hb.
  eexists. split; [exact Hps |]. unfold enumerate. split; [| split].
  - now rewrite length_map, length_combine, length_seq, Nat.min_id.
  - apply Forall_forall. intros p Hp.
    apply ranked_in in Hp. destruct Hp as (i & sc & Hsc & ->). cbn.
    apply norm_of_range. now apply Hb.
  - intros (a & b & Ha & Hb' & Hab) p Hp.
    apply ranked_in in Ha. destruct Ha as (ia & sa & Hsa & ->).
    apply ranked_in in Hb'. destruct Hb' as (ib & sb & Hsb & ->).
    apply ranked_in in Hp. destruct Hp as (i & sc & Hsc & ->).
    cbn in Hab. cbn [ranked_entry p_norm_score p_score].
    assert (Hlt : min_s < max_s).
    { destruct (Hb sa Hsa), (Hb sb Hsb). lra. }
    apply in_map_iff in Hmin. destruct Hmin as (smin & Emin & Hsmin).
    apply in_map_iff in Hmax. destruct Hmax as (smax & Emax & Hsmax).
    rewrite (norm_of_top _ _ _ Hlt), (norm_of_bottom _ _ _ Hlt).
    split.
    + intros Hall.
      destruct (ranked_of min_s max_s total sorted smax Hsmax 0) as [j Hj].
      specialize (Hall _ Hj). cbn in Hall.
      destruct (Hb sc Hsc). lra.
    + intros Hall.
      destruct (ranked_of min_s max_s total sorted smin Hsmin 0) as [j Hj].
      specialize (Hall _ Hj). cbn in Hall.
      destruct (Hb sc Hsc). lra.
Qed.

Lemma predict_norm_range_witness :
  exists ps,
    predict app_py [lone_seven; five_runs] blank_race = Ok ps
    /\ length ps = length [lone_seven; five_runs]
    /\ Forall (fun p => 0 <= p_norm_score p <= 1) ps
    /\ ((exists a b, In a ps /\ In b ps /\ p_score a < p_score b) ->
        forall p, In p ps ->
          ((forall q, In q ps -> p_score q <= p_score p) ->
           p_norm_score p = 1)
          /\ ((forall q, In q ps -> p_score p <= p_score q) ->
              p_norm_score p = 0)).
Proof.
  apply (predict_norm_range app_py [lone_seven; five_runs] blank_race).
  discriminate.
Defined.

Lemma StronglySorted_weaken {A : Type} (R1 R2 : A -> A -> Prop) (l : list A) :
  (forall a b, In a l -> In b l -> R1 a b -> R2 a b) ->
  StronglySorted R1 l -> StronglySorted R2 l.
Proof.
  intros Himp Hs. induction Hs as [| a l Hl IH Ha].
  - constructor.
  - constructor.
    + apply IH. intros x y Hx Hy. apply Himp; now right.
    + rewrite Forall_forall in *. intros b Hb.
      apply Himp; [now left | now right | now apply Ha].
Qed.

Lemma exp_monotone (x y : R) : x <= y -> exp x <= exp y.
Proof.
  intros [Hlt | ->]; [left; now apply exp_increasing | right; reflexivity].
Qed.

(** X12.  Down the forecast the win probabilities never rise, so the entry
    ranked first has the largest one; entries of equal composite score have
    equal win probabilities. *)
Theorem predict_probabilities_sorted (f : source_file) (horses : list Horse)
  (race_info : RaceInfo) :
  horses <> [] ->
  exists ps,
    predict f horses race_info = Ok ps
    /\ StronglySorted prob_desc ps
    /\ forall p q, In p ps -> In q ps -> p_score p = p_score q ->
                   p_win_prob p = p_win_prob q.
Proof.
  intros Hne.
  destruct (predict_facts f horses race_info Hne)
    as (ps & sorted & min_s & max_s & total & Hps & -> & _ & Htot & _
        & Hsorted & _ & _ & _).
  eexists. split; [exact Hps |].
  pose proof temperature_pos as Ht.
  assert (Hmono : forall a b : Scored,
            sc_score b <= sc_score a ->
            exp_of min_s max_s b / total <= exp_of min_s max_s a / total).
  { intros a b Hba. unfold Rdiv.
    apply Rmult_le_compat_r; [left; now apply Rinv_0_lt_compat |].
    unfold exp_of. apply exp_monotone. unfold Rdiv.
    apply Rmult_le_compat_r; [left; now apply Rinv_0_lt_compat |].
    now apply norm_of_monotone. }
  unfold enumerate. split.
  - apply (StronglySorted_weaken forecast_desc);
      [| now apply ranked_sorted].
    intros p q Hp Hq Hpq.
    apply ranked_in in Hp. destruct Hp as (i & a & _ & ->).
    apply ranked_in in Hq. destruct Hq as (j & b & _ & ->).
    unfold prob_desc, forecast_desc in *. cbn in *. now apply Hmono.
  - intros p q Hp Hq Heq.
    apply ranked_in in Hp. destruct Hp as (i & a & _ & ->).
    apply ranked_in in Hq. destruct Hq as (j & b & _ & ->).
    cbn in *. apply Rle_antisym; apply Hmono; lra.
Qed.

Lemma predict_probabilities_sorted_witness :
  exists ps,
    predict app_py [lone_seven; five_runs; lone_seven] blank_race = Ok ps
    /\ StronglySorted prob_desc ps
    /\ forall p q, In p ps -> In q ps -> p_score p = p_score q ->
                   p_win_prob p = p_win_prob q.
Proof.
  apply (predict_probabilities_sorted app_py
           [lone_seven; five_runs; lone_seven] blank_race).
  discriminate.
Defined.

Lemma div_le_scaled (x y z t : R) :
  0 < t -> x <= y * z -> x / t <= y * (z / t).
Proof.
  intros Ht H. unfold Rdiv. rewrite <- Rmult_assoc.
  apply Rmult_le_compat_r; [left; now apply Rinv_0_lt_compat | exact H].
Qed.

(** X13.  However far apart the composite scores are, no entrant's win
    probability exceeds e^(1/0.3) (about 28) times another's: the scores
    are squeezed into [0,1] before the softmax. *)
Theorem predict_probability_ratio (f : source_file) (horses : list Horse)
  (race_info : RaceInfo) :
  horses <> [] ->
  exists ps,
    predict f horses race_info = Ok ps
    /\ forall p q, In p ps -> In q ps ->
                   p_win_prob p <= exp (1 / temperature) * p_win_prob q.
Proof.
  intros Hne.
  destruct (predict_facts f horses race_info Hne)
    as (ps & sorted & min_s & max_s & total & Hps & -> & _ & Htot & _
        & _ & _ & _ & Hb).
  rewrite Forall_forall in Hb.
  eexists. split; [exact Hps |]. unfold enumerate.
  intros p q Hp Hq.
  apply ranked_in in Hp. destruct Hp as (i & a & Ha & ->).
  apply ranked_in in Hq. destruct Hq as (j & b & Hb' & ->).
  cbn. unfold exp_of.
  pose proof temperature_pos as Ht.
  pose proof (norm_of_range min_s max_s _ (Hb a Ha)) as [_ Ha1].
  pose proof (norm_of_range min_s max_s _ (Hb b Hb')) as [Hb0 _].
  assert (He : exp (norm_of min_s max_s (sc_score a) / temperature)
               <= exp (1 / temperature)
                  * exp (norm_of min_s max_s (sc_score b) / temperature)).
  { rewrite <- exp_plus. apply exp_monotone.
    unfold Rdiv. rewrite <- Rmult_plus_distr_r.
    apply Rmult_le_compat_r; [left; now apply Rinv_0_lt_compat | lra]. }
  now apply div_le_scaled.
Qed.

Lemma predict_probability_ratio_witness :
  exists ps,
    predict app_py [lone_seven; five_runs] blank_race = Ok ps
    /\ forall p q, In p ps -> In q ps ->
                   p_win_prob p <= exp (1 / temperature) * p_win_prob q.
Proof.
  apply (predict_probability_ratio app_py [lone_seven; five_runs] blank_race).
  discriminate.
Defined.

Lemma py_sum_ge_member (l : list R) (x : R) :
  Forall (fun y => 0 < y) l -> In x l -> x <= py_sum l.
Proof.
  induction 1 as [| y l Hy Hl IH]; intros Hin; [destruct Hin |].
  rewrite py_sum_cons.
  assert (0 <= py_sum l).
  { apply py_sum_nonneg. eapply Forall_impl; [| exact Hl]. simpl; intros; lra. }
  destruct Hin as [-> | Hin]; [lra | specialize (IH Hin); lra].
Qed.

Lemma py_sum_gt_member (l : list R) (x : R) :
  Forall (fun y => 0 < y) l -> (2 <= length l)%nat -> In x l -> x < py_sum l.
Proof.
  intros Hall Hlen Hin.
  destruct Hall as [| y l Hy Hl]; [destruct Hin |].
  rewrite py_sum_cons.
  destruct Hin as [-> | Hin].
  - assert (0 < py_sum l); [| lra].
    apply py_sum_pos; [| exact Hl]. destruct l; [simpl in Hlen; lia | discriminate].
  - pose proof (py_sum_ge_member l x Hl Hin). lra.
Qed.

(** X14.  A lone entrant is given win probability 1; in a field of two or
    more every win probability is strictly below 1. *)
Theorem predict_probability_below_one (f : source_file) (horses : list Horse)
  (race_info : RaceInfo) :
  horses <> [] ->
  exists ps,
    predict f horses race_info = Ok ps
    /\ (length horses = 1%nat -> Forall (fun p => p_win_prob p = 1) ps)
    /\ ((2 <= length horses)%nat -> Forall (fun p => p_win_prob p < 1) ps).
Proof.
  intros Hne.
  destruct (predict_facts f horses race_info Hne)
    as (ps & sorted & min_s & max_s & total & Hps & -> & Etot & Htot & Hlen
        & _ & _ & _ & _).
  eexists. split; [exact Hps |]. unfold enumerate.
  assert (Hpos : Forall (fun y => 0 < y) (map (exp_of min_s max_s) sorted)).
  { apply Forall_map, Forall_forall. intros p _. apply exp_pos. }
  split; intros Hn; apply Forall_forall; intros p Hp;
    apply ranked_in in Hp; destruct Hp as (i & a & Ha & ->); cbn.
  - rewrite Hn in Hlen.
    destruct sorted as [| b [| c rest]]; try discriminate Hlen.
    destruct Ha as [<- | []].
    rewrite Etot. cbn [map]. rewrite py_sum_cons, py_sum_nil.
    pose proof (exp_pos (norm_of min_s max_s (sc_score b) / temperature)).
    unfold exp_of. field. lra.
  - assert (Hlt : exp_of min_s max_s a < total).
    { rewrite Etot. apply py_sum_gt_member.
      - exact Hpos.
      - rewrite length_map. lia.
      - now apply in_map. }
    apply Rmult_lt_reg_r with total; [exact Htot |].
    unfold Rdiv. rewrite Rmult_assoc, Rinv_l by lra. lra.
Qed.

Lemma predict_probability_below_one_witness :
  exists ps,
    predict app_py [lone_seven] blank_race = Ok ps
    /\ (length [lone_seven] = 1%nat -> Forall (fun p => p_win_prob p = 1) ps)
    /\ ((2 <= length [lone_seven])%nat ->
        Forall (fun p => p_win_prob p < 1) ps).
Proof.
  apply (predict_probability_below_one app_py [lone_seven] blank_race).
  discriminate.
Defined.

(** X15.  In a forecast the expected value of an entry is its win
    probability times the odds of its horse when those odds are positive,
    and 0 otherwise; so it is never negative, and it is positive exactly
    for the entrants with positive odds. *)
Theorem predict_expected_value (f : source_file) (horses : list Horse)
  (race_info : RaceInfo) :
  horses <> [] ->
  exists ps,
    predict f horses race_info = Ok ps
    /\ Forall (fun p =>
                 (0 < h_odds (p_horse p) ->
                  p_expected_value p = p_win_prob p * h_odds (p_horse p))
                 /\ (h_odds (p_horse p) <= 0 -> p_expected_value p = 0)
                 /\ (0 < p_expected_value p <-> 0 < h_odds (p_horse p)))
              ps.
Proof.
  intros Hne.
  destruct (predict_facts f horses race_info Hne)
    as (ps & sorted & min_s & max_s & total & Hps & -> & _ & Htot & _
        & _ & _ & _ & _).
  eexists. split; [exact Hps |]. unfold enumerate.
  apply Forall_forall. intros p Hp.
  apply ranked_in in Hp. destruct Hp as (i & a & _ & ->).
  cbn [ranked_entry p_horse p_expected_value p_win_prob].
  set (odds := h_odds (sc_horse a)).
  assert (Hw : 0 < exp_of min_s max_s a / total).
  { apply Rdiv_lt_0_compat; [apply exp_pos | exact Htot]. }
  unfold expected_value_of.
  destruct (Rlt_dec 0 odds) as [Hpos | Hnpos].
  - assert (E1 : truthy odds = true) by (apply truthy_true; lra).
    assert (E2 : Rgtb odds 0 = true) by (now apply Rgtb_true).
    rewrite E1, E2. cbn [andb].
    repeat split; intros; try lra.
    apply Rmult_lt_0_compat; assumption.
  - assert (E2 : Rgtb odds 0 = false) by (apply Rgtb_false; lra).
    rewrite E2, andb_false_r.
    repeat split; intros; lra.
Qed.

Lemma predict_expected_value_witness :
  exists ps,
    predict app_py [odds_on; lone_seven] blank_race = Ok ps
    /\ Forall (fun p =>
                 (0 < h_odds (p_horse p) ->
                  p_expected_value p = p_win_prob p * h_odds (p_horse p))
                 /\ (h_odds (p_horse p) <= 0 -> p_expected_value p = 0)
                 /\ (0 < p_expected_value p <-> 0 < h_odds (p_horse p)))
              ps.
Proof.
  apply (predict_expected_value app_py [odds_on; lone_seven] blank_race).
  discriminate.
Defined.

(** * Further properties of the extractors *)

Lemma take_decimals_spec (n : nat) (cs : list N) :
  Forall (fun d => 0 <= d <= 9)%Z (take_decimals n cs)
  /\ (length (take_decimals n cs) <= n)%nat.
Proof.
  revert cs. induction n as [| n IH]; intros cs.
  - destruct cs; simpl; split; auto.
  - destruct cs as [| c cs]; simpl; [split; [constructor | lia] |].
    destruct (decimal_value c) as [d |] eqn:E; simpl;
      [| split; [constructor | lia]].
    destruct (IH cs) as [H1 H2]. split; [| lia].
    constructor; [now apply (decimal_value_range c) | exact H1].
Qed.

Lemma int_of_decimals_from_bound (ds : list Z) (acc : Z) :
  Forall (fun d => 0 <= d <= 9)%Z ds -> (0 <= acc)%Z ->
  (0 <= fold_left (fun acc d => acc * 10 + d) ds acc
   <= acc * 10 ^ Z.of_nat (length ds) + 10 ^ Z.of_nat (length ds) - 1)%Z.
Proof.
  intros H. revert acc. induction H as [| d ds Hd _ IH]; intros acc Hacc.
  - simpl. lia.
  - cbn [fold_left length].
    specialize (IH (acc * 10 + d)%Z ltac:(lia)).
    rewrite Nat2Z.inj_succ, Z.pow_succ_r by lia.
    assert (0 < 10 ^ Z.of_nat (length ds))%Z
      by (apply Z.pow_pos_nonneg; lia).
    nia.
Qed.

(** Up to four digits spell a number from 0 to 9999. *)
Lemma four_digits_bound (n : nat) (cs : list N) :
  (n <= 4)%nat -> (0 <= int_of_decimals (take_decimals n cs) <= 9999)%Z.
Proof.
  intros Hn. destruct (take_decimals_spec n cs) as [Hall Hlen].
  pose proof (int_of_decimals_from_bound _ 0%Z Hall ltac:(lia)) as Hb.
  unfold int_of_decimals.
  assert (10 ^ Z.of_nat (length (take_decimals n cs)) <= 10 ^ 4)%Z
    by (apply Z.pow_le_mono_r; lia).
  lia.
Qed.

Lemma re_search_some {A : Type} (match_at : list N -> option A)
  (cs : list N) (a : A) :
  re_search match_at cs = Some a -> exists cs', match_at cs' = Some a.
Proof.
  induction cs as [| c cs IH]; simpl.
  - destruct (match_at []) eqn:E; [| discriminate].
    intros H. exists []. congruence.
  - destruct (match_at (c :: cs)) eqn:E.
    + intros H. exists (c :: cs). congruence.
    + exact IH.
Qed.

Lemma match_surface_distance_some (cs : list N) (g : N) (d : Z) :
  match_surface_distance cs = Some (g, d) ->
  In g [turf_char; dirt_char; jump_char] /\ (0 <= d <= 9999)%Z.
Proof.
  unfold match_surface_distance. destruct cs as [| g' cs]; [discriminate |].
  destruct (existsb (N.eqb g') [turf_char; dirt_char; jump_char]) eqn:Eg;
    [| discriminate].
  apply existsb_exists in Eg. destruct Eg as (x & Hx & Ex).
  apply N.eqb_eq in Ex. subst x.
  pose proof (four_digits_bound 4 cs (le_n 4)) as Hb.
  revert Hb. generalize (take_decimals 4 cs) as ds. intros ds Hb.
  destruct (3 <=? length ds)%nat; [| discriminate].
  intros H. injection H as <- <-. split; assumption.
Qed.

Lemma match_meters_some (cs : list N) (d : Z) :
  match_meters cs = Some d -> (0 <= d <= 9999)%Z.
Proof.
  unfold match_meters.
  pose proof (four_digits_bound 4 cs (le_n 4)) as H4.
  pose proof (four_digits_bound 3 cs ltac:(lia)) as H3.
  revert H4 H3.
  generalize (take_decimals 4 cs) as d4. generalize (take_decimals 3 cs) as d3.
  intros d3 d4 H4 H3.
  destruct (_ && _)%bool.
  - intros H. now injection H as <-.
  - destruct (_ && _)%bool; [| discriminate].
    intros H. now injection H as <-.
Qed.

Lemma filter_map_length {A B : Type} (g : A -> option B) (l : list A) :
  (length (filter_map g l) <= length l)%nat.
Proof.
  induction l as [| a l IH]; simpl; [lia |].
  destruct (g a); simpl; lia.
Qed.

(** X16.  parse_horse_history returns at most 20 runs, and none when the
    page has neither results table.  When the table it reads has at most 20
    rows, every row that parses to a run is returned. *)
Theorem parse_horse_history_capped (py_float : string -> option R)
  (page : HistoryPage) :
  (length (parse_horse_history py_float page) <= 20)%nat
  /\ (hp_db_h_race_results page = None -> hp_nk_tb_common page = None ->
      parse_horse_history py_float page = [])
  /\ ((length (history_rows page) <= 20)%nat ->
      forall cells r,
        In cells (history_rows page) ->
        parse_history_row py_float cells = Some r ->
        In r (parse_horse_history py_float page)).
Proof.
  split; [| split].
  - rewrite parse_horse_history_rows. apply firstn_le_length.
  - intros H1 H2. unfold parse_horse_history. now rewrite H1, H2.
  - intros Hlen cells r Hin Hrow. rewrite parse_horse_history_rows.
    rewrite firstn_all2.
    + apply filter_map_in. exists cells. split; assumption.
    + pose proof (filter_map_length (parse_history_row py_float)
                    (history_rows page)). lia.
Qed.

(** What one kept row yields besides its finish. *)
Lemma parse_history_row_fields (py_float : string -> option R)
  (cells : list Cell) (r : RaceResult) :
  parse_history_row py_float cells = Some r ->
  (0 <= r_distance r <= 9999)%Z
  /\ (r_track_type r = EmptyString /\ r_distance r = 0%Z
      \/ r_track_type r = "ダート"%string
      \/ r_track_type r = "芝"%string).
Proof.
  unfold parse_history_row.
  destruct (len cells <? 15)%Z; [discriminate |].
  destruct (nth_error cells 0) as [c0 |]; [| discriminate].
  destruct (nth_error cells 1) as [c1 |]; [| discriminate].
  destruct (nth_error cells 4) as [c4 |]; [| discriminate].
  destruct (nth_error cells 6) as [c6 |]; [| discriminate].
  destruct (nth_error cells 11) as [c11 |]; [| discriminate].
  cbn [obind].
  destruct (isdigit (c_text c11)) eqn:Edig; [| discriminate].
  destruct (py_int (c_text c11)) as [finish |]; [| discriminate].
  cbn [obind].
  destruct (nth_error cells 14) as [c14 |]; [| discriminate].
  cbn [obind].
  destruct (re_search match_surface_distance (chars (c_text c14)))
    as [[g d] |] eqn:Es.
  - apply re_search_some in Es. destruct Es as [s' Hs'].
    apply match_surface_distance_some in Hs'. destruct Hs' as [_ Hd].
    destruct (nth_error cells 9) as [c9 |]; [| discriminate].
    destruct (nth_error cells 10) as [c10 |]; [| discriminate].
    cbn [obind]. intros H. injection H as <-. cbn.
    split; [exact Hd |]. right.
    destruct (g =? dirt_char)%N; [now left | now right].
  - destruct (nth_error cells 9) as [c9 |]; [| discriminate].
    destruct (nth_error cells 10) as [c10 |]; [| discriminate].
    cbn [obind]. intros H. injection H as <-. cbn.
    split; [lia |]. left. split; reflexivity.
Qed.

(** X17.  Every run parse_horse_history returns has a distance between 0
    and 9999, and a track type that is empty (with distance 0) or one of
    the two values "ダート" and "芝". *)
Theorem parse_horse_history_fields (py_float : string -> option R)
  (page : HistoryPage) :
  Forall (fun r =>
            (0 <= r_distance r <= 9999)%Z
            /\ (r_track_type r = EmptyString /\ r_distance r = 0%Z
                \/ r_track_type r = "ダート"%string
                \/ r_track_type r = "芝"%string))
         (parse_horse_history py_float page).
Proof.
  apply Forall_forall. intros r Hin.
  rewrite parse_horse_history_rows in Hin.
  apply firstn_in in Hin. apply filter_map_in in Hin.
  destruct Hin as (cells & _ & Hrow).
  eapply parse_history_row_fields. exact Hrow.
Qed.

Lemma re_search_head {A : Type} (match_at : list N -> option A)
  (cs : list N) (a : A) :
  match_at cs = Some a -> re_search match_at cs = Some a.
Proof. intros H. destruct cs; simpl; now rewrite H. Qed.

(** An ASCII digit is one byte, one character and a decimal digit. *)
Lemma ascii_digit_decimal (c : ascii) :
  is_ascii_digit c = true ->
  (N_of_ascii c <? 0x80)%N = true
  /\ decimal_value (N_of_ascii c) = Some (digit_value c).
Proof.
  destruct c as [[] [] [] [] [] [] [] []]; intros H;
    try discriminate H; split; reflexivity.
Qed.

Lemma ascii_digit_no_sign (c : ascii) :
  is_ascii_digit c = true ->
  (N_of_ascii c =? 0x2D)%N = false /\ (N_of_ascii c =? 0x2B)%N = false.
Proof.
  destruct c as [[] [] [] [] [] [] [] []]; intros H;
    try discriminate H; split; reflexivity.
Qed.

Lemma chars_digits (s : string) :
  all_digits s = true -> chars s = map N_of_ascii (list_ascii_of_string s).
Proof.
  unfold chars. induction s as [| c s IH]; intros Hall; [reflexivity |].
  simpl in Hall. apply andb_true_iff in Hall. destruct Hall as [Hc Hs].
  destruct (ascii_digit_decimal c Hc) as [Hlt _].
  cbn [utf8_decode list_ascii_of_string map]. rewrite Hlt.
  f_equal. now apply IH.
Qed.

Lemma take_decimals_digits (n : nat) (s : string) :
  all_digits s = true -> (String.length s <= n)%nat ->
  take_decimals n (map N_of_ascii (list_ascii_of_string s))
  = map digit_value (list_ascii_of_string s).
Proof.
  revert s. induction n as [| n IH]; intros s Hall Hlen.
  - destruct s; [reflexivity | simpl in Hlen; lia].
  - destruct s as [| c s]; [reflexivity |].
    simpl in Hall. apply andb_true_iff in Hall. destruct Hall as [Hc Hs].
    destruct (ascii_digit_decimal c Hc) as [_ Hd].
    cbn [list_ascii_of_string map take_decimals]. rewrite Hd.
    f_equal. apply IH; [exact Hs | simpl in Hlen; lia].
Qed.

Lemma int_of_decimals_digits (s : string) (acc : Z) :
  fold_left (fun acc d => (acc * 10 + d)%Z)
            (map digit_value (list_ascii_of_string s)) acc
  = int_of_digits_from acc s.
Proof.
  revert acc. induction s as [| c s IH]; intros acc; [reflexivity |].
  cbn [list_ascii_of_string map fold_left int_of_digits_from]. apply IH.
Qed.

Lemma length_list_ascii (s : string) :
  length (list_ascii_of_string s) = String.length s.
Proof. induction s as [| c s IH]; simpl; congruence. Qed.

Lemma int_body_digits (s : string) (after_digit : bool) :
  all_digits s = true ->
  (after_digit = true \/ nonempty s = true) ->
  int_body after_digit (map N_of_ascii (list_ascii_of_string s))
  = Some (map digit_value (list_ascii_of_string s)).
Proof.
  revert after_digit. induction s as [| c s IH]; intros b Hall Hne.
  - destruct Hne as [-> | Hne]; [reflexivity | discriminate].
  - simpl in Hall. apply andb_true_iff in Hall. destruct Hall as [Hc Hs].
    destruct (ascii_digit_decimal c Hc) as [_ Hd].
    cbn [list_ascii_of_string map int_body]. rewrite Hd.
    rewrite (IH true Hs) by now left. reflexivity.
Qed.

Lemma forallb_digits (s : string) :
  all_digits s = true ->
  forallb is_digit (map N_of_ascii (list_ascii_of_string s)) = true.
Proof.
  induction s as [| c s IH]; intros Hall; [reflexivity |].
  simpl in Hall. apply andb_true_iff in Hall. destruct Hall as [Hc Hs].
  destruct (ascii_digit_decimal c Hc) as [_ Hd].
  cbn [list_ascii_of_string map forallb]. rewrite (IH Hs), andb_true_r.
  unfold is_digit, is_decimal. now rewrite Hd.
Qed.

(** On a text of ASCII digits, at most 4300 of them, [str.isdigit] holds and
    [int] is the number the digits spell. *)
Lemma py_int_ascii_digits (s : string) :
  nonempty s = true ->
  all_digits s = true ->
  (Z.of_nat (String.length s) <= int_max_str_digits)%Z ->
  isdigit s = true /\ py_int s = Some (int_of_digits s).
Proof.
  intros Hne Hall Hlen.
  pose proof (forallb_digits s Hall) as Hdig.
  pose proof (int_body_digits s false Hall (or_intror Hne)) as Hbody.
  assert (Hint : int_digits (map N_of_ascii (list_ascii_of_string s))
                 = Some (int_of_digits s)).
  { unfold int_digits. rewrite Hbody.
    unfold len. rewrite length_map, length_list_ascii.
    apply Z.leb_le in Hlen. rewrite Hlen.
    unfold int_of_decimals, int_of_digits. now rewrite int_of_decimals_digits. }
  unfold isdigit, py_int. rewrite (chars_digits s Hall).
  destruct s as [| c s]; [discriminate |].
  assert (Hc : is_ascii_digit c = true).
  { simpl in Hall. now apply andb_true_iff in Hall. }
  destruct (ascii_digit_no_sign c Hc) as [Hm Hp].
  cbn [list_ascii_of_string map] in Hdig, Hint |- *.
  rewrite Hm, Hp. split; [exact Hdig | exact Hint].
Qed.

(** A surface glyph is one character, whatever follows it. *)
Lemma chars_glyph (g : string) (s : string) :
  In g [turf_glyph; dirt_glyph; jump_glyph] ->
  exists c,
    chars g = [c]
    /\ In c [turf_char; dirt_char; jump_char]
    /\ chars (String.append g s) = c :: chars s.
Proof.
  intros [<- | [<- | [<- | []]]]; eexists;
    (split; [reflexivity |]); (split; [cbn; tauto | reflexivity]).
Qed.

(** A surface glyph followed by three or four ASCII digits is matched where
    it stands. *)
Lemma match_surface_distance_token (g ds : string) :
  In g [turf_glyph; dirt_glyph; jump_glyph] ->
  all_digits ds = true ->
  (3 <= String.length ds <= 4)%nat ->
  exists c,
    chars g = [c]
    /\ match_surface_distance (chars (String.append g ds))
       = Some (c, int_of_digits ds).
Proof.
  intros Hg Hall [H3 H4].
  destruct (chars_glyph g ds Hg) as (c & Hc & Hin & ->).
  exists c. split; [exact Hc |].
  unfold match_surface_distance.
  assert (E : existsb (N.eqb c) [turf_char; dirt_char; jump_char] = true).
  { apply existsb_exists. exists c. split; [exact Hin | apply N.eqb_refl]. }
  rewrite E, (chars_digits ds Hall), (take_decimals_digits 4 ds Hall H4).
  rewrite length_map, length_list_ascii.
  apply Nat.leb_le in H3. rewrite H3.
  unfold int_of_decimals, int_of_digits. now rewrite int_of_decimals_digits.
Qed.

Lemma nth_error_some {A : Type} (l : list A) (i : nat) :
  (Z.of_nat i < len l)%Z -> exists a, nth_error l i = Some a.
Proof.
  intros H. destruct (nth_error l i) as [a |] eqn:E; [now exists a |].
  apply nth_error_None in E. unfold len in H. lia.
Qed.

(** X18.  A row of at least fifteen cells whose finish cell passes
    [str.isdigit] and converts with [int], and whose distance cell is one of
    the glyphs 芝, ダ, 障 followed by three or four ASCII digits, is kept,
    with the finish and the distance those digits spell; its track type is
    "ダート" for ダ and "芝" for the other two, so a jump race is recorded as
    turf. *)
Theorem distance_cell_decoded (py_float : string -> option R)
  (cells : list Cell) (c11 c14 : Cell) (g ds : string) (finish : Z) :
  (15 <= len cells)%Z ->
  nth_error cells 11 = Some c11 ->
  isdigit (c_text c11) = true ->
  py_int (c_text c11) = Some finish ->
  nth_error cells 14 = Some c14 ->
  c_text c14 = String.append g ds ->
  In g [turf_glyph; dirt_glyph; jump_glyph] ->
  all_digits ds = true ->
  (3 <= String.length ds <= 4)%nat ->
  exists r,
    parse_history_row py_float cells = Some r
    /\ r_finish r = finish
    /\ r_distance r = int_of_digits ds
    /\ (g = dirt_glyph -> r_track_type r = "ダート"%string)
    /\ (g = turf_glyph \/ g = jump_glyph -> r_track_type r = "芝"%string).
Proof.
  intros Hlen H11 Hdig Hint H14 Htext Hg Hall Hds.
  unfold parse_history_row.
  destruct (len cells <? 15)%Z eqn:E; [apply Z.ltb_lt in E; lia |].
  destruct (nth_error_some cells 0 ltac:(lia)) as [c0 ->].
  destruct (nth_error_some cells 1 ltac:(lia)) as [c1 ->].
  destruct (nth_error_some cells 4 ltac:(lia)) as [c4 ->].
  destruct (nth_error_some cells 6 ltac:(lia)) as [c6 ->].
  destruct (nth_error_some cells 9 ltac:(lia)) as [c9 ->].
  destruct (nth_error_some cells 10 ltac:(lia)) as [c10 ->].
  rewrite H11, H14. cbn [obind]. rewrite Hdig, Hint.
  cbn [obind]. rewrite Htext.
  destruct (match_surface_distance_token g ds Hg Hall Hds) as (c & Hc & Hm).
  rewrite (re_search_head _ _ _ Hm).
  eexists. split; [reflexivity |]. cbn.
  split; [reflexivity |]. split; [reflexivity |].
  split.
  - intros ->. injection Hc as <-. reflexivity.
  - intros [-> | ->]; injection Hc as <-; reflexivity.
Qed.

(** A jump race over 3000 m comes out as 3000 m of turf. *)
Lemma distance_cell_decoded_witness :
  exists r,
    parse_history_row no_float jump_row = Some r
    /\ r_finish r = 3%Z
    /\ r_distance r = int_of_digits "3000"
    /\ (jump_glyph = dirt_glyph -> r_track_type r = "ダート"%string)
    /\ (jump_glyph = turf_glyph \/ jump_glyph = jump_glyph ->
        r_track_type r = "芝"%string).
Proof.
  apply (distance_cell_decoded no_float jump_row (text_cell "3")
           (text_cell "障3000") jump_glyph "3000" 3%Z).
  - unfold len. simpl. lia.
  - reflexivity.
  - reflexivity.
  - reflexivity.
  - reflexivity.
  - reflexivity.
  - right. right. left. reflexivity.
  - reflexivity.
  - simpl. lia.
Defined.

(** The same on a finish cell of ASCII digits, at most 4300 of them: the
    finish is the number the digits spell. *)
Lemma distance_cell_ascii (py_float : string -> option R)
  (cells : list Cell) (c11 c14 : Cell) (g ds : string) :
  (15 <= len cells)%Z ->
  nth_error cells 11 = Some c11 ->
  nonempty (c_text c11) = true ->
  all_digits (c_text c11) = true ->
  (Z.of_nat (String.length (c_text c11)) <= int_max_str_digits)%Z ->
  nth_error cells 14 = Some c14 ->
  c_text c14 = String.append g ds ->
  In g [turf_glyph; dirt_glyph; jump_glyph] ->
  all_digits ds = true ->
  (3 <= String.length ds <= 4)%nat ->
  exists r,
    parse_history_row py_float cells = Some r
    /\ r_finish r = int_of_digits (c_text c11)
    /\ r_distance r = int_of_digits ds.
Proof.
  intros Hlen H11 Hne Hdigits Hmax H14 Htext Hg Hall Hds.
  destruct (py_int_ascii_digits _ Hne Hdigits Hmax) as [Hdig Hint].
  unfold parse_history_row.
  destruct (len cells <? 15)%Z eqn:E; [apply Z.ltb_lt in E; lia |].
  destruct (nth_error_some cells 0 ltac:(lia)) as [c0 ->].
  destruct (nth_error_some cells 1 ltac:(lia)) as [c1 ->].
  destruct (nth_error_some cells 4 ltac:(lia)) as [c4 ->].
  destruct (nth_error_some cells 6 ltac:(lia)) as [c6 ->].
  destruct (nth_error_some cells 9 ltac:(lia)) as [c9 ->].
  destruct (nth_error_some cells 10 ltac:(lia)) as [c10 ->].
  rewrite H11, H14. cbn [obind]. rewrite Hdig, Hint.
  cbn [obind]. rewrite Htext.
  destruct (match_surface_distance_token g ds Hg Hall Hds) as (c & Hc & Hm).
  rewrite (re_search_head _ _ _ Hm).
  eexists. split; [reflexivity |]. cbn. split; reflexivity.
Qed.

Lemma find_app {A : Type} (p : A -> bool) (l1 l2 : list A) :
  find p (l1 ++ l2)
  = match find p l1 with
    | Some a => Some a
    | None => find p l2
    end.
Proof.
  induction l1 as [| a l1 IH]; simpl; [reflexivity |].
  destruct (p a); [reflexivity | exact IH].
Qed.

Lemma find_first {A : Type} (p : A -> bool) (l : list A) :
  match find p l with
  | Some a =>
      exists before after,
        l = before ++ a :: after
        /\ p a = true
        /\ Forall (fun b => p b = false) before
  | None => Forall (fun b => p b = false) l
  end.
Proof.
  induction l as [| x l IH]; simpl; [constructor |].
  destruct (p x) eqn:E.
  - exists [], l. repeat split; [exact E | constructor].
  - destruct (find p l) as [a |].
    + destruct IH as (before & after & -> & Ha & Hb).
      exists (x :: before), after. repeat split; [exact Ha |].
      now constructor.
    + now constructor.
Qed.

Lemma parse_race_info_course (f : source_file) (page : RacePage)
  (race_id : string) :
  ri_course (parse_race_info f page race_id)
  = match pg_race_data02 page with
    | Some text => parse_course f text
    | None => EmptyString
    end.
Proof. unfold parse_race_info. destruct (pg_race_data01 page); reflexivity. Qed.

Lemma parse_race_info_distance (f : source_file) (page : RacePage)
  (race_id : string) :
  ri_distance (parse_race_info f page race_id)
  = match pg_race_data01 page with
    | Some text =>
        match re_search match_meters (chars text) with
        | Some d => d
        | None => 0%Z
        end
    | None => 0%Z
    end.
Proof. unfold parse_race_info. destruct (pg_race_data01 page); reflexivity. Qed.

Lemma parse_race_info_track_type (f : source_file) (page : RacePage)
  (race_id : string) :
  ri_track_type (parse_race_info f page race_id)
  = match pg_race_data01 page with
    | Some text =>
        if str_in dirt_glyph text then "ダート"%string
        else if str_in turf_glyph text then "芝"%string
        else EmptyString
    | None => EmptyString
    end.
Proof. unfold parse_race_info. destruct (pg_race_data01 page); reflexivity. Qed.

Lemma parse_race_page_info (py_float : string -> option R) (f : source_file)
  (page : RacePage) (race_id : string) (race_info : RaceInfo)
  (horses : list Horse) :
  parse_race_page py_float f page race_id = Ok (race_info, horses) ->
  race_info = parse_race_info f page race_id.
Proof.
  unfold parse_race_page.
  destruct (mapM _ (pg_horse_rows page)); [| discriminate].
  cbn [bind]. intros H. now injection H as <- _.
Qed.

(** X19.  The race info parse_race_page returns is read from the page
    before any row is, and it is returned whenever every row parses; both
    files resolve the same course, distance and track type from a page.  The course is the first
    name, in the order JRA courses then regional courses, that occurs in the
    text of the [RaceData02] block, and it is empty when no name occurs or
    the block is missing. *)
Theorem parse_race_page_course (py_float : string -> option R)
  (page : RacePage) (race_id : string) :
  (forall f race_info horses,
     parse_race_page py_float f page race_id = Ok (race_info, horses) ->
     race_info = parse_race_info f page race_id)
  /\ (forall f,
        (forall row, In row (pg_horse_rows page) ->
           exists h, parse_entry_row py_float f row = Ok h) ->
        exists horses,
          parse_race_page py_float f page race_id
          = Ok (parse_race_info f page race_id, horses))
  /\ ri_course (parse_race_info app_py page race_id)
     = ri_course (parse_race_info scrape_and_predict_py page race_id)
  /\ ri_distance (parse_race_info app_py page race_id)
     = ri_distance (parse_race_info scrape_and_predict_py page race_id)
  /\ ri_track_type (parse_race_info app_py page race_id)
     = ri_track_type (parse_race_info scrape_and_predict_py page race_id)
  /\ match pg_race_data02 page with
     | None => ri_course (parse_race_info app_py page race_id) = EmptyString
     | Some text =>
         (ri_course (parse_race_info app_py page race_id) = EmptyString
          /\ Forall (fun name => str_in name text = false)
                    (jra_courses ++ nar_courses))
         \/ exists before after,
              jra_courses ++ nar_courses
              = before
                ++ ri_course (parse_race_info app_py page race_id) :: after
              /\ str_in (ri_course (parse_race_info app_py page race_id))
                        text = true
              /\ Forall (fun name => str_in name text = false) before
     end.
Proof.
  split; [intros f race_info horses; apply parse_race_page_info |].
  split.
  { intros f Hrows.
    destruct (parse_race_page_cases py_float f page race_id)
      as [(parsed & _ & Hok) | (_ & row & Hrow & Hr)]; [eauto |].
    destruct (Hrows row Hrow) as [h Hh]. congruence. }
  assert (Hsame : forall text,
            parse_course scrape_and_predict_py text
            = parse_course app_py text).
  { intros text. unfold parse_course. rewrite find_app.
    destruct (find _ jra_courses); [reflexivity |].
    destruct (find _ nar_courses); reflexivity. }
  rewrite !parse_race_info_course, !parse_race_info_distance,
    !parse_race_info_track_type.
  destruct (pg_race_data02 page) as [text |];
    [| repeat split; reflexivity].
  rewrite Hsame. repeat (split; [reflexivity |]).
  unfold parse_course.
  pose proof (find_first (fun name => str_in name text)
                (jra_courses ++ nar_courses)) as Hf.
  destruct (find _ (jra_courses ++ nar_courses)) as [name |];
    [right; exact Hf | left; split; [reflexivity | exact Hf]].
Qed.

Lemma match_weight_range (s : string) (w : R) :
  match_weight s = Some w -> 0 <= w <= 99.9.
Proof.
  unfold match_weight.
  destruct (chars s) as [| a [| b [| dot [| c [| x cs]]]]]; try discriminate.
  destruct (decimal_value a) as [da |] eqn:Ea; [| discriminate].
  destruct (decimal_value b) as [db |] eqn:Eb; [| discriminate].
  destruct (decimal_value c) as [dc |] eqn:Ec; [| discriminate].
  destruct (dot =? 0x2E)%N; [| discriminate].
  intros H. injection H as <-.
  apply decimal_value_range in Ea, Eb, Ec.
  assert (0 <= IZR (da * 10 + db) <= 99) by (split; apply IZR_le; lia).
  assert (0 <= IZR dc <= 9) by (split; apply IZR_le; lia).
  lra.
Qed.

Lemma find_map_some {A B : Type} (g : A -> option B) (l : list A) (b : B) :
  find_map g l = Some b -> exists a, In a l /\ g a = Some b.
Proof.
  induction l as [| a l IH]; simpl; [discriminate |].
  destruct (g a) as [b' |] eqn:E.
  - intros H. exists a. split; [now left | congruence].
  - intros H. destruct (IH H) as (a' & Ha' & Hg). exists a'. split; [now right | exact Hg].
Qed.

(** What a parsed row is, before the validity test. *)
Lemma parse_entry_row_fields (py_float : string -> option R)
  (f : source_file) (row : EntryRow) (h : Horse) :
  parse_entry_row py_float f row = Ok h ->
  h_results h = []
  /\ 0 <= h_weight_carry h <= 99.9
  /\ (0 <= h_number h)%Z
  /\ (0 <= h_popularity h)%Z
  /\ h_name h = parse_name row.
Proof.
  unfold parse_entry_row.
  destruct (parse_gate f row) as [gate | e]; [| discriminate]. cbn [bind].
  destruct (int_if_digit (er_umaban row)) as [number | e] eqn:En;
    [| discriminate].
  apply int_if_digit_nonneg in En. cbn [bind].
  destruct (parse_age row) as [age | e]; [| discriminate]. cbn [bind].
  assert (Hw : 0 <= match find_map match_weight (er_cells row) with
                    | Some w => w
                    | None => 0
                    end <= 99.9).
  { destruct (find_map match_weight (er_cells row)) as [w |] eqn:Ew; [| lra].
    apply find_map_some in Ew. destruct Ew as (s & _ & Hs).
    now apply match_weight_range in Hs. }
  destruct f.
  - cbn [bind]. intros H. apply Ok_inj in H. subst h. cbn.
    repeat split; try apply Hw; lia.
  - destruct (int_if_digit (er_ninki row)) as [pop | e] eqn:Ep;
      [| discriminate].
    apply int_if_digit_nonneg in Ep. cbn [bind].
    intros H. apply Ok_inj in H. subst h. cbn.
    repeat split; try apply Hw; lia.
Qed.

(** X20.  parse_race_page either returns or raises ValueError, and it
    returns whenever every row parses.  What it returns has at most one
    horse per row of the page; each has a program number of at least 1, a
    popularity of at least 0, a carried weight between 0 and 99.9 and no
    history yet; and the race distance is between 0 and 9999. *)
Theorem parse_race_page_ranges (py_float : string -> option R)
  (f : source_file) (page : RacePage) (race_id : string) :
  ((exists race_info horses,
      parse_race_page py_float f page race_id = Ok (race_info, horses))
   \/ parse_race_page py_float f page race_id = Raise ValueError)
  /\ ((forall row, In row (pg_horse_rows page) ->
         exists h, parse_entry_row py_float f row = Ok h) ->
      exists race_info horses,
        parse_race_page py_float f page race_id = Ok (race_info, horses))
  /\ forall race_info horses,
       parse_race_page py_float f page race_id = Ok (race_info, horses) ->
       (length horses <= length (pg_horse_rows page))%nat
       /\ (0 <= ri_distance race_info <= 9999)%Z
       /\ Forall (fun h =>
                    (1 <= h_number h)%Z
                    /\ (0 <= h_popularity h)%Z
                    /\ 0 <= h_weight_carry h <= 99.9
                    /\ h_results h = [])
                 horses.
Proof.
  destruct (parse_race_page_cases py_float f page race_id)
    as [(parsed & Hall & Hpage) | (Hr & row & Hrow & Hraise)].
  - split; [left; eauto |]. split; [eauto |].
    intros race_info horses Hok. rewrite Hpage in Hok.
    injection Hok as <- <-. split; [| split].
    + rewrite (Forall2_length Hall). apply filter_length_le.
    + rewrite parse_race_info_distance.
      destruct (pg_race_data01 page) as [text |]; [| lia].
      destruct (re_search match_meters (chars text)) as [d |] eqn:E; [| lia].
      apply re_search_some in E. destruct E as [s' Hs'].
      now apply match_meters_some in Hs'.
    + apply Forall_forall. intros h Hh.
      apply filter_In in Hh. destruct Hh as [Hin Hvalid].
      apply valid_entry_true in Hvalid. destruct Hvalid as [_ Hnum].
      destruct (Forall2_in_r _ _ _ _ Hall Hin) as (row & _ & Hrow).
      apply parse_entry_row_fields in Hrow.
      destruct Hrow as (Hres & Hw & _ & Hpop & _).
      repeat split; try assumption; apply Hw.
  - split; [now right |]. split.
    + intros Hrows. destruct (Hrows row Hrow) as [h Hh]. congruence.
    + intros race_info horses Hok. congruence.
Qed.

(** * get_base_url *)

(** X21.  On a race id of five characters or more both files return the
    same base URL: the regional one exactly when the fifth character is
    "4", the JRA one otherwise.  On a shorter id [app.py] returns the JRA
    URL while [scrape_and_predict.py] raises IndexError.  Characters are
    counted, not bytes. *)
Theorem get_base_url_files (race_id : string) :
  ((4 < len (chars race_id))%Z ->
   exists c,
     nth_error (chars race_id) 4 = Some c
     /\ get_base_url app_py race_id
        = Ok (if (c =? 0x34)%N then nar_url else jra_url)
     /\ get_base_url scrape_and_predict_py race_id
        = get_base_url app_py race_id)
  /\ ((len (chars race_id) <= 4)%Z ->
      get_base_url app_py race_id = Ok jra_url
      /\ get_base_url scrape_and_predict_py race_id = Raise IndexError)
  /\ get_base_url app_py "é444" = Ok jra_url
  /\ get_base_url scrape_and_predict_py "é444" = Raise IndexError
  /\ get_base_url scrape_and_predict_py "éééé4" = Ok nar_url.
Proof.
  split; [| split; [| repeat split]].
  - intros Hlen. unfold get_base_url, str_get.
    destruct (nth_error_some (chars race_id) 4 Hlen) as [c Hc].
    exists c. rewrite Hc. apply Z.ltb_lt in Hlen. rewrite Hlen. cbn [bind].
    repeat split.
  - intros Hlen. unfold get_base_url, str_get.
    assert (E : nth_error (chars race_id) 4 = None).
    { apply nth_error_None. unfold len in Hlen. lia. }
    rewrite E. cbn [bind].
    assert (Hn : (4 <? len (chars race_id))%Z = false)
      by (apply Z.ltb_ge; lia).
    rewrite Hn. split; reflexivity.
Qed.

(** * display_results *)

Lemma snd_say (l : line) (rest : output) : snd (l >>> rest) = snd rest.
Proof. reflexivity. Qed.

Lemma mark_of_ok (rank : Z) :
  (-14 <= rank)%Z -> exists mark, mark_of rank = Ok mark.
Proof.
  intros Hrank. unfold mark_of, py_index, list_get.
  change (len marks) with 15%Z.
  destruct (rank <=? 15)%Z eqn:E15; [| eexists; reflexivity].
  apply Z.leb_le in E15.
  destruct (0 <=? rank - 1)%Z eqn:E0.
  - apply Z.leb_le in E0.
    destruct (nth_error marks (Z.to_nat (rank - 1))) as [m |] eqn:En;
      [eexists; reflexivity |].
    apply nth_error_None in En. change (length marks) with 15%nat in En. lia.
  - apply Z.leb_gt in E0.
    assert (E : (Z.opp 15 <=? rank - 1)%Z = true) by (apply Z.leb_le; lia).
    rewrite E.
    destruct (nth_error marks (Z.to_nat (15 + (rank - 1)))) as [m |] eqn:En;
      [eexists; reflexivity |].
    apply nth_error_None in En. change (length marks) with 15%nat in En. lia.
Qed.

Lemma ranking_row_ok (p : Prediction) :
  (-14 <= p_rank p)%Z ->
  exists l, ranking_row p = Ok l /\ is_row l = true.
Proof.
  intros Hrank. unfold ranking_row.
  destruct (mark_of_ok _ Hrank) as [mark ->]. cbn [bind].
  eexists. split; reflexivity.
Qed.

(** With ranks the marks table can serve, the ranking table is printed in
    full, one row per prediction, before anything that follows it. *)
Lemma ranking_rows_ok (predictions : list Prediction) (rest : output) :
  Forall (fun p => (-14 <= p_rank p)%Z) predictions ->
  exists rows,
    ranking_rows predictions rest = (rows ++ fst rest, snd rest)
    /\ length rows = length predictions
    /\ Forall (fun l => is_row l = true) rows.
Proof.
  induction 1 as [| p ps Hp _ IH].
  - exists []. split; [now destruct rest |]. split; [reflexivity | constructor].
  - destruct IH as (rows & Hrows & Hlen & Hall).
    destruct (ranking_row_ok p Hp) as (l & Hl & Hrow).
    exists (l :: rows). cbn [ranking_rows]. rewrite Hl. cbn [need].
    rewrite Hrows. split; [reflexivity |].
    split; [simpl; now rewrite Hlen | now constructor].
Qed.

Lemma value_rows_finish (l : list Prediction) (closing : output) :
  snd (fold_right (fun p rest => value_row p >>> rest) closing l)
  = snd closing.
Proof. induction l as [| p l IH]; [reflexivity | exact IH]. Qed.

Lemma value_block_finishes (predictions : list Prediction) :
  snd (value_block predictions) = None.
Proof.
  unfold value_block.
  destruct (sorted_desc p_expected_value _); [reflexivity |].
  rewrite snd_say, value_rows_finish. reflexivity.
Qed.

Lemma tips_block_short (predictions : list Prediction) (rest : output) :
  (length predictions < 5)%nat ->
  snd (tips_block predictions rest) = Some IndexError
  /\ Forall (fun l => is_row l = false) (fst (tips_block predictions rest)).
Proof.
  intros Hlen.
  destruct predictions as [| a [| b [| c [| d [| e ps]]]]];
    try (simpl in Hlen; lia);
    (split; [reflexivity | repeat constructor]).
Qed.

Lemma tips_block_full (predictions : list Prediction) (rest : output) :
  (5 <= length predictions)%nat ->
  snd (tips_block predictions rest) = snd rest.
Proof.
  intros Hlen.
  destruct predictions as [| a [| b [| c [| d [| e ps]]]]];
    try (simpl in Hlen; lia).
  reflexivity.
Qed.

(** X22.  On predictions whose ranks are at least -14 (those of predict
    start at 1) display_results prints the whole ranking table, one row per
    prediction, and then: with fewer than five predictions it raises
    IndexError in the block of recommended bets, with five or more it runs
    to its end. *)
Theorem display_results_needs_five (predictions : list Prediction)
  (race_info : RaceInfo) (track_condition : string) :
  Forall (fun p => (-14 <= p_rank p)%Z) predictions ->
  ((length predictions < 5)%nat ->
   snd (display_results predictions race_info track_condition)
   = Some IndexError
   /\ length (filter is_row
                (fst (display_results predictions race_info track_condition)))
      = length predictions)
  /\ ((5 <= length predictions)%nat ->
      snd (display_results predictions race_info track_condition) = None).
Proof.
  intros Hranks. unfold display_results.
  set (after := Rule >>> Separator >>> TipsHeader >>> Separator >>>
                tips_block predictions (value_block predictions)).
  destruct (ranking_rows_ok predictions after Hranks)
    as (rows & Hrows & Hlen & Hall).
  split; intros Hn.
  - destruct (tips_block_short predictions (value_block predictions) Hn)
      as [Hraise Hnorow].
    rewrite !snd_say, Hrows. cbn [snd fst say filter is_row].
    split; [exact Hraise |].
    rewrite filter_app.
    rewrite (forallb_filter_id is_row rows) by
      (apply forallb_forall; now apply Forall_forall).
    unfold after. cbn [fst say filter is_row].
    replace (filter is_row
               (fst (tips_block predictions (value_block predictions))))
      with (@nil line).
    + rewrite app_nil_r. exact Hlen.
    + symmetry. induction Hnorow as [| l ls Hl _ IH]; [reflexivity |].
      cbn [filter]. now rewrite Hl.
  - rewrite !snd_say, Hrows. cbn [snd]. unfold after. rewrite !snd_say.
    rewrite tips_block_full by assumption. apply value_block_finishes.
Qed.

(** Two predictions are not enough for the recommended bets. *)
Lemma display_results_needs_five_witness :
  snd (display_results [ranked_only 1; ranked_only 2] blank_race EmptyString)
  = Some IndexError
  /\ length (filter is_row
               (fst (display_results [ranked_only 1; ranked_only 2]
                       blank_race EmptyString)))
     = 2%nat.
Proof.
  apply (display_results_needs_five [ranked_only 1; ranked_only 2] blank_race
           EmptyString).
  - repeat constructor; simpl; lia.
  - simpl. lia.
Defined.

Lemma ranked_ranks_positive (min_s max_s total_exp : R) (l : list Scored) :
  Forall (fun p => (-14 <= p_rank p)%Z)
         (map (ranked_entry min_s max_s total_exp) (enumerate l)).
Proof.
  apply Forall_forall. intros p Hp. unfold enumerate in Hp.
  apply ranked_in in Hp. destruct Hp as (i & sc & _ & ->). cbn. lia.
Qed.

(** X23.  From predict to display_results in [scrape_and_predict.py]: on a
    field of one to four entrants predict returns a forecast and
    display_results then raises IndexError on it; on a field of five or more
    display_results runs to its end. *)
Theorem predict_then_display (horses : list Horse) (race_info : RaceInfo)
  (track_condition : string) :
  horses <> [] ->
  exists ps,
    predict scrape_and_predict_py horses race_info = Ok ps
    /\ ((length horses < 5)%nat ->
        snd (display_results ps race_info track_condition) = Some IndexError)
    /\ ((5 <= length horses)%nat ->
        snd (display_results ps race_info track_condition) = None).
Proof.
  intros Hne.
  destruct (predict_facts scrape_and_predict_py horses race_info Hne)
    as (ps & sorted & min_s & max_s & total & Hps & -> & _ & _ & Hlen & _).
  eexists. split; [exact Hps |].
  set (ps := map (ranked_entry min_s max_s total) (enumerate sorted)).
  assert (Hn : length ps = length horses).
  { unfold ps. now rewrite ranked_length. }
  pose proof (ranked_ranks_positive min_s max_s total sorted) as Hranks.
  fold ps in Hranks.
  unfold display_results.
  set (after := Rule >>> Separator >>> TipsHeader >>> Separator >>>
                tips_block ps (value_block ps)).
  destruct (ranking_rows_ok ps after Hranks) as (rows & Hrows & _ & _).
  rewrite !snd_say, Hrows. cbn [snd]. unfold after. rewrite !snd_say.
  split; intros H.
  - apply tips_block_short. lia.
  - rewrite tips_block_full by lia. apply value_block_finishes.
Qed.

Lemma predict_then_display_witness :
  exists ps,
    predict scrape_and_predict_py [lone_seven; five_runs] blank_race = Ok ps
    /\ ((length [lone_seven; five_runs] < 5)%nat ->
        snd (display_results ps blank_race EmptyString) = Some IndexError)
    /\ ((5 <= length [lone_seven; five_runs])%nat ->
        snd (display_results ps blank_race EmptyString) = None).
Proof.
  apply (predict_then_display [lone_seven; five_runs] blank_race EmptyString).
  discriminate.
Defined.

Lemma insert_by_desc_perm {A : Type} (key : A -> R) (a : A) (l : list A) :
  Permutation (insert_by_desc key a l) (a :: l).
Proof.
  induction l as [| b l IH]; simpl.
  - apply Permutation_refl.
  - destruct (Rlt_dec (key a) (key b)).
    + eapply perm_trans; [apply perm_skip, IH | apply perm_swap].
    + apply Permutation_refl.
Qed.

Lemma sorted_desc_perm {A : Type} (key : A -> R) (l : list A) :
  Permutation (sorted_desc key l) l.
Proof.
  induction l as [| a l IH]; simpl.
  - constructor.
  - eapply perm_trans; [apply insert_by_desc_perm | now apply perm_skip].
Qed.

Lemma insert_by_desc_sorted {A : Type} (key : A -> R) (a : A) (l : list A) :
  StronglySorted (fun x y => key y <= key x) l ->
  StronglySorted (fun x y => key y <= key x) (insert_by_desc key a l).
Proof.
  induction l as [| b l IH]; intros Hs; simpl.
  - repeat constructor.
  - inversion Hs as [| ? ? Hl Hb]; subst.
    destruct (Rlt_dec (key a) (key b)) as [Hlt | Hge].
    + constructor; [now apply IH |].
      apply (Permutation_Forall (Permutation_sym (insert_by_desc_perm key a l))).
      constructor; [lra | exact Hb].
    + constructor; [exact Hs |].
      constructor; [lra |].
      eapply Forall_impl; [| exact Hb]. simpl. intros; lra.
Qed.

Lemma sorted_desc_sorted {A : Type} (key : A -> R) (l : list A) :
  StronglySorted (fun x y => key y <= key x) (sorted_desc key l).
Proof.
  induction l as [| a l IH]; simpl.
  - constructor.
  - now apply insert_by_desc_sorted.
Qed.

Lemma StronglySorted_app_inv {A : Type} (R0 : A -> A -> Prop)
  (l1 l2 : list A) :
  StronglySorted R0 (l1 ++ l2) ->
  StronglySorted R0 l1
  /\ forall a b, In a l1 -> In b l2 -> R0 a b.
Proof.
  induction l1 as [| x l1 IH]; simpl; intros Hs.
  - split; [constructor | intros a b []].
  - inversion Hs as [| ? ? Hl Hx]; subst.
    destruct (IH Hl) as [Hs1 Hcross].
    rewrite Forall_forall in Hx. split.
    + constructor; [exact Hs1 |]. apply Forall_forall.
      intros y Hy. apply Hx. apply in_or_app. now left.
    + intros a b [<- | Ha] Hb.
      * apply Hx. apply in_or_app. now right.
      * now apply Hcross.
Qed.

Lemma value_rows_lines (l : list Prediction) (closing : output) :
  fst (fold_right (fun p rest => value_row p >>> rest) closing l)
  = map value_row l ++ fst closing.
Proof.
  induction l as [| p l IH]; [reflexivity |].
  cbn [fold_right say fst map app]. now rewrite IH.
Qed.

Lemma value_block_lines (predictions : list Prediction) :
  filter is_value_row (fst (value_block predictions))
  = map value_row (value_picks predictions).
Proof.
  unfold value_block, value_picks.
  destruct (sorted_desc p_expected_value _) as [| p l]; [reflexivity |].
  cbn [say fst filter is_value_row]. rewrite value_rows_lines.
  rewrite filter_app. cbn [say fst finished filter is_value_row].
  rewrite app_nil_r.
  induction (firstn 3 (p :: l)) as [| q qs IH]; [reflexivity |].
  cbn [map filter value_row is_value_row]. now rewrite IH.
Qed.

Lemma ranking_rows_lines (predictions : list Prediction) (rest : output) :
  Forall (fun p => (-14 <= p_rank p)%Z) predictions ->
  filter is_value_row (fst (ranking_rows predictions rest))
  = filter is_value_row (fst rest).
Proof.
  induction 1 as [| p ps Hp _ IH]; [reflexivity |].
  cbn [ranking_rows]. unfold ranking_row.
  destruct (mark_of_ok _ Hp) as [mark ->]. cbn [bind need say fst filter].
  exact IH.
Qed.

(** X24.  When display_results runs to its end (five predictions or more,
    ranks of at least -14), the entries it lists for their expected value
    are at most three, each has a positive expected value, they come in
    non-increasing order of expected value, and no prediction left out has
    a higher expected value than a listed one. *)
Theorem display_results_value_picks (predictions : list Prediction)
  (race_info : RaceInfo) (track_condition : string) :
  Forall (fun p => (-14 <= p_rank p)%Z) predictions ->
  (5 <= length predictions)%nat ->
  filter is_value_row
         (fst (display_results predictions race_info track_condition))
  = map value_row (value_picks predictions)
  /\ (length (value_picks predictions) <= 3)%nat
  /\ Forall (fun p => In p predictions /\ 0 < p_expected_value p)
            (value_picks predictions)
  /\ StronglySorted value_desc (value_picks predictions)
  /\ forall p q,
       In p (value_picks predictions) -> In q predictions ->
       ~ In q (value_picks predictions) ->
       p_expected_value q <= p_expected_value p.
Proof.
  intros Hranks Hlen.
  set (positive := filter (fun p => Rgtb (p_expected_value p) 0) predictions).
  pose proof (sorted_desc_perm p_expected_value positive) as Hperm.
  pose proof (sorted_desc_sorted p_expected_value positive) as Hsorted.
  assert (Hsplit : sorted_desc p_expected_value positive
                   = value_picks predictions
                     ++ skipn 3 (sorted_desc p_expected_value positive)).
  { unfold value_picks. fold positive. symmetry. apply firstn_skipn. }
  rewrite Hsplit in Hsorted.
  apply StronglySorted_app_inv in Hsorted. destruct Hsorted as [Hs1 Hcross].
  split; [| split; [| split; [| split]]].
  - unfold display_results. cbn [say fst filter is_value_row].
    rewrite ranking_rows_lines by assumption.
    cbn [say fst filter is_value_row].
    destruct predictions as [| a [| b [| c [| d [| e ps]]]]];
      try (simpl in Hlen; lia).
    cbn [tips_block firstn list_get nth_error need say fst filter
         is_value_row].
    apply value_block_lines.
  - unfold value_picks. apply firstn_le_length.
  - apply Forall_forall. intros p Hp.
    assert (Hin : In p positive).
    { apply (Permutation_in _ Hperm). rewrite Hsplit.
      apply in_or_app. now left. }
    apply filter_In in Hin. destruct Hin as [Hin Hpos].
    split; [exact Hin | now apply Rgtb_true].
  - exact Hs1.
  - intros p q Hp Hq Hnot.
    destruct (Rlt_dec 0 (p_expected_value q)) as [Hpos | Hnpos].
    + assert (Hin : In q (sorted_desc p_expected_value positive)).
      { apply (Permutation_in _ (Permutation_sym Hperm)).
        apply filter_In. split; [exact Hq | now apply Rgtb_true]. }
      rewrite Hsplit in Hin. apply in_app_or in Hin.
      destruct Hin as [Hin | Hin]; [contradiction |].
      now apply (Hcross p q).
    + assert (Hin : In p positive).
      { apply (Permutation_in _ Hperm). rewrite Hsplit.
        apply in_or_app. now left. }
      apply filter_In in Hin. destruct Hin as [_ Hpos].
      apply Rgtb_true in Hpos. lra.
Qed.

(** Of four entries with a positive expected value the best three are
    listed, best first. *)
Lemma display_results_value_picks_witness :
  filter is_value_row
         (fst (display_results six_valued blank_race EmptyString))
  = map value_row (value_picks six_valued)
  /\ (length (value_picks six_valued) <= 3)%nat
  /\ Forall (fun p => In p six_valued /\ 0 < p_expected_value p)
            (value_picks six_valued)
  /\ StronglySorted value_desc (value_picks six_valued)
  /\ forall p q,
       In p (value_picks six_valued) -> In q six_valued ->
       ~ In q (value_picks six_valued) ->
       p_expected_value q <= p_expected_value p.
Proof.
  apply (display_results_value_picks six_valued blank_race EmptyString).
  - repeat constructor; simpl; lia.
  - simpl. lia.
Defined.

Ltac decide_reals :=
  repeat match goal with
         | |- context [Rlt_dec ?a ?b] =>
             destruct (Rlt_dec a b); try (exfalso; simpl in *; lra)
         end.

Lemma value_picks_six_valued :
  map p_rank (value_picks six_valued) = [5; 3; 1]%Z.
Proof.
  unfold value_picks, six_valued, sorted_desc, Rgtb, valued.
  cbn [filter p_expected_value]. decide_reals.
  repeat (progress cbn [fold_right insert_by_desc p_expected_value];
          decide_reals).
  reflexivity.
Qed.

(** * The rows of the history table *)

(** X28.  A row of the results table yields a run exactly when it has at
    least fifteen cells and its finish cell passes [str.isdigit] and
    converts with [int]: whatever stands in its odds, popularity, field-size
    and distance cells, and whatever the float parser makes of it, never
    drops the row. *)
Theorem history_row_kept (py_float : string -> option R)
  (cells : list Cell) :
  (exists r, parse_history_row py_float cells = Some r)
  <-> (15 <= len cells)%Z
      /\ exists c11 finish,
           nth_error cells 11 = Some c11
           /\ isdigit (c_text c11) = true
           /\ py_int (c_text c11) = Some finish.
Proof.
  split.
  - intros [r Hr].
    destruct (parse_history_row_some py_float cells r Hr)
      as (Hlen & c11 & H11 & Hdig & Hint).
    split; [exact Hlen |]. exists c11, (r_finish r). repeat split; assumption.
  - intros (Hlen & c11 & finish & H11 & Hdig & Hint).
    unfold parse_history_row.
    destruct (len cells <? 15)%Z eqn:E; [apply Z.ltb_lt in E; lia |].
    destruct (nth_error_some cells 0 ltac:(lia)) as [c0 ->].
    destruct (nth_error_some cells 1 ltac:(lia)) as [c1 ->].
    destruct (nth_error_some cells 4 ltac:(lia)) as [c4 ->].
    destruct (nth_error_some cells 6 ltac:(lia)) as [c6 ->].
    destruct (nth_error_some cells 9 ltac:(lia)) as [c9 ->].
    destruct (nth_error_some cells 10 ltac:(lia)) as [c10 ->].
    destruct (nth_error_some cells 14 ltac:(lia)) as [c14 ->].
    rewrite H11. cbn [obind]. rewrite Hdig, Hint.
    cbn [obind].
    destruct (match re_search match_surface_distance (chars (c_text c14)) with
              | Some (g, d) => _
              | None => _
              end) as [track_type distance].
    eexists. reflexivity.
Qed.

(** A JRA id, a regional id and an id that is too short. *)
Lemma get_base_url_examples :
  get_base_url app_py "202508040701" = Ok jra_url
  /\ get_base_url scrape_and_predict_py "202542010101" = Ok nar_url
  /\ get_base_url app_py "2025" = Ok jra_url
  /\ get_base_url scrape_and_predict_py "2025" = Raise IndexError.
Proof. repeat split. Qed.
